(** * Aragorn: the upload orchestrator and the templated HTTP uploader

    A shallow embedding of
    - [packages/aragorn-app-main/src/uploaderManager.ts] (class
      [UploaderManager]) and
    - the custom uploader ([CustomUploader], templated HTTP requests),
    with the properties of their specification stated over it.

    JavaScript values that the code inspects are modelled by the type [JS];
    exceptions by the monads [Result] (pure code) and [M] (code with
    effects on the history, the clipboard, the notification surface and the
    UI transport, which are logged as a trace of [Event]s). *)

From stdpp Require Import base option list strings gmap pretty.

Set Warnings "-register-all".
Set Default Proof Using "Type".

(** ** JavaScript values and exceptions *)

(** The values a parsed JSON document is made of, plus [undefined] and
    the values of the engine that no document holds: the functions and
    the objects of the prototypes, such as [String.prototype.link], which
    are only named. Numbers are restricted to the integers: the code only
    tests a number against zero. *)
Inductive JS : Type :=
| JUndefined
| JNull
| JBool (b : bool)
| JNum (n : Z)
| JStr (s : string)
| JArr (items : list JS)
| JObj (members : list (string * JS))
| JNative (name : string).

(** [if (v)]: the values that count as true. *)
Definition truthy (v : JS) : bool :=
  match v with
  | JUndefined | JNull => false
  | JBool b => b
  | JNum n => negb (n =? 0)%Z
  | JStr s => negb (String.eqb s "")
  | JArr _ | JObj _ | JNative _ => true
  end.

(** [null] and [undefined], on which a property cannot be read. *)
Definition nullish (v : JS) : bool :=
  match v with
  | JUndefined | JNull => true
  | _ => false
  end.

(** The member of an object stored under a key; the first binding wins. *)
Fixpoint member (key : string) (members : list (string * JS)) : option JS :=
  match members with
  | [] => None
  | (k, v) :: rest => if String.eqb k key then Some v else member key rest
  end.

(** The element of an array stored under a key, when the key is the
    decimal writing of its index; [i] is the index of the first item. *)
Fixpoint element (key : string) (i : nat) (items : list JS) : option JS :=
  match items with
  | [] => None
  | v :: rest => if String.eqb (pretty i) key then Some v else element key (S i) rest
  end.

(** What a value of a parsed document holds under a key: the member of an
    object, the element of an array; the other values hold nothing. *)
Definition held (key : string) (v : JS) : option JS :=
  match v with
  | JObj members => member key members
  | JArr items => element key 0 items
  | _ => None
  end.

(** [v?.[key]]: [undefined] on [null] and [undefined]; otherwise the
    property read [v[key]], which gives what the value holds under the
    key and, where it holds nothing, what the engine reads there,
    [builtin v key]: the [length] of an array or of a string, a character
    of a string, a member inherited from a prototype (such as
    [constructor], or [link] on a string), and [undefined] when there is
    none of these. *)
Definition optional_get (builtin : JS → string → JS) (v : JS) (key : string) : JS :=
  if nullish v then JUndefined else default (builtin v key) (held key v).

(** A thrown value that carries a message, as the [Error] objects of the
    engine and of the libraries do; the code only reads its [message]. A
    rejection with [null] or [undefined], on which reading [message]
    throws in turn, is outside the model. *)
Record Error : Type := { message : string }.

(** The outcome of a computation that may throw. *)
Inductive Result (A : Type) : Type :=
| Ok (a : A)
| Throw (e : Error).
Arguments Ok {A} a.
Arguments Throw {A} e.

#[global] Instance Result_ret : MRet Result := @Ok.
#[global] Instance Result_bind : MBind Result := λ A B f r,
  match r with
  | Ok a => f a
  | Throw e => Throw e
  end.

(** [try { body } catch (err) { handler(err) }] for a handler that returns. *)
Definition try_catch {A : Type} (body : Result A) (handler : Error → A) : A :=
  match body with
  | Ok a => a
  | Throw e => handler e
  end.

(** One entry of an uploader's option list. *)
Module UploaderOption.
Record t : Type := { name : string; value : string }.
End UploaderOption.

Abbreviation UploaderOptions := (list UploaderOption.t).

(** The double quote, for the strings that hold one. *)
Definition dquote : string := String (Ascii.ascii_of_nat 34) "".

(** ** The templated HTTP uploader *)

Module CustomUploader.

(** [form-data]: the fields appended so far, each a read stream on a
    local path. *)
Record FormData : Type := { fields : list (option string * string) }.

Definition FormData_new : FormData := {| fields := [] |}.

Definition append (formData : FormData) (field : option string)
    (filePath : string) : FormData :=
  {| fields := fields formData ++ [(field, filePath)] |}.

Inductive HeaderValue : Type :=
| HText (s : string)
| HLength (n : Z).

(** The [data] of a request: the form, or a value passed as it is. *)
Inductive RequestData : Type :=
| DataForm (formData : FormData)
| DataValue (v : JS).

Record AxiosRequestConfig : Type := {
  url : option string;
  method : option string;
  headers : gmap string HeaderValue;
  params : JS;
  data : RequestData
}.

(** What [upload] returns: [{success: true, data: {url}}] or
    [{success: false, desc}]. *)
Inductive Response : Type :=
| Success (url : JS)
| Fail (desc : string).


Section Upload.

(** The property reads of the engine on what a value does not hold. *)
Variable builtin : JS → string → JS.

(** The libraries and the network the uploader calls. *)
Variable boundary : string.
Variable getLength : FormData → Result Z.
Variable JSON_parse : string → Result JS.
Variable axios : AxiosRequestConfig → Result JS.

(** The options the profile holds, set by [changeOptions]. *)
Variable options : UploaderOptions.

(** [getConfig]: the option list collapsed into an object, a later
    entry replacing an earlier one of the same name. *)
Definition getConfig : gmap string string :=
  foldl (λ pre cur, <[UploaderOption.name cur := UploaderOption.value cur]> pre)
        ∅ options.

(** [formData.getHeaders()]. *)
Definition getHeaders (formData : FormData) : gmap string HeaderValue :=
  {[ "content-type" := HText ("multipart/form-data; boundary=" +:+ boundary) ]}.

(** A configured string as a JavaScript value. *)
Definition of_config (o : option string) : JS :=
  match o with
  | Some s => JStr s
  | None => JUndefined
  end.

(** The form built for a file (lines 28-30). *)
Definition buildForm (filePath : string) : FormData :=
  append FormData_new (getConfig !! "fileFieldName") filePath.

(** Lines 28-49 of [upload]: the form, its length and the request. *)
Definition buildRequest (filePath : string) : Result AxiosRequestConfig :=
  let formData := buildForm filePath in
  let uploaderOptions := getConfig in
  length ← getLength formData;
  params ← (if truthy (of_config (uploaderOptions !! "requestParams"))
            then JSON_parse (default "" (uploaderOptions !! "requestParams"))
            else Ok (JObj []));
  mret {| url := uploaderOptions !! "url";
          method := uploaderOptions !! "method";
          headers := <["Content-Length" := HLength length]> (getHeaders formData);
          params := params;
          data := if decide (uploaderOptions !! "contentType" = Some "multipart/form-data")
                  then DataForm formData
                  else DataValue (of_config (uploaderOptions !! "requestBody")) |}.

(** The name the reply is read under; an option that is not set
    reads as the key [undefined]. *)
Definition responseUrlFieldName : string :=
  default "undefined" (getConfig !! "responseUrlFieldName").

(** Lines 51-65: the URL read from the reply to the request. *)
Definition readReply (res : JS) : Response :=
  let imageUrl :=
    optional_get builtin (optional_get builtin res "data") responseUrlFieldName in
  if truthy imageUrl then Success imageUrl else Fail "上传失败".

Definition upload (filePath fileName : string) : Response :=
  try_catch
    (requestOpetion ← buildRequest filePath;
     res ← axios requestOpetion;
     mret (readReply res))
    (λ err, Fail (message err)).

End Upload.

End CustomUploader.

(** ** The upload orchestrator *)

(** A stored profile: one backend and its options. *)
Module UploaderProfile.
Record t : Type := {
  id : string;
  uploaderName : string;
  uploaderOptions : UploaderOptions;
  isDefault : bool
}.
End UploaderProfile.

(** The record kept in the history for one uploaded file (lines 12-27). *)
Module UploadedFileInfo.
Record t : Type := {
  id : option string;
  name : option string;
  url : option string;
  type : string;
  uploaderProfileId : string;
  path : string;
  size : option Z;
  date : Z;
  errorMessage : option string
}.
End UploadedFileInfo.

(** The part of [setting.configuration] the orchestrator reads. *)
Module Configuration.
Record t : Type := {
  defaultUploaderProfileId : string;
  urlType : string;
  autoCopy : bool;
  autoRecover : bool;
  sound : bool;
  showNotifaction : bool
}.
End Configuration.

(** What a backend's [upload] resolves to. The declarations
    [SuccessResponse] and [FailResponse] of [aragorn-types] are taken with
    the fields the orchestrator's records can receive from them: [data]
    holds the [url] and the [size], a failure its [desc]. *)
Module Response.
Record SuccessData : Type := { url : option string; size : option Z }.
Inductive t : Type :=
| Success (data : SuccessData)
| Fail (desc : option string).
End Response.

(** The payload of a message on the UI transport. *)
Inductive Payload : Type :=
| NoPayload
| UploadedFiles (files : list UploadedFileInfo.t)
| Reply (v : JS).

(** What the orchestrator does to its collaborators, in order. *)
Inductive Event : Type :=
| NotificationShow (title body : string) (silent : bool)
| ClipboardReadText
| ClipboardWriteText (text : string)
| IpcSend (channel : string) (payload : Payload)
| HistoryAdd (uploadedData : list UploadedFileInfo.t)
| ChangeOptions (uploaderName : string) (newOptions : UploaderOptions)
| UploaderUpload (uploaderName file fileName : string)
                 (directoryPath : option string) (isFromFileManage : bool)
| SetTimeout (ms : Z) (callback : list Event).

(** The mutable state behind the singletons: the history store, the
    clipboard, the options last given to each backend of the registry, and
    how many identifiers and clock readings have been drawn. *)
Record State : Type := {
  history : list UploadedFileInfo.t;
  clipboard : string;
  backendOptions : gmap string UploaderOptions;
  uuids : nat;
  ticks : nat
}.

Definition set_history (h : list UploadedFileInfo.t) (st : State) : State :=
  {| history := h; clipboard := clipboard st; backendOptions := backendOptions st;
     uuids := uuids st; ticks := ticks st |}.

Definition set_clipboard (text : string) (st : State) : State :=
  {| history := history st; clipboard := text; backendOptions := backendOptions st;
     uuids := uuids st; ticks := ticks st |}.

Definition set_backendOptions (uploaderName : string) (newOptions : UploaderOptions)
    (st : State) : State :=
  {| history := history st; clipboard := clipboard st;
     backendOptions := <[uploaderName := newOptions]> (backendOptions st);
     uuids := uuids st; ticks := ticks st |}.

Definition next_uuid (st : State) : State :=
  {| history := history st; clipboard := clipboard st;
     backendOptions := backendOptions st; uuids := S (uuids st); ticks := ticks st |}.

Definition next_tick (st : State) : State :=
  {| history := history st; clipboard := clipboard st;
     backendOptions := backendOptions st; uuids := uuids st; ticks := S (ticks st) |}.

(** A computation on the state that logs events and may throw; what was
    done before a throw stays done. *)
Definition M (A : Type) : Type := State → Result A * State * list Event.

#[global] Instance M_ret : MRet M := λ A a st, (Ok a, st, []).
#[global] Instance M_bind : MBind M := λ A B f m st,
  match m st with
  | (Ok a, st', log) =>
      match f a st' with
      | (r, st'', log') => (r, st'', log ++ log')
      end
  | (Throw e, st', log) => (Throw e, st', log)
  end.

Definition throw {A : Type} (e : Error) : M A := λ st, (Throw e, st, []).
Definition emit (ev : Event) : M unit := λ st, (Ok tt, st, [ev]).
Definition get_state : M State := λ st, (Ok st, st, []).
Definition put_state (st : State) : M unit := λ _, (Ok tt, st, []).

(** [try { body } catch (err) { handler(err) }]. *)
Definition M_try {A : Type} (body : M A) (handler : Error → M A) : M A := λ st,
  match body st with
  | (Ok a, st', log) => (Ok a, st', log)
  | (Throw e, st', log) =>
      match handler e st' with
      | (r, st'', log') => (r, st'', log ++ log')
      end
  end.

(** [if (c) { m }]. *)
Definition when (c : bool) (m : M unit) : M unit := if c then m else mret tt.

(** The result, the final state and the trace of a run. *)
Definition result_of {A : Type} (run : Result A * State * list Event) : Result A := run.1.1.
Definition state_of {A : Type} (run : Result A * State * list Event) : State := run.1.2.
Definition trace_of {A : Type} (run : Result A * State * list Event) : list Event := run.2.

(** What a trace holds of each kind: the lists given to the history, the
    texts written to the clipboard, the notifications shown, the files
    given to the backend, and the messages on the UI transport. *)
Definition history_adds (log : list Event) : list (list UploadedFileInfo.t) :=
  omap (λ ev, match ev with HistoryAdd uploadedData => Some uploadedData | _ => None end) log.

Definition clipboard_writes (log : list Event) : list string :=
  omap (λ ev, match ev with ClipboardWriteText text => Some text | _ => None end) log.

Definition notifications (log : list Event) : list (string * string) :=
  omap (λ ev, match ev with
              | NotificationShow title body _ => Some (title, body)
              | _ => None
              end) log.

Definition uploads_called (log : list Event) : list string :=
  omap (λ ev, match ev with UploaderUpload _ file _ _ _ => Some file | _ => None end) log.

Definition messages (log : list Event) : list (string * Payload) :=
  omap (λ ev, match ev with
              | IpcSend channel payload => Some (channel, payload)
              | _ => None
              end) log.

(** A backend of the registry. Its operations read the options that
    [changeOptions] stored last; the three file-management ones are
    optional. *)
Module Uploader.
Record t : Type := {
  name : string;
  upload : UploaderOptions → string → string → option string → bool →
           Result Response.t;
  getFileList : option (UploaderOptions → option string → Result JS);
  deleteFile : option (UploaderOptions → list string → Result JS);
  createDirectory : option (UploaderOptions → string → Result JS)
}.
End Uploader.

(** An item of a re-upload: a file and the profile it was uploaded with
    (line 46). *)
Module ReuploadItem.
Record t : Type := { id : string; path : string }.
End ReuploadItem.

Module UploaderManager.

Section Manager.

(** The singletons and libraries the module is linked with. *)
Variable configuration : Configuration.t.
Variable uploaderProfiles : list UploaderProfile.t.
Variable getUploaderByName : string → option Uploader.t.
Variable history_add :
  list UploadedFileInfo.t → list UploadedFileInfo.t → list UploadedFileInfo.t.
Variable winIsDestroyed : bool.
Variable uuidv4 : nat → string.
Variable getTime : nat → Z.
Variable extname : string → string.
Variable mime_lookup : string → option string.
(** The message of the [TypeError] raised on reading a property of
    [undefined], by the name of the property. *)
Variable typeErrorMessage : string → string.

(** *** The collaborators as operations of [M] *)

Definition lift {A : Type} (r : Result A) : M A := λ st, (r, st, []).

Definition notification_show (title body : string) (silent : bool) : M unit :=
  emit (NotificationShow title body silent).

Definition clipboard_readText : M string := λ st,
  (Ok (clipboard st), st, [ClipboardReadText]).

Definition clipboard_writeText (text : string) : M unit := λ st,
  (Ok tt, set_clipboard text st, [ClipboardWriteText text]).

Definition ipc_send (channel : string) (payload : Payload) : M unit :=
  emit (IpcSend channel payload).

Definition uuid : M string := λ st, (Ok (uuidv4 (uuids st)), next_uuid st, []).

Definition now : M Z := λ st, (Ok (getTime (ticks st)), next_tick st, []).

Definition changeOptions (uploader : Uploader.t) (newOptions : UploaderOptions)
    : M unit := λ st,
  (Ok tt, set_backendOptions (Uploader.name uploader) newOptions st,
   [ChangeOptions (Uploader.name uploader) newOptions]).

Definition currentOptions (uploader : Uploader.t) : M UploaderOptions := λ st,
  (Ok (default [] (backendOptions st !! Uploader.name uploader)), st, []).

Definition history_store (uploadedData : list UploadedFileInfo.t)
    : M (list UploadedFileInfo.t) := λ st,
  let uploadedFiles := history_add uploadedData (history st) in
  (Ok uploadedFiles, set_history uploadedFiles st, [HistoryAdd uploadedData]).

(** *** The result presenter and the history (lines 178-252) *)

Definition handleBatchUploaded (successFilesCount failFilesCount : nat) : M unit :=
  if failFilesCount =? 0 then
    notification_show "批量上传成功" ("总共" +:+ pretty successFilesCount +:+ "个文件") false
  else if successFilesCount =? 0 then
    notification_show "批量上传失败" ("总共" +:+ pretty failFilesCount +:+ "个文件") false
  else
    notification_show "批量上传结束"
      ("成功" +:+ pretty successFilesCount +:+ "个，失败" +:+ pretty failFilesCount +:+ "个")
      false.

(** [`${url}`]: an absent URL prints as [undefined]. *)
Definition template (o : option string) : string := default "undefined" o.

(** [s || '']. *)
Definition or_empty (o : option string) : string := default "" o.

(** The link in the format [urlType] names; [None] on any other value
    (the [default] case of the [switch]). *)
Definition formatUrl (urlType : string) (url : option string)
    : option (option string) :=
  if String.eqb urlType "URL" then Some url
  else if String.eqb urlType "HTML" then
    Some (Some ("<img src=" +:+ dquote +:+ template url +:+ dquote +:+ " />"))
  else if String.eqb urlType "Markdown" then
    Some (Some ("![" +:+ template url +:+ "](" +:+ template url +:+ ")"))
  else None.

Definition handleSingleUploaded (successFile failFile : option UploadedFileInfo.t)
    : M (option string) :=
  match successFile with
  | Some successFile =>
      match formatUrl (Configuration.urlType configuration)
                      (UploadedFileInfo.url successFile) with
      | None => mret (UploadedFileInfo.url successFile)
      | Some clipboardUrl =>
          let silent := negb (Configuration.sound configuration) in
          (if Configuration.autoCopy configuration then
             preClipBoardText ←
               (if Configuration.autoRecover configuration
                then clipboard_readText else mret "");
             clipboard_writeText (or_empty clipboardUrl);;
             when (Configuration.showNotifaction configuration)
               (notification_show "上传成功" "链接已自动复制到粘贴板" silent);;
             when (Configuration.autoRecover configuration)
               (emit (SetTimeout 5000
                  [ClipboardWriteText preClipBoardText;
                   NotificationShow "粘贴板已恢复" "已自动恢复上次粘贴板中的内容" silent]))
           else
             when (Configuration.showNotifaction configuration)
               (notification_show "上传成功" (or_empty clipboardUrl) silent));;
          mret None
      end
  | None =>
      match failFile with
      | None => throw {| message := typeErrorMessage "errorMessage" |}
      | Some failFile =>
          notification_show "上传失败"
            (match UploadedFileInfo.errorMessage failFile with
             | Some m => if String.eqb m "" then "错误未捕获" else m
             | None => "错误未捕获"
             end) false;;
          mret None
      end
  end.

Definition handleAddHistory (uploadedData : list UploadedFileInfo.t) : M unit :=
  uploadedFiles ← history_store uploadedData;
  when (negb winIsDestroyed)
    (ipc_send "uploaded-files-get-reply" (UploadedFiles uploadedFiles)).

(** *** [upload] (lines 60-133) *)

(** [mime.lookup(file) || '-']. *)
Definition fileTypeOf (file : string) : string :=
  match mime_lookup file with
  | Some t => if String.eqb t "" then "-" else t
  | None => "-"
  end.

(** Lines 97-108, up to the [await]: the record of the file is
    prepared and the backend is called; what the call settles to is
    kept with the record. *)
Definition start (uploader : Uploader.t) (uploaderProfile : UploaderProfile.t)
    (directoryPath : option string) (isFromFileManage : bool) (file : string)
    : M (UploadedFileInfo.t * Result Response.t) :=
  let fileExtName := extname file in
  u ← uuid;
  let fileName := u +:+ fileExtName in
  let fileType := fileTypeOf file in
  i ← uuid;
  d ← now;
  let baseInfo :=
    {| UploadedFileInfo.id := Some i;
       UploadedFileInfo.name := Some fileName;
       UploadedFileInfo.url := None;
       UploadedFileInfo.type := fileType;
       UploadedFileInfo.uploaderProfileId := UploaderProfile.id uploaderProfile;
       UploadedFileInfo.path := file;
       UploadedFileInfo.size := None;
       UploadedFileInfo.date := d;
       UploadedFileInfo.errorMessage := None |} in
  opts ← currentOptions uploader;
  emit (UploaderUpload (Uploader.name uploader) file fileName
          directoryPath isFromFileManage);;
  mret (baseInfo,
        Uploader.upload uploader opts file fileName directoryPath isFromFileManage).

(** [files.map(async file => ...)]: every file is started, in order. *)
Fixpoint for_each {A B : Type} (f : A → M B) (l : list A) : M (list B) :=
  match l with
  | [] => mret []
  | a :: l => b ← f a; bs ← for_each f l; mret (b :: bs)
  end.

(** [{ ...baseInfo, ...res.data }], for the two fields [data] has in
    the model. A field of another name in the data of a backend, which
    the spread copies into the record as well, is outside the model. *)
Definition withData (baseInfo : UploadedFileInfo.t) (data : Response.SuccessData)
    : UploadedFileInfo.t :=
  {| UploadedFileInfo.id := UploadedFileInfo.id baseInfo;
     UploadedFileInfo.name := UploadedFileInfo.name baseInfo;
     UploadedFileInfo.url := Response.url data;
     UploadedFileInfo.type := UploadedFileInfo.type baseInfo;
     UploadedFileInfo.uploaderProfileId := UploadedFileInfo.uploaderProfileId baseInfo;
     UploadedFileInfo.path := UploadedFileInfo.path baseInfo;
     UploadedFileInfo.size := Response.size data;
     UploadedFileInfo.date := UploadedFileInfo.date baseInfo;
     UploadedFileInfo.errorMessage := UploadedFileInfo.errorMessage baseInfo |}.

(** [{ ...baseInfo, errorMessage: res.desc }]. *)
Definition withError (baseInfo : UploadedFileInfo.t) (desc : option string)
    : UploadedFileInfo.t :=
  {| UploadedFileInfo.id := UploadedFileInfo.id baseInfo;
     UploadedFileInfo.name := UploadedFileInfo.name baseInfo;
     UploadedFileInfo.url := UploadedFileInfo.url baseInfo;
     UploadedFileInfo.type := UploadedFileInfo.type baseInfo;
     UploadedFileInfo.uploaderProfileId := UploadedFileInfo.uploaderProfileId baseInfo;
     UploadedFileInfo.path := UploadedFileInfo.path baseInfo;
     UploadedFileInfo.size := UploadedFileInfo.size baseInfo;
     UploadedFileInfo.date := UploadedFileInfo.date baseInfo;
     UploadedFileInfo.errorMessage := desc |}.

(** Lines 108-116, from the [await] on. The started uploads settle in
    the order [settleOrder] (indices into the batch); one that returns
    pushes its record on [successRes] or [failRes], and the first one
    that throws rejects [Promise.all]. The orders of a run in which
    every upload settles are the permutations of the indices of the
    batch; an upload that never settles, which leaves [Promise.all]
    pending, is outside the model. *)
Fixpoint settle (settleOrder : list nat)
    (started : list (UploadedFileInfo.t * Result Response.t))
    (successRes failRes : list UploadedFileInfo.t)
    : Result (list UploadedFileInfo.t * list UploadedFileInfo.t) :=
  match settleOrder with
  | [] => Ok (successRes, failRes)
  | i :: rest =>
      match started !! i with
      | Some (baseInfo, Ok (Response.Success data)) =>
          settle rest started (successRes ++ [withData baseInfo data]) failRes
      | Some (baseInfo, Ok (Response.Fail desc)) =>
          settle rest started successRes (failRes ++ [withError baseInfo desc])
      | Some (_, Throw err) => Throw err
      | None => settle rest started successRes failRes
      end
  end.

(** Lines 124-128: the batch summary for more than one file, the
    single-file presentation otherwise. *)
Definition presentResult (files : list string)
    (successRes failRes : list UploadedFileInfo.t) : M unit :=
  if 1 <? length files then
    handleBatchUploaded (length successRes) (length failRes)
  else
    _ ← handleSingleUploaded (successRes !! 0) (failRes !! 0); mret tt.

(** Lines 93-128: the batch on a resolved backend. *)
Definition runBatch (settleOrder : list nat) (uploader : Uploader.t)
    (uploaderProfile : UploaderProfile.t) (files : list string)
    (directoryPath : option string) (isFromFileManage : bool) : M unit :=
  started ← for_each (start uploader uploaderProfile directoryPath isFromFileManage) files;
  res ← lift (settle settleOrder started [] []);
  let successRes := res.1 in
  let failRes := res.2 in
  handleAddHistory (failRes ++ successRes);;
  when isFromFileManage (ipc_send "file-upload-reply" NoPayload);;
  presentResult files successRes failRes.

(** [customUploaderProfileId || defaultUploaderProfileId]. *)
Definition wantedProfileId (customUploaderProfileId : string) : string :=
  if String.eqb customUploaderProfileId ""
  then Configuration.defaultUploaderProfileId configuration
  else customUploaderProfileId.

Definition findProfile (id : string) : option UploaderProfile.t :=
  find (λ uploaderProfile, String.eqb (UploaderProfile.id uploaderProfile) id)
       uploaderProfiles.

(** The body of the notification shown when no profile is found
    (lines 71-77). *)
Definition missingProfileMessage (customUploaderProfileId : string) : string :=
  if negb (String.eqb customUploaderProfileId "") then "上传器配置不存在"
  else if 0 <? length uploaderProfiles then "请配置默认的上传器"
  else "请添加上传器配置".

(** [upload]; it returns [false] (here [JBool false]) when the profile
    or the backend is not found and [undefined] otherwise. The order
    in which the uploads of the batch settle is the argument
    [settleOrder]. *)
Definition upload (settleOrder : list nat) (files : list string)
    (customUploaderProfileId : string) (directoryPath : option string)
    (isFromFileManage : bool) : M JS :=
  M_try
    (match findProfile (wantedProfileId customUploaderProfileId) with
     | None =>
         notification_show "上传操作异常"
           (missingProfileMessage customUploaderProfileId) false;;
         mret (JBool false)
     | Some uploaderProfile =>
         match getUploaderByName (UploaderProfile.uploaderName uploaderProfile) with
         | None =>
             notification_show "上传操作异常"
               ("没有找到" +:+ UploaderProfile.uploaderName uploaderProfile +:+ "上传器")
               false;;
             mret (JBool false)
         | Some uploader =>
             changeOptions uploader (UploaderProfile.uploaderOptions uploaderProfile);;
             runBatch settleOrder uploader uploaderProfile files
                      directoryPath isFromFileManage;;
             mret JUndefined
         end
     end)
    (λ err,
       notification_show "上传操作异常" (message err) false;;
       mret JUndefined).

(** *** File management (lines 135-176) *)

Definition getUploader (id : string) : M (option Uploader.t) :=
  match findProfile id with
  | None => mret None
  | Some uploaderProfile =>
      match getUploaderByName (UploaderProfile.uploaderName uploaderProfile) with
      | Some uploader =>
          changeOptions uploader (UploaderProfile.uploaderOptions uploaderProfile);;
          mret (Some uploader)
      | None => mret None
      end
  end.

Definition getFileList (uploaderProfileId : string) (directoryPath : option string)
    : M unit :=
  uploader ← getUploader uploaderProfileId;
  match uploader with
  | Some uploader =>
      match Uploader.getFileList uploader with
      | Some operation =>
          opts ← currentOptions uploader;
          data ← lift (operation opts directoryPath);
          ipc_send "file-list-get-reply" (Reply data)
      | None => ipc_send "file-list-get-reply" (Reply (JArr []))
      end
  | None => ipc_send "file-list-get-reply" (Reply (JArr []))
  end.

Definition deleteFile (uploaderProfileId : string) (fileNames : list string)
    : M unit :=
  uploader ← getUploader uploaderProfileId;
  match uploader with
  | Some uploader =>
      match Uploader.deleteFile uploader with
      | Some operation =>
          opts ← currentOptions uploader;
          res ← lift (operation opts fileNames);
          ipc_send "file-delete-reply" (Reply res)
      | None => ipc_send "file-delete-reply" (Reply (JBool false))
      end
  | None => ipc_send "file-delete-reply" (Reply (JBool false))
  end.

Definition createDirectory (uploaderProfileId directoryPath : string) : M unit :=
  uploader ← getUploader uploaderProfileId;
  match uploader with
  | Some uploader =>
      match Uploader.createDirectory uploader with
      | Some operation =>
          opts ← currentOptions uploader;
          data ← lift (operation opts directoryPath);
          ipc_send "directory-create-reply" (Reply data)
      | None => ipc_send "directory-create-reply" (Reply (JBool false))
      end
  | None => ipc_send "directory-create-reply" (Reply (JBool false))
  end.

(** *** Notions used to state the properties *)

(** The options a backend reads in a state. *)
Definition optionsIn (st : State) (uploader : Uploader.t) : UploaderOptions :=
  default [] (backendOptions st !! Uploader.name uploader).

(** What [start] leaves for a file: its record, still without URL and
    error, and the backend's answer to the call. *)
Definition startedFor (uploader : Uploader.t) (opts : UploaderOptions)
    (directoryPath : option string) (isFromFileManage : bool)
    (file : string) (s : UploadedFileInfo.t * Result Response.t) : Prop :=
  UploadedFileInfo.path s.1 = file ∧
  ∃ fileName,
    s.2 = Uploader.upload uploader opts file fileName directoryPath isFromFileManage.

(** A record pushed on [successRes], resp. [failRes], by a started upload. *)
Definition succeeded (started : list (UploadedFileInfo.t * Result Response.t))
    (r : UploadedFileInfo.t) : Prop :=
  ∃ s data, s ∈ started ∧ s.2 = Ok (Response.Success data) ∧ r = withData s.1 data.

Definition failed (started : list (UploadedFileInfo.t * Result Response.t))
    (r : UploadedFileInfo.t) : Prop :=
  ∃ s desc, s ∈ started ∧ s.2 = Ok (Response.Fail desc) ∧ r = withError s.1 desc.

(** The notification of the [catch] of [upload], when there is one. *)
Definition caught {A : Type} (r : Result A) : list Event :=
  match r with
  | Ok _ => []
  | Throw err => [NotificationShow "上传操作异常" (message err) false]
  end.

(** What [handleAddHistory] logs. *)
Definition historyEvents (uploadedData store : list UploadedFileInfo.t) : list Event :=
  HistoryAdd uploadedData ::
  (if winIsDestroyed then []
   else [IpcSend "uploaded-files-get-reply"
           (UploadedFiles (history_add uploadedData store))]).

Definition managedEvents (isFromFileManage : bool) : list Event :=
  if isFromFileManage then [IpcSend "file-upload-reply" NoPayload] else [].

(** A record of [successRes], resp. [failRes], in terms of the backend:
    the upload of its file returned a success, whose URL it carries,
    resp. a failure, whose description it carries. *)
Definition succeededOn (uploader : Uploader.t) (opts : UploaderOptions)
    (directoryPath : option string) (isFromFileManage : bool)
    (r : UploadedFileInfo.t) : Prop :=
  ∃ fileName data,
    Uploader.upload uploader opts (UploadedFileInfo.path r) fileName
      directoryPath isFromFileManage = Ok (Response.Success data) ∧
    UploadedFileInfo.url r = Response.url data.

Definition failedOn (uploader : Uploader.t) (opts : UploaderOptions)
    (directoryPath : option string) (isFromFileManage : bool)
    (r : UploadedFileInfo.t) : Prop :=
  ∃ fileName desc,
    Uploader.upload uploader opts (UploadedFileInfo.path r) fileName
      directoryPath isFromFileManage = Ok (Response.Fail desc) ∧
    UploadedFileInfo.errorMessage r = desc.

(** A profile id that matches no stored profile, or one whose profile
    names a backend the registry does not know. *)
Definition unresolved (id : string) : Prop :=
  findProfile id = None ∨
  ∃ uploaderProfile,
    findProfile id = Some uploaderProfile ∧
    getUploaderByName (UploaderProfile.uploaderName uploaderProfile) = None.

(** *** [upload] in two steps *)

(** An [upload] that is under way: it has returned, or it waits for the
    uploads it started. *)
Inductive Pending : Type :=
| Returned (v : JS)
| Awaiting (files : list string) (isFromFileManage : bool)
           (started : list (UploadedFileInfo.t * Result Response.t)).

(** Lines 61-114: what [upload] does before it first waits. *)
Definition launch (files : list string) (customUploaderProfileId : string)
    (directoryPath : option string) (isFromFileManage : bool) : M Pending :=
  match findProfile (wantedProfileId customUploaderProfileId) with
  | None =>
      notification_show "上传操作异常"
        (missingProfileMessage customUploaderProfileId) false;;
      mret (Returned (JBool false))
  | Some uploaderProfile =>
      match getUploaderByName (UploaderProfile.uploaderName uploaderProfile) with
      | None =>
          notification_show "上传操作异常"
            ("没有找到" +:+ UploaderProfile.uploaderName uploaderProfile +:+ "上传器")
            false;;
          mret (Returned (JBool false))
      | Some uploader =>
          changeOptions uploader (UploaderProfile.uploaderOptions uploaderProfile);;
          started ← for_each (start uploader uploaderProfile directoryPath
                                isFromFileManage) files;
          mret (Awaiting files isFromFileManage started)
      end
  end.

(** The notification, title and body, of a call of [upload] whose
    profile or backend is not found (lines 70-89). *)
Definition resolutionFailure (customUploaderProfileId : string)
    : option (string * string) :=
  match findProfile (wantedProfileId customUploaderProfileId) with
  | None => Some ("上传操作异常", missingProfileMessage customUploaderProfileId)
  | Some uploaderProfile =>
      match getUploaderByName (UploaderProfile.uploaderName uploaderProfile) with
      | None =>
          Some ("上传操作异常",
                "没有找到" +:+ UploaderProfile.uploaderName uploaderProfile +:+ "上传器")
      | Some _ => None
      end
  end.

(** Lines 116-132: what [upload] does once its uploads have settled. *)
Definition resume (settleOrder : list nat) (pending : Pending) : M JS :=
  match pending with
  | Returned v => mret v
  | Awaiting files isFromFileManage started =>
      M_try
        (res ← lift (settle settleOrder started [] []);
         handleAddHistory (res.2 ++ res.1);;
         when isFromFileManage (ipc_send "file-upload-reply" NoPayload);;
         presentResult files res.1 res.2;;
         mret JUndefined)
        (λ err,
           notification_show "上传操作异常" (message err) false;;
           mret JUndefined)
  end.

(** *** [uploadByDifferentUploaderProfileIds] (lines 46-58) *)

(** [new Set(...)], spread: the distinct values, each at the place of its
    first occurrence. *)
Definition Set_add (seen : list string) (x : string) : list string :=
  if bool_decide (x ∈ seen) then seen else seen ++ [x].

Definition Set_spread (xs : list string) : list string := foldl Set_add [] xs.

(** Lines 47-54: one entry per profile id, with the paths of its items. *)
Definition newData (data : list ReuploadItem.t) : list (string * list string) :=
  (λ id, (id, ReuploadItem.path <$>
                filter (λ item, ReuploadItem.id item = id) data))
  <$> Set_spread (ReuploadItem.id <$> data).

(** Lines 55-57. No call of [upload] is awaited: each one runs up to its
    first wait, in the order of the entries, and they are resumed later,
    in the order [resumeOrder] (indices of entries); the uploads of entry
    [i] settle in the order [settleOrders i]. *)
Definition uploadByDifferentUploaderProfileIds (settleOrders : nat → list nat)
    (resumeOrder : list nat) (data : list ReuploadItem.t) : M unit :=
  pendings ← for_each (λ item, launch item.2 item.1 None false) (newData data);
  _ ← for_each (λ i, match pendings !! i with
                     | Some pending => resume (settleOrders i) pending
                     | None => mret JUndefined
                     end) resumeOrder;
  mret tt.

(** The list that resuming a pending [upload] gives the history, if any. *)
Definition settled (settleOrder : list nat) (pending : Pending)
    : option (list UploadedFileInfo.t) :=
  match pending with
  | Returned _ => None
  | Awaiting _ _ started =>
      match settle settleOrder started [] [] with
      | Ok res => Some (res.2 ++ res.1)
      | Throw _ => None
      end
  end.

(** What the entries of a re-upload become when each of them finds its
    profile and backend and no backend throws: uploads under way, which
    settle to one record per file of the entry. *)
Definition launchedFor (entry : string * list string) (pending : Pending) : Prop :=
  ∃ started,
    pending = Awaiting entry.2 false started ∧
    ∀ order, order ≡ₚ seq 0 (length entry.2) →
      ∃ records, settled order pending = Some records ∧
                 UploadedFileInfo.path <$> records ≡ₚ entry.2.

(** *** The timer of [handleSingleUploaded] (lines 224-232) *)

(** The callback given to [setTimeout], run when the timer fires. *)
Fixpoint fire (callback : list Event) : M unit :=
  match callback with
  | [] => mret tt
  | ClipboardWriteText text :: rest => clipboard_writeText text;; fire rest
  | ev :: rest => emit ev;; fire rest
  end.

(** The callbacks a trace has scheduled, with their delays. *)
Definition timers (log : list Event) : list (Z * list Event) :=
  omap (λ ev, match ev with SetTimeout ms callback => Some (ms, callback) | _ => None end)
       log.

(** *** More notions used to state the properties *)

(** The record a started upload pushes on [successRes], resp. [failRes],
    when it settles. *)
Definition successRecord (s : UploadedFileInfo.t * Result Response.t)
    : option UploadedFileInfo.t :=
  match s.2 with
  | Ok (Response.Success data) => Some (withData s.1 data)
  | _ => None
  end.

Definition failRecord (s : UploadedFileInfo.t * Result Response.t)
    : option UploadedFileInfo.t :=
  match s.2 with
  | Ok (Response.Fail desc) => Some (withError s.1 desc)
  | _ => None
  end.

(** The URL and the size the backend returned for a started upload, when
    it succeeded. *)
Definition successData (s : UploadedFileInfo.t * Result Response.t)
    : option (option string * option Z) :=
  match s.2 with
  | Ok (Response.Success data) => Some (Response.url data, Response.size data)
  | _ => None
  end.

(** The name under which the file of index [i] of a batch is stored, and
    its record before the upload, when [u0] identifiers and [t0] clock
    readings were drawn before the batch. *)
Definition fileNameAt (u0 i : nat) (file : string) : string :=
  uuidv4 (2 * i + u0) +:+ extname file.

Definition baseInfoAt (uploaderProfile : UploaderProfile.t) (u0 t0 i : nat)
    (file : string) : UploadedFileInfo.t :=
  {| UploadedFileInfo.id := Some (uuidv4 (S (2 * i + u0)));
     UploadedFileInfo.name := Some (fileNameAt u0 i file);
     UploadedFileInfo.url := None;
     UploadedFileInfo.type := fileTypeOf file;
     UploadedFileInfo.uploaderProfileId := UploaderProfile.id uploaderProfile;
     UploadedFileInfo.path := file;
     UploadedFileInfo.size := None;
     UploadedFileInfo.date := getTime (i + t0);
     UploadedFileInfo.errorMessage := None |}.

End Manager.

End UploaderManager.

(** ** The templated HTTP uploader as a backend of the registry *)

Module CustomBackend.

Section Backend.

Variable builtin : JS → string → JS.
Variable boundary : string.
Variable getLength : CustomUploader.FormData → Result Z.
Variable JSON_parse : string → Result JS.
Variable axios : CustomUploader.AxiosRequestConfig → Result JS.
(** How the [url] of a record holds the value read from the reply (a
    string is held as it is). *)
Variable asUrl : JS → option string.

Definition response (r : CustomUploader.Response) : Response.t :=
  match r with
  | CustomUploader.Success imageUrl =>
      Response.Success {| Response.url := asUrl imageUrl; Response.size := None |}
  | CustomUploader.Fail desc => Response.Fail (Some desc)
  end.

(** The class [CustomUploader] as the registry holds it: its [upload]
    takes the path and the name only, and it has none of the
    file-management operations. *)
Definition uploader : Uploader.t :=
  {| Uploader.name := "自定义";
     Uploader.upload := λ options filePath fileName _ _,
       Ok (response (CustomUploader.upload builtin boundary getLength JSON_parse axios
                       options filePath fileName));
     Uploader.getFileList := None;
     Uploader.deleteFile := None;
     Uploader.createDirectory := None |}.

End Backend.

End CustomBackend.

(** ** Concrete instances, used to run the definitions *)

Module Fixtures.

Definition emptyState : State :=
  {| history := []; clipboard := "old"; backendOptions := ∅; uuids := 0; ticks := 0 |}.

Definition settings (urlType : string) (autoCopy : bool) : Configuration.t :=
  {| Configuration.defaultUploaderProfileId := "p1";
     Configuration.urlType := urlType;
     Configuration.autoCopy := autoCopy;
     Configuration.autoRecover := false;
     Configuration.sound := true;
     Configuration.showNotifaction := true |}.

Definition profile1 : UploaderProfile.t :=
  {| UploaderProfile.id := "p1";
     UploaderProfile.uploaderName := "demo";
     UploaderProfile.uploaderOptions := [];
     UploaderProfile.isDefault := true |}.

Definition profile2 : UploaderProfile.t :=
  {| UploaderProfile.id := "p2";
     UploaderProfile.uploaderName := "gone";
     UploaderProfile.uploaderOptions := [];
     UploaderProfile.isDefault := false |}.

(** A backend without file management: it stores every file but
    [bad.png], on which its [upload] throws, and [no.png], which it
    refuses. *)
Definition demo : Uploader.t :=
  {| Uploader.name := "demo";
     Uploader.upload := λ _ file fileName _ _,
       if String.eqb file "bad.png" then Throw {| message := "ECONNRESET" |}
       else if String.eqb file "no.png" then Ok (Response.Fail (Some "refused"))
       else Ok (Response.Success
                  {| Response.url := Some ("https://x/" +:+ file);
                     Response.size := None |});
     Uploader.getFileList := None;
     Uploader.deleteFile := None;
     Uploader.createDirectory := None |}.

Definition registry (uploaderName : string) : option Uploader.t :=
  if String.eqb uploaderName "demo" then Some demo else None.

Definition history_add (uploadedData store : list UploadedFileInfo.t)
    : list UploadedFileInfo.t := uploadedData ++ store.

Definition uuidv4 (n : nat) : string := "id" +:+ pretty n.
Definition getTime (n : nat) : Z := 1000 + Z.of_nat n.
Definition extname (file : string) : string := ".png".
Definition mime_lookup (file : string) : option string := Some "image/png".
Definition typeErrorMessage (property : string) : string :=
  "Cannot read property '" +:+ property +:+ "' of undefined".

(** [upload] linked with the instances above. *)
Definition upload (urlType : string) (autoCopy : bool)
    (uploaderProfiles : list UploaderProfile.t) :=
  UploaderManager.upload (settings urlType autoCopy) uploaderProfiles registry
    history_add false uuidv4 getTime extname mime_lookup typeErrorMessage.

(** The custom uploader's environment. The engine's property reads on
    what a value does not hold, for the values of the replies below: the
    length of a string (the strings here are ASCII) and of an array, and
    the method [link] that every string inherits. *)
Definition builtin (v : JS) (key : string) : JS :=
  match v with
  | JStr s =>
      if String.eqb key "length" then JNum (Z.of_nat (String.length s))
      else if String.eqb key "link" then JNative "String.prototype.link"
      else JUndefined
  | JArr items =>
      if String.eqb key "length" then JNum (Z.of_nat (length items))
      else JUndefined
  | _ => JUndefined
  end.

Definition getLength (formData : CustomUploader.FormData) : Result Z := Ok 2048%Z.

Definition JSON_parse (text : string) : Result JS :=
  if String.eqb text "[1]" then Ok (JArr [JNum 1])
  else if String.eqb text "{}" then Ok (JObj [])
  else Throw {| message := "Unexpected token" |}.

Definition customOptions (contentType : string) : UploaderOptions :=
  [ {| UploaderOption.name := "url"; UploaderOption.value := "https://host/api" |};
    {| UploaderOption.name := "method"; UploaderOption.value := "POST" |};
    {| UploaderOption.name := "contentType"; UploaderOption.value := contentType |};
    {| UploaderOption.name := "fileFieldName"; UploaderOption.value := "file" |};
    {| UploaderOption.name := "responseUrlFieldName"; UploaderOption.value := "url" |};
    {| UploaderOption.name := "requestBody"; UploaderOption.value := "[1]" |} ].


(** A server that answers every request with the same document. *)
Definition answers (res : JS) (request : CustomUploader.AxiosRequestConfig)
    : Result JS := Ok res.

Definition refuses (request : CustomUploader.AxiosRequestConfig) : Result JS :=
  Throw {| message := "connect ETIMEDOUT" |}.

End Fixtures.


(** ** More concrete instances *)

Module MoreFixtures.

(** Preferences with [autoCopy] and [autoRecover], and no notification. *)
Definition recovering : Configuration.t :=
  {| Configuration.defaultUploaderProfileId := "p1";
     Configuration.urlType := "Markdown";
     Configuration.autoCopy := true;
     Configuration.autoRecover := true;
     Configuration.sound := false;
     Configuration.showNotifaction := false |}.

(** The record of a file, with the URL of a success or the message of a
    failure. *)
Definition record (url errorMessage : option string) : UploadedFileInfo.t :=
  {| UploadedFileInfo.id := Some "id1";
     UploadedFileInfo.name := Some "id0.png";
     UploadedFileInfo.url := url;
     UploadedFileInfo.type := "image/png";
     UploadedFileInfo.uploaderProfileId := "p1";
     UploadedFileInfo.path := "a.png";
     UploadedFileInfo.size := None;
     UploadedFileInfo.date := 1000;
     UploadedFileInfo.errorMessage := errorMessage |}.

(** A backend with file management, and one whose file management
    throws. *)
Definition store : Uploader.t :=
  {| Uploader.name := "store";
     Uploader.upload := λ _ file _ _ _,
       Ok (Response.Success {| Response.url := Some ("https://s/" +:+ file);
                               Response.size := Some 10%Z |});
     Uploader.getFileList := Some (λ _ _, Ok (JArr [JStr "a.png"]));
     Uploader.deleteFile := Some (λ _ _, Ok (JBool true));
     Uploader.createDirectory := Some (λ _ _, Ok (JBool true)) |}.

Definition broken : Uploader.t :=
  {| Uploader.name := "broken";
     Uploader.upload := λ _ _ _ _ _, Throw {| message := "EPIPE" |};
     Uploader.getFileList := Some (λ _ _, Throw {| message := "EACCES" |});
     Uploader.deleteFile := Some (λ _ _, Throw {| message := "EACCES" |});
     Uploader.createDirectory := Some (λ _ _, Throw {| message := "EACCES" |}) |}.

Definition asUrl (v : JS) : option string :=
  match v with
  | JStr s => Some s
  | _ => None
  end.

(** The templated HTTP uploader in front of a server that cannot be
    reached. *)
Definition custom : Uploader.t :=
  CustomBackend.uploader Fixtures.builtin "B" Fixtures.getLength Fixtures.JSON_parse Fixtures.refuses
    asUrl.

Definition registry (uploaderName : string) : option Uploader.t :=
  if String.eqb uploaderName "demo" then Some Fixtures.demo
  else if String.eqb uploaderName "store" then Some store
  else if String.eqb uploaderName "broken" then Some broken
  else if String.eqb uploaderName "自定义" then Some custom
  else None.

Definition profile3 : UploaderProfile.t :=
  {| UploaderProfile.id := "p3";
     UploaderProfile.uploaderName := "store";
     UploaderProfile.uploaderOptions :=
       [ {| UploaderOption.name := "bucket"; UploaderOption.value := "b" |} ];
     UploaderProfile.isDefault := false |}.

Definition profile4 : UploaderProfile.t :=
  {| UploaderProfile.id := "p4";
     UploaderProfile.uploaderName := "broken";
     UploaderProfile.uploaderOptions := [];
     UploaderProfile.isDefault := false |}.

Definition profile5 : UploaderProfile.t :=
  {| UploaderProfile.id := "p5";
     UploaderProfile.uploaderName := "自定义";
     UploaderProfile.uploaderOptions := Fixtures.customOptions "multipart/form-data";
     UploaderProfile.isDefault := false |}.

Definition profiles : list UploaderProfile.t :=
  [Fixtures.profile1; Fixtures.profile2; profile3; profile4; profile5].

(** [upload] linked with these instances. *)
Definition upload (configuration : Configuration.t) :=
  UploaderManager.upload configuration profiles registry
    Fixtures.history_add false Fixtures.uuidv4 Fixtures.getTime Fixtures.extname
    Fixtures.mime_lookup Fixtures.typeErrorMessage.

(** The items of a re-upload, with two profiles, and the orders in which
    its uploads settle and its calls resume. *)
Definition items : list ReuploadItem.t :=
  [ {| ReuploadItem.id := "p1"; ReuploadItem.path := "a.png" |};
    {| ReuploadItem.id := "p3"; ReuploadItem.path := "b.png" |};
    {| ReuploadItem.id := "p1"; ReuploadItem.path := "no.png" |} ].

Definition settleOrders (entry : nat) : list nat :=
  match entry with
  | 0 => [1; 0]
  | _ => [0]
  end.

Definition reupload :=
  UploaderManager.uploadByDifferentUploaderProfileIds (Fixtures.settings "URL" false)
    profiles registry Fixtures.history_add false Fixtures.uuidv4 Fixtures.getTime
    Fixtures.extname Fixtures.mime_lookup Fixtures.typeErrorMessage.

(** Options of the templated HTTP uploader with a query template that
    does not parse. *)
Definition badParams : UploaderOptions :=
  Fixtures.customOptions "multipart/form-data" ++
  [ {| UploaderOption.name := "requestParams"; UploaderOption.value := "{bad" |} ].

End MoreFixtures.

(** * Properties *)

(** ** The templated HTTP uploader *)

Section CustomUploaderFacts.

Context (builtin : JS → string → JS)
        (boundary : string)
        (getLength : CustomUploader.FormData → Result Z)
        (JSON_parse : string → Result JS)
        (axios : CustomUploader.AxiosRequestConfig → Result JS)
        (options : UploaderOptions).

Import CustomUploader.

Local Abbreviation getConfig := (CustomUploader.getConfig options).
Local Abbreviation buildForm := (CustomUploader.buildForm options).
Local Abbreviation buildRequest :=
  (CustomUploader.buildRequest boundary getLength JSON_parse options).
Local Abbreviation readReply := (CustomUploader.readReply builtin options).
Local Abbreviation responseUrlFieldName := (CustomUploader.responseUrlFieldName options).
Local Abbreviation upload :=
  (CustomUploader.upload builtin boundary getLength JSON_parse axios options).




(** A request that cannot be built is a failure with the message. *)
Lemma upload_not_built (filePath fileName : string) (err : Error) :
  buildRequest filePath = Throw err →
  upload filePath fileName = Fail (message err).
Proof. intros Hreq. unfold CustomUploader.upload. by rewrite Hreq. Qed.

(** Once the request is built, [upload] is the reply to it. *)
Lemma upload_built (filePath fileName : string) (req : AxiosRequestConfig) :
  buildRequest filePath = Ok req →
  upload filePath fileName
  = match axios req with
    | Ok res => readReply res
    | Throw err => Fail (message err)
    end.
Proof.
  intros Hreq. unfold CustomUploader.upload. rewrite Hreq. simpl.
  by destruct (axios req).
Qed.

(** The steps of [buildRequest], inverted. *)
Lemma buildRequest_Ok (filePath : string) (req : AxiosRequestConfig) :
  buildRequest filePath = Ok req →
  ∃ length params,
    getLength (buildForm filePath) = Ok length ∧
    req = {| url := getConfig !! "url";
             method := getConfig !! "method";
             headers := <["Content-Length" := HLength length]>
                          (getHeaders boundary (buildForm filePath));
             params := params;
             data := if decide (getConfig !! "contentType" = Some "multipart/form-data")
                     then DataForm (buildForm filePath)
                     else DataValue (of_config (getConfig !! "requestBody")) |}.
Proof.
  unfold CustomUploader.buildRequest. intros Hreq.
  destruct (getLength (buildForm filePath)) as [length|err] eqn:Hlen;
    simpl in Hreq; [|done].
  destruct (if truthy _ then _ else _) as [params|err] eqn:Hpar;
    simpl in Hreq; [|done].
  exists length, params. split; [done|]. by inversion Hreq.
Qed.


(** C6, as amended. In a request that [upload] builds, when the
    configured content type is [multipart/form-data] the body is the
    form that holds the file, alone, under the configured field name,
    and the [Content-Length] header is the length computed for that form
    before the request is sent; for any other content type the body is
    the configured request-body template itself, the string as it is
    stored, not parsed ([undefined] when none is configured). *)
Theorem custom_request_body (filePath : string) (req : AxiosRequestConfig) :
  buildRequest filePath = Ok req →
  (getConfig !! "contentType" = Some "multipart/form-data" →
     data req = DataForm (buildForm filePath) ∧
     fields (buildForm filePath) = [(getConfig !! "fileFieldName", filePath)] ∧
     ∃ length, getLength (buildForm filePath) = Ok length ∧
               headers req !! "Content-Length" = Some (HLength length)) ∧
  (getConfig !! "contentType" ≠ Some "multipart/form-data" →
     data req = match getConfig !! "requestBody" with
                | Some template => DataValue (JStr template)
                | None => DataValue JUndefined
                end).
Proof.
  intros Hreq. destruct (buildRequest_Ok _ _ Hreq) as (length & params & Hlen & ->).
  simpl. split.
  - intros Hct. rewrite decide_True by done. split; [done|]. split; [done|].
    exists length. split; [done|]. apply lookup_insert_eq.
  - intros Hct. rewrite decide_False by done.
    by destruct (getConfig !! "requestBody").
Qed.

(** C9. Whatever the configured content type, a request that [upload]
    builds is made with a form to which the file was appended under the
    configured field name, carries the multipart form-data headers of
    that form, and a [Content-Length] equal to the length computed for
    that form, also when the body is the request-body template and not
    the form; and this request is the one [upload] sends. *)
Theorem custom_request_headers (filePath fileName : string) (req : AxiosRequestConfig) :
  buildRequest filePath = Ok req →
  fields (buildForm filePath) = [(getConfig !! "fileFieldName", filePath)] ∧
  (∃ length,
     getLength (buildForm filePath) = Ok length ∧
     headers req = <["Content-Length" := HLength length]>
                     (getHeaders boundary (buildForm filePath)) ∧
     headers req !! "Content-Length" = Some (HLength length)) ∧
  headers req !! "content-type"
    = Some (HText ("multipart/form-data; boundary=" +:+ boundary)) ∧
  (getConfig !! "contentType" ≠ Some "multipart/form-data" →
     data req = DataValue (of_config (getConfig !! "requestBody"))) ∧
  upload filePath fileName
    = match axios req with
      | Ok res => readReply res
      | Throw err => Fail (message err)
      end.
Proof.
  intros Hreq. split; [done|].
  destruct (buildRequest_Ok _ _ Hreq) as (length & params & Hlen & Heq).
  split; [|split; [|split]].
  - exists length. rewrite Heq. simpl. split; [done|]. split; [done|].
    apply lookup_insert_eq.
  - rewrite Heq. simpl. rewrite lookup_insert_ne by done.
    unfold getHeaders. apply lookup_singleton_eq.
  - intros Hct. rewrite Heq. simpl. by rewrite decide_False.
  - by apply upload_built.
Qed.

End CustomUploaderFacts.



(** With the content type [application/json] and the template [[1]], the
    body is the string ["[1]"], not the array it parses to. *)
Lemma custom_request_body_not_parsed :
  let options := Fixtures.customOptions "application/json" in
  CustomUploader.getConfig options !! "contentType" = Some "application/json" ∧
  CustomUploader.getConfig options !! "requestBody" = Some "[1]" ∧
  Fixtures.JSON_parse "[1]" = Ok (JArr [JNum 1]) ∧
  ∃ req,
    CustomUploader.buildRequest "B" Fixtures.getLength Fixtures.JSON_parse options
      "/tmp/a.png" = Ok req ∧
    CustomUploader.data req = CustomUploader.DataValue (JStr "[1]") ∧
    CustomUploader.data req ≠ CustomUploader.DataValue (JArr [JNum 1]).
Proof.
  intros options. split; [by vm_compute|]. split; [by vm_compute|]. split; [done|].
  destruct (CustomUploader.buildRequest "B" Fixtures.getLength Fixtures.JSON_parse
              options "/tmp/a.png") as [req|err] eqn:Hreq; [|by vm_compute in Hreq].
  exists req. split; [done|].
  assert (CustomUploader.data req = CustomUploader.DataValue (JStr "[1]")) as Hdata.
  { apply (f_equal (λ r, match r with
                         | Ok q => Some (CustomUploader.data q) | Throw _ => None
                         end)) in Hreq.
    vm_compute in Hreq. by inversion Hreq. }
  split; [done|]. by rewrite Hdata.
Qed.

Lemma custom_request_body_witness :
  let options := Fixtures.customOptions "multipart/form-data" in
  ∃ req,
    CustomUploader.buildRequest "B" Fixtures.getLength Fixtures.JSON_parse options
      "/tmp/a.png" = Ok req ∧
    CustomUploader.data req
    = CustomUploader.DataForm
        {| CustomUploader.fields := [(Some "file", "/tmp/a.png")] |}.
Proof.
  intros options.
  destruct (CustomUploader.buildRequest "B" Fixtures.getLength Fixtures.JSON_parse
              options "/tmp/a.png") as [req|err] eqn:Hreq; [|by vm_compute in Hreq].
  exists req. split; [done|].
  destruct (custom_request_body "B" Fixtures.getLength Fixtures.JSON_parse options
              "/tmp/a.png" req Hreq) as [Hform _].
  destruct Hform as [-> _]; by vm_compute.
Defined.

Lemma custom_request_headers_witness :
  let options := Fixtures.customOptions "application/json" in
  ∃ req,
    CustomUploader.buildRequest "B" Fixtures.getLength Fixtures.JSON_parse options
      "/tmp/a.png" = Ok req ∧
    CustomUploader.headers req !! "Content-Length" = Some (CustomUploader.HLength 2048) ∧
    CustomUploader.headers req !! "content-type"
    = Some (CustomUploader.HText "multipart/form-data; boundary=B") ∧
    CustomUploader.data req = CustomUploader.DataValue (JStr "[1]").
Proof.
  intros options.
  destruct (CustomUploader.buildRequest "B" Fixtures.getLength Fixtures.JSON_parse
              options "/tmp/a.png") as [req|err] eqn:Hreq; [|by vm_compute in Hreq].
  exists req. split; [done|].
  destruct (custom_request_headers Fixtures.builtin "B" Fixtures.getLength Fixtures.JSON_parse
              (Fixtures.answers JNull) options "/tmp/a.png" "n.png" req Hreq)
    as (_ & (length & Hlen & _ & Hcl) & Hct & Hbody & _).
  split; [|split].
  - rewrite Hcl. vm_compute in Hlen. by inversion Hlen.
  - done.
  - rewrite Hbody; by vm_compute.
Defined.

(** ** The upload orchestrator *)

Section ManagerFacts.

Context (configuration : Configuration.t)
        (uploaderProfiles : list UploaderProfile.t)
        (getUploaderByName : string → option Uploader.t)
        (history_add : list UploadedFileInfo.t → list UploadedFileInfo.t →
                       list UploadedFileInfo.t)
        (winIsDestroyed : bool)
        (uuidv4 : nat → string)
        (getTime : nat → Z)
        (extname : string → string)
        (mime_lookup : string → option string)
        (typeErrorMessage : string → string).

Import UploaderManager.

Local Abbreviation handleSingleUploaded :=
  (UploaderManager.handleSingleUploaded configuration typeErrorMessage).
Local Abbreviation handleAddHistory :=
  (UploaderManager.handleAddHistory history_add winIsDestroyed).
Local Abbreviation start :=
  (UploaderManager.start uuidv4 getTime extname mime_lookup).
Local Abbreviation presentResult :=
  (UploaderManager.presentResult configuration typeErrorMessage).
Local Abbreviation runBatch :=
  (UploaderManager.runBatch configuration history_add winIsDestroyed
     uuidv4 getTime extname mime_lookup typeErrorMessage).
Local Abbreviation wantedProfileId := (UploaderManager.wantedProfileId configuration).
Local Abbreviation findProfile := (UploaderManager.findProfile uploaderProfiles).
Local Abbreviation missingProfileMessage :=
  (UploaderManager.missingProfileMessage uploaderProfiles).
Local Abbreviation upload :=
  (UploaderManager.upload configuration uploaderProfiles getUploaderByName
     history_add winIsDestroyed uuidv4 getTime extname mime_lookup typeErrorMessage).
Local Abbreviation getUploader :=
  (UploaderManager.getUploader uploaderProfiles getUploaderByName).
Local Abbreviation getFileList :=
  (UploaderManager.getFileList uploaderProfiles getUploaderByName).
Local Abbreviation deleteFile :=
  (UploaderManager.deleteFile uploaderProfiles getUploaderByName).
Local Abbreviation createDirectory :=
  (UploaderManager.createDirectory uploaderProfiles getUploaderByName).
Local Abbreviation historyEvents :=
  (UploaderManager.historyEvents history_add winIsDestroyed).
Local Abbreviation unresolved :=
  (UploaderManager.unresolved uploaderProfiles getUploaderByName).

(** *** Running the monad *)

Lemma run_bind {A B : Type} (m : M A) (f : A → M B) (st : State) :
  (m ≫= f) st
  = match m st with
    | (Ok a, st', log) =>
        match f a st' with
        | (r, st'', log') => (r, st'', log ++ log')
        end
    | (Throw e, st', log) => (Throw e, st', log)
    end.
Proof. reflexivity. Qed.

Lemma result_of_run {A : Type} (r : Result A) st log : result_of (r, st, log) = r.
Proof. reflexivity. Qed.

Lemma state_of_run {A : Type} (r : Result A) st log : state_of (r, st, log) = st.
Proof. reflexivity. Qed.

Lemma trace_of_run {A : Type} (r : Result A) st log : trace_of (r, st, log) = log.
Proof. reflexivity. Qed.

Lemma start_run uploader uploaderProfile directoryPath isFromFileManage file st :
  ∃ s fileName,
    start uploader uploaderProfile directoryPath isFromFileManage file st
    = (Ok s, next_tick (next_uuid (next_uuid st)),
       [UploaderUpload (Uploader.name uploader) file fileName
          directoryPath isFromFileManage]) ∧
    startedFor uploader (optionsIn st uploader) directoryPath isFromFileManage file s.
Proof.
  eexists _, _. split; [reflexivity|]. split; [done|]. by eexists.
Qed.

Lemma for_each_start uploader uploaderProfile directoryPath isFromFileManage files :
  ∀ st, ∃ started st' log,
    for_each (start uploader uploaderProfile directoryPath isFromFileManage) files st
    = (Ok started, st', log) ∧
    history st' = history st ∧
    clipboard st' = clipboard st ∧
    backendOptions st' = backendOptions st ∧
    Forall2 (startedFor uploader (optionsIn st uploader) directoryPath isFromFileManage)
            files started ∧
    uploads_called log = files ∧
    history_adds log = [] ∧ clipboard_writes log = [] ∧
    notifications log = [] ∧ messages log = [].
Proof.
  induction files as [|file files IH]; intros st.
  - exists [], st, []. by repeat split.
  - destruct (start_run uploader uploaderProfile directoryPath isFromFileManage file st)
      as (s & fileName & Hs & Hfor).
    destruct (IH (next_tick (next_uuid (next_uuid st))))
      as (started & st' & log & Hrun & Hh & Hc & Ho & Hall & Hup & Hha & Hcw & Hn & Hm).
    eexists (s :: started), st', _.
    split.
    { simpl. rewrite run_bind, Hs. rewrite run_bind, Hrun. reflexivity. }
    repeat split; try done.
    + constructor; [done|]. exact Hall.
    + simpl. unfold uploads_called in *. simpl. by rewrite app_nil_r, Hup.
    + unfold history_adds in *. simpl. by rewrite app_nil_r.
    + unfold clipboard_writes in *. simpl. by rewrite app_nil_r.
    + unfold notifications in *. simpl. by rewrite app_nil_r.
    + unfold messages in *. simpl. by rewrite app_nil_r.
Qed.

(** *** The fan-in *)

Lemma omap_lookup_seq_app {A : Type} (l pre : list A) :
  omap (λ i, (pre ++ l) !! i) (seq (length pre) (length l)) = l.
Proof.
  revert pre. induction l as [|a l IH]; intros pre; [done|].
  simpl. rewrite list_lookup_middle by done. f_equal.
  specialize (IH (pre ++ [a])). rewrite <-app_assoc, length_app in IH.
  simpl in IH. by rewrite Nat.add_1_r in IH.
Qed.

Lemma omap_lookup_Permutation {A : Type} (l : list A) (order : list nat) :
  order ≡ₚ seq 0 (length l) → omap (λ i, l !! i) order ≡ₚ l.
Proof.
  intros ->. by rewrite <-(omap_lookup_seq_app l []) at 2.
Qed.

Lemma settle_returns started order :
  (∀ i s, i ∈ order → started !! i = Some s → ∃ r, s.2 = Ok r) →
  ∀ successRes failRes, ∃ successRes' failRes',
    settle order started successRes failRes
    = Ok (successRes ++ successRes', failRes ++ failRes') ∧
    UploadedFileInfo.path <$> (failRes' ++ successRes')
      ≡ₚ (λ s, UploadedFileInfo.path s.1) <$> omap (λ i, started !! i) order ∧
    Forall (succeeded started) successRes' ∧
    Forall (failed started) failRes'.
Proof.
  induction order as [|i order IH]; intros Hok successRes failRes.
  - exists [], []. rewrite !app_nil_r. by repeat split.
  - assert (∀ j s, j ∈ order → started !! j = Some s → ∃ r, s.2 = Ok r) as Hok'.
    { intros j s Hj. apply Hok. by right. }
    simpl. destruct (started !! i) as [[baseInfo outcome]|] eqn:Hi.
    + destruct (Hok i _ ltac:(by left) Hi) as [r Hr]. simpl in Hr. subst outcome.
      assert ((baseInfo, Ok r) ∈ started) as Hin
        by (eapply list_elem_of_lookup_2; exact Hi).
      destruct r as [data|desc].
      * destruct (IH Hok' (successRes ++ [withData baseInfo data]) failRes)
          as (s' & f' & Hrun & Hperm & Hs & Hf).
        exists (withData baseInfo data :: s'), f'.
        rewrite Hrun, <-app_assoc. split; [done|]. split; [|split; [|done]].
        -- rewrite fmap_app, fmap_cons, <-Permutation_middle, <-fmap_app, Hperm.
           done.
        -- constructor; [|done]. by exists (baseInfo, Ok (Response.Success data)), data.
      * destruct (IH Hok' successRes (failRes ++ [withError baseInfo desc]))
          as (s' & f' & Hrun & Hperm & Hs & Hf).
        exists s', (withError baseInfo desc :: f').
        rewrite Hrun, <-app_assoc. split; [done|]. split; [|split; [done|]].
        -- simpl. by rewrite Hperm.
        -- constructor; [|done]. by exists (baseInfo, Ok (Response.Fail desc)), desc.
    + apply IH, Hok'.
Qed.

Lemma settle_throws started order :
  (∃ i s err, i ∈ order ∧ started !! i = Some s ∧ s.2 = Throw err) →
  ∀ successRes failRes, ∃ s err,
    s ∈ started ∧ s.2 = Throw err ∧
    settle order started successRes failRes = Throw err.
Proof.
  induction order as [|i order IH]; intros (j & s & err & Hj & Hs & Herr).
  { by apply elem_of_nil in Hj. }
  intros successRes failRes. simpl.
  destruct (started !! i) as [[baseInfo [[data|desc]|err']]|] eqn:Hi.
  - apply IH. apply elem_of_cons in Hj as [->|Hj]; [|by eauto 6].
    rewrite Hi in Hs. inversion Hs; subst. done.
  - apply IH. apply elem_of_cons in Hj as [->|Hj]; [|by eauto 6].
    rewrite Hi in Hs. inversion Hs; subst. done.
  - exists (baseInfo, Throw err'), err'. split; [|done].
    eapply list_elem_of_lookup_2. exact Hi.
  - apply IH. apply elem_of_cons in Hj as [->|Hj]; [|by eauto 6].
    by rewrite Hi in Hs.
Qed.

(** *** The presentation *)

Example formatUrl_Markdown :
  formatUrl "Markdown" (Some "https://x/y.png")
  = Some (Some "![https://x/y.png](https://x/y.png)").
Proof. reflexivity. Qed.

Example formatUrl_HTML :
  formatUrl "HTML" (Some "https://x/y.png")
  = Some (Some ("<img src=" +:+ dquote +:+ "https://x/y.png" +:+ dquote +:+ " />")).
Proof. reflexivity. Qed.

Example formatUrl_other : formatUrl "BBCode" (Some "https://x/y.png") = None.
Proof. reflexivity. Qed.

Lemma handleSingleUploaded_undefined st :
  handleSingleUploaded None None st
  = (Throw {| message := typeErrorMessage "errorMessage" |}, st, []).
Proof. reflexivity. Qed.

Lemma handleSingleUploaded_returns successFile failFile st :
  is_Some successFile ∨ is_Some failFile →
  ∃ v, result_of (handleSingleUploaded successFile failFile st) = Ok v.
Proof.
  intros Hsome. unfold UploaderManager.handleSingleUploaded.
  destruct successFile as [successFile|].
  - destruct (formatUrl _ _) as [clipboardUrl|]; [|by eexists].
    destruct (Configuration.autoCopy configuration),
             (Configuration.autoRecover configuration),
             (Configuration.showNotifaction configuration); by eexists.
  - destruct failFile as [failFile|]; [by eexists|].
    destruct Hsome as [[? [=]]|[? [=]]].
Qed.

(** The presentation touches neither the history nor the UI transport
    nor the backend. *)
Lemma handleSingleUploaded_quiet successFile failFile st :
  let run := handleSingleUploaded successFile failFile st in
  history_adds (trace_of run) = [] ∧ messages (trace_of run) = [] ∧
  uploads_called (trace_of run) = [] ∧ history (state_of run) = history st.
Proof.
  unfold UploaderManager.handleSingleUploaded.
  destruct successFile as [successFile|].
  - destruct (formatUrl _ _) as [clipboardUrl|]; [|done].
    destruct (Configuration.autoCopy configuration),
             (Configuration.autoRecover configuration),
             (Configuration.showNotifaction configuration); done.
  - by destruct failFile as [failFile|].
Qed.

Lemma handleBatchUploaded_run successFilesCount failFilesCount st :
  ∃ title body,
    handleBatchUploaded successFilesCount failFilesCount st
    = (Ok tt, st, [NotificationShow title body false]) ∧
    title ∈ ["批量上传成功"; "批量上传失败"; "批量上传结束"].
Proof.
  unfold handleBatchUploaded.
  destruct (failFilesCount =? 0), (successFilesCount =? 0);
    eexists _, _; (split; [reflexivity|]); repeat constructor.
Qed.

Lemma handleSingleUploaded_copies successFile failFile clipboardUrl st :
  formatUrl (Configuration.urlType configuration) (UploadedFileInfo.url successFile)
    = Some clipboardUrl →
  Configuration.autoCopy configuration = true →
  ClipboardWriteText (or_empty clipboardUrl)
    ∈ trace_of (handleSingleUploaded (Some successFile) failFile st).
Proof.
  intros Hformat Hcopy. unfold UploaderManager.handleSingleUploaded.
  rewrite Hformat, Hcopy.
  destruct (Configuration.autoRecover configuration),
           (Configuration.showNotifaction configuration);
    unfold trace_of; simpl; repeat constructor.
Qed.

Lemma presentResult_quiet files successRes failRes st :
  let run := presentResult files successRes failRes st in
  history_adds (trace_of run) = [] ∧ messages (trace_of run) = [] ∧
  uploads_called (trace_of run) = [] ∧ history (state_of run) = history st.
Proof.
  unfold UploaderManager.presentResult. destruct (1 <? length files).
  - destruct (handleBatchUploaded_run (length successRes) (length failRes) st)
      as (title & body & -> & _). done.
  - pose proof (handleSingleUploaded_quiet (successRes !! 0) (failRes !! 0) st) as H.
    rewrite run_bind.
    destruct (handleSingleUploaded _ _ st) as [[[v|err] st'] log]; simpl in *;
      [|done].
    unfold trace_of, state_of in *. simpl in *. by rewrite app_nil_r.
Qed.

Lemma presentResult_returns files successRes failRes st :
  files ≠ [] → length successRes + length failRes = length files →
  result_of (presentResult files successRes failRes st) = Ok tt.
Proof.
  intros Hne Hlen. unfold UploaderManager.presentResult.
  destruct (1 <? length files) eqn:Hmany.
  - destruct (handleBatchUploaded_run (length successRes) (length failRes) st)
      as (title & body & -> & _). done.
  - destruct (handleSingleUploaded_returns (successRes !! 0) (failRes !! 0) st)
      as [v Hv].
    { destruct files as [|file files]; [done|]. simpl in Hlen.
      destruct successRes as [|r successRes]; [|left; by eexists].
      destruct failRes as [|r failRes]; [done|right; by eexists]. }
    rewrite run_bind.
    destruct (handleSingleUploaded _ _ st) as [[[v'|err] st'] log]; by simpl in *.
Qed.

(** *** [runBatch] and [upload] on a resolved backend *)

Lemma runBatch_settled order uploader uploaderProfile files directoryPath
    isFromFileManage st started st1 log1 successRes failRes :
  for_each (start uploader uploaderProfile directoryPath isFromFileManage) files st
    = (Ok started, st1, log1) →
  settle order started [] [] = Ok (successRes, failRes) →
  let uploadedData := failRes ++ successRes in
  let run := presentResult files successRes failRes
               (set_history (history_add uploadedData (history st1)) st1) in
  runBatch order uploader uploaderProfile files directoryPath isFromFileManage st
  = (result_of run, state_of run,
     log1 ++ historyEvents uploadedData (history st1) ++
     managedEvents isFromFileManage ++ trace_of run).
Proof.
  intros Hfor Hsettle. cbv zeta. unfold UploaderManager.runBatch.
  rewrite run_bind, Hfor. rewrite run_bind. unfold lift at 1. rewrite Hsettle.
  cbn [fst snd]. unfold historyEvents, managedEvents.
  destruct (presentResult files successRes failRes _) as [[r st3] log3] eqn:Hp.
  unfold UploaderManager.handleAddHistory, when. rewrite !run_bind.
  destruct winIsDestroyed, isFromFileManage;
    cbn -[UploaderManager.presentResult set_history]; rewrite ?run_bind;
    cbn -[UploaderManager.presentResult set_history]; rewrite Hp;
    by rewrite ?app_nil_r.
Qed.

Lemma runBatch_rejected order uploader uploaderProfile files directoryPath
    isFromFileManage st started st1 log1 err :
  for_each (start uploader uploaderProfile directoryPath isFromFileManage) files st
    = (Ok started, st1, log1) →
  settle order started [] [] = Throw err →
  runBatch order uploader uploaderProfile files directoryPath isFromFileManage st
  = (Throw err, st1, log1).
Proof.
  intros Hfor Hsettle. unfold UploaderManager.runBatch.
  rewrite run_bind, Hfor. rewrite run_bind. unfold lift at 1. rewrite Hsettle.
  simpl. by rewrite app_nil_r.
Qed.

Lemma upload_resolved order files customUploaderProfileId directoryPath
    isFromFileManage st uploaderProfile uploader :
  findProfile (wantedProfileId customUploaderProfileId) = Some uploaderProfile →
  getUploaderByName (UploaderProfile.uploaderName uploaderProfile) = Some uploader →
  let newOptions := UploaderProfile.uploaderOptions uploaderProfile in
  let run := runBatch order uploader uploaderProfile files directoryPath
               isFromFileManage
               (set_backendOptions (Uploader.name uploader) newOptions st) in
  upload order files customUploaderProfileId directoryPath isFromFileManage st
  = (Ok JUndefined, state_of run,
     ChangeOptions (Uploader.name uploader) newOptions :: trace_of run
     ++ caught (result_of run)).
Proof.
  intros Hfind Hreg. cbv zeta. unfold UploaderManager.upload, M_try.
  rewrite Hfind, Hreg. rewrite run_bind. unfold changeOptions at 1.
  rewrite run_bind.
  destruct (runBatch _ _ _ _ _ _ _) as [[[[]|err] st'] log]; simpl;
    by rewrite ?app_nil_r.
Qed.

Lemma optionsIn_set uploader newOptions st :
  optionsIn (set_backendOptions (Uploader.name uploader) newOptions st) uploader
  = newOptions.
Proof. unfold optionsIn. simpl. by rewrite lookup_insert_eq. Qed.

Lemma history_adds_app log1 log2 :
  history_adds (log1 ++ log2) = history_adds log1 ++ history_adds log2.
Proof. apply omap_app. Qed.

Lemma notifications_app log1 log2 :
  notifications (log1 ++ log2) = notifications log1 ++ notifications log2.
Proof. apply omap_app. Qed.

Lemma uploads_called_app log1 log2 :
  uploads_called (log1 ++ log2) = uploads_called log1 ++ uploads_called log2.
Proof. apply omap_app. Qed.

Lemma clipboard_writes_app log1 log2 :
  clipboard_writes (log1 ++ log2) = clipboard_writes log1 ++ clipboard_writes log2.
Proof. apply omap_app. Qed.

Lemma messages_app log1 log2 :
  messages (log1 ++ log2) = messages log1 ++ messages log2.
Proof. apply omap_app. Qed.

(** The first event of the trace of [upload] on a resolved backend, set
    apart so that the observations distribute over the rest. *)
Ltac head_apart :=
  change (ChangeOptions ?n ?o :: ?l) with ([ChangeOptions n o] ++ l).

Lemma history_adds_historyEvents uploadedData store :
  history_adds (historyEvents uploadedData store) = [uploadedData].
Proof. unfold historyEvents. by destruct winIsDestroyed. Qed.

Lemma history_adds_managedEvents isFromFileManage :
  history_adds (managedEvents isFromFileManage) = [].
Proof. by destruct isFromFileManage. Qed.

Lemma history_adds_caught {A : Type} (r : Result A) : history_adds (caught r) = [].
Proof. by destruct r. Qed.

Lemma started_elem uploader opts directoryPath isFromFileManage files started s :
  Forall2 (startedFor uploader opts directoryPath isFromFileManage) files started →
  s ∈ started →
  ∃ file, file ∈ files ∧ startedFor uploader opts directoryPath isFromFileManage file s.
Proof.
  intros Hall Hs. apply list_elem_of_lookup in Hs as [i Hi].
  destruct (Forall2_lookup_r _ _ _ _ _ Hall Hi) as (file & Hfile & Hfor).
  exists file. split; [|done]. eapply list_elem_of_lookup_2. exact Hfile.
Qed.

Lemma started_paths uploader opts directoryPath isFromFileManage files started :
  Forall2 (startedFor uploader opts directoryPath isFromFileManage) files started →
  (λ s, UploadedFileInfo.path s.1) <$> started = files.
Proof.
  induction 1 as [|file s files started [Hpath _] _ IH]; [done|].
  rewrite fmap_cons. by rewrite Hpath, IH.
Qed.

(** The batch whose uploads all return: the started uploads settle in
    the two lists, which hold one record per file. *)
Lemma batch_settles order uploader uploaderProfile files directoryPath
    isFromFileManage st :
  order ≡ₚ seq 0 (length files) →
  (∀ file fileName, file ∈ files →
     ∃ r, Uploader.upload uploader (optionsIn st uploader) file fileName
            directoryPath isFromFileManage = Ok r) →
  ∃ started st1 log1 successRes failRes,
    for_each (start uploader uploaderProfile directoryPath isFromFileManage) files st
      = (Ok started, st1, log1) ∧
    settle order started [] [] = Ok (successRes, failRes) ∧
    history st1 = history st ∧ clipboard st1 = clipboard st ∧
    uploads_called log1 = files ∧ history_adds log1 = [] ∧
    clipboard_writes log1 = [] ∧ notifications log1 = [] ∧ messages log1 = [] ∧
    UploadedFileInfo.path <$> (failRes ++ successRes) ≡ₚ files ∧
    Forall (succeededOn uploader (optionsIn st uploader) directoryPath isFromFileManage)
           successRes ∧
    Forall (failedOn uploader (optionsIn st uploader) directoryPath isFromFileManage)
           failRes.
Proof.
  intros Horder Hreturn.
  destruct (for_each_start uploader uploaderProfile directoryPath isFromFileManage
              files st)
    as (started & st1 & log1 & Hfor & Hh & Hc & _ & Hall & Hup & Hha & Hcw & Hn & Hm).
  assert (∀ s, s ∈ started → ∃ r, s.2 = Ok r) as Hok.
  { intros s Hs.
    destruct (started_elem _ _ _ _ _ _ _ Hall Hs) as (file & Hfile & _ & fileName & ->).
    by apply Hreturn. }
  destruct (settle_returns started order) with (successRes := @nil UploadedFileInfo.t)
                                               (failRes := @nil UploadedFileInfo.t)
    as (successRes & failRes & Hsettle & Hperm & Hs & Hf).
  { intros i s _ Hi. apply Hok. eapply list_elem_of_lookup_2. exact Hi. }
  exists started, st1, log1, successRes, failRes.
  repeat split; try done.
  - rewrite Hperm, omap_lookup_Permutation
      by (by rewrite <-(Forall2_length _ _ _ Hall)).
    by rewrite (started_paths _ _ _ _ _ _ Hall).
  - eapply Forall_impl; [exact Hs|]. intros r (s & data & Hin & Hres & ->).
    destruct (started_elem _ _ _ _ _ _ _ Hall Hin) as (file & _ & Hpath & fileName & Hup').
    exists fileName, data. simpl. by rewrite Hpath, <-Hup', Hres.
  - eapply Forall_impl; [exact Hf|]. intros r (s & desc & Hin & Hres & ->).
    destruct (started_elem _ _ _ _ _ _ _ Hall Hin) as (file & _ & Hpath & fileName & Hup').
    exists fileName, desc. simpl. by rewrite Hpath, <-Hup', Hres.
Qed.

(** *** [upload] on a batch *)

(** C2. When [upload] reaches the aggregation step (the profile and
    the backend are found and no upload of the batch throws), the
    lengths of the success partition and of the failure partition add
    up to the number of files, and the call gives the history one list,
    the failures followed by the successes, with exactly one record per
    file of the batch: a success carries the URL its upload returned, a
    failure the description its upload returned. This holds for every
    batch, the non-empty ones among them. *)
Theorem upload_one_record_per_file order files customUploaderProfileId
    directoryPath isFromFileManage st uploaderProfile uploader :
  findProfile (wantedProfileId customUploaderProfileId) = Some uploaderProfile →
  getUploaderByName (UploaderProfile.uploaderName uploaderProfile) = Some uploader →
  order ≡ₚ seq 0 (length files) →
  (∀ file fileName, file ∈ files →
     ∃ r, Uploader.upload uploader (UploaderProfile.uploaderOptions uploaderProfile)
            file fileName directoryPath isFromFileManage = Ok r) →
  let newOptions := UploaderProfile.uploaderOptions uploaderProfile in
  let run := upload order files customUploaderProfileId directoryPath
               isFromFileManage st in
  ∃ successRes failRes,
    Forall (succeededOn uploader newOptions directoryPath isFromFileManage) successRes ∧
    Forall (failedOn uploader newOptions directoryPath isFromFileManage) failRes ∧
    length successRes + length failRes = length files ∧
    history_adds (trace_of run) = [failRes ++ successRes] ∧
    UploadedFileInfo.path <$> (failRes ++ successRes) ≡ₚ files ∧
    history (state_of run) = history_add (failRes ++ successRes) (history st).
Proof.
  intros Hfind Hreg Horder Hreturn newOptions run.
  set (st0 := set_backendOptions (Uploader.name uploader) newOptions st).
  destruct (batch_settles order uploader uploaderProfile files directoryPath
              isFromFileManage st0 Horder)
    as (started & st1 & log1 & successRes & failRes & Hfor & Hsettle & Hh & _ & _ &
        Hha & _ & _ & _ & Hperm & Hs & Hf).
  { unfold st0. by rewrite optionsIn_set. }
  unfold st0 in Hs, Hf. rewrite optionsIn_set in Hs, Hf.
  exists successRes, failRes. split; [done|]. split; [done|].
  split.
  { apply Permutation_length in Hperm.
    rewrite length_fmap, length_app in Hperm. lia. }
  pose proof (presentResult_quiet files successRes failRes
                (set_history (history_add (failRes ++ successRes) (history st1)) st1))
    as (Hpa & _ & _ & Hph).
  subst run.
  rewrite (upload_resolved _ _ _ _ _ _ _ _ Hfind Hreg).
  fold newOptions st0. rewrite (runBatch_settled _ _ _ _ _ _ _ _ _ _ _ _ Hfor Hsettle).
  rewrite !trace_of_run, !state_of_run, !result_of_run.
  split; [|split; [done|]].
  - head_apart.
    rewrite !history_adds_app, history_adds_historyEvents,
      history_adds_managedEvents, history_adds_caught, Hha, Hpa.
    done.
  - rewrite Hph. simpl. by rewrite Hh.
Qed.

Lemma notifications_historyEvents uploadedData store :
  notifications (historyEvents uploadedData store) = [].
Proof. unfold historyEvents. by destruct winIsDestroyed. Qed.

Lemma clipboard_writes_historyEvents uploadedData store :
  clipboard_writes (historyEvents uploadedData store) = [].
Proof. unfold historyEvents. by destruct winIsDestroyed. Qed.

(** C3, as amended. A call in managed mode that reaches the aggregation
    step on a non-empty batch sends [file-upload-reply] once the history
    has its records, and then presents the result as every other call
    does: for more than one file, one batch-summary notification; for
    one file, the single-file presentation, which writes the link to the
    clipboard when the upload succeeded, the URL format is one of the
    three known and [autoCopy] is set. Before that message, nothing was
    notified and nothing written to the clipboard. *)
Theorem upload_managed_presents order files customUploaderProfileId
    directoryPath st uploaderProfile uploader :
  findProfile (wantedProfileId customUploaderProfileId) = Some uploaderProfile →
  getUploaderByName (UploaderProfile.uploaderName uploaderProfile) = Some uploader →
  order ≡ₚ seq 0 (length files) →
  (∀ file fileName, file ∈ files →
     ∃ r, Uploader.upload uploader (UploaderProfile.uploaderOptions uploaderProfile)
            file fileName directoryPath true = Ok r) →
  files ≠ [] →
  let newOptions := UploaderProfile.uploaderOptions uploaderProfile in
  let run := upload order files customUploaderProfileId directoryPath true st in
  ∃ successRes failRes prefix st2,
    Forall (succeededOn uploader newOptions directoryPath true) successRes ∧
    Forall (failedOn uploader newOptions directoryPath true) failRes ∧
    length successRes + length failRes = length files ∧
    clipboard st2 = clipboard st ∧
    let presentation := trace_of (presentResult files successRes failRes st2) in
    trace_of run = prefix ++ IpcSend "file-upload-reply" NoPayload :: presentation ∧
    history_adds prefix = [failRes ++ successRes] ∧
    notifications prefix = [] ∧ clipboard_writes prefix = [] ∧
    (1 < length files →
       ∃ title body,
         presentation = [NotificationShow title body false] ∧
         title ∈ ["批量上传成功"; "批量上传失败"; "批量上传结束"]) ∧
    (length files = 1 →
       ∀ successFile clipboardUrl,
         successRes !! 0 = Some successFile →
         formatUrl (Configuration.urlType configuration)
                   (UploadedFileInfo.url successFile) = Some clipboardUrl →
         Configuration.autoCopy configuration = true →
         ClipboardWriteText (or_empty clipboardUrl) ∈ presentation).
Proof.
  intros Hfind Hreg Horder Hreturn Hne newOptions run.
  set (st0 := set_backendOptions (Uploader.name uploader) newOptions st).
  destruct (batch_settles order uploader uploaderProfile files directoryPath
              true st0 Horder)
    as (started & st1 & log1 & successRes & failRes & Hfor & Hsettle & Hh & Hc & _ &
        Hha & Hcw & Hn & _ & Hperm & Hs & Hf).
  { unfold st0. by rewrite optionsIn_set. }
  unfold st0 in Hs, Hf. rewrite optionsIn_set in Hs, Hf.
  assert (length successRes + length failRes = length files) as Hlen.
  { apply Permutation_length in Hperm.
    rewrite length_fmap, length_app in Hperm. lia. }
  set (st2 := set_history (history_add (failRes ++ successRes) (history st1)) st1).
  exists successRes, failRes,
    (ChangeOptions (Uploader.name uploader) newOptions ::
     log1 ++ historyEvents (failRes ++ successRes) (history st1)), st2.
  split; [done|]. split; [done|]. split; [done|]. split; [done|]. cbv zeta.
  split; [|split; [|split; [|split; [|split]]]].
  - subst run. rewrite (upload_resolved _ _ _ _ _ _ _ _ Hfind Hreg).
    fold newOptions st0.
    rewrite (runBatch_settled _ _ _ _ _ _ _ _ _ _ _ _ Hfor Hsettle).
    fold st2. rewrite !trace_of_run, !result_of_run.
    rewrite (presentResult_returns _ _ _ _ Hne Hlen). simpl.
    by rewrite app_nil_r, <-!app_assoc.
  - head_apart.
    by rewrite !history_adds_app, history_adds_historyEvents, Hha.
  - head_apart.
    by rewrite !notifications_app, notifications_historyEvents, Hn.
  - head_apart.
    by rewrite !clipboard_writes_app, clipboard_writes_historyEvents, Hcw.
  - intros Hmany. unfold UploaderManager.presentResult.
    apply Nat.ltb_lt in Hmany. rewrite Hmany.
    destruct (handleBatchUploaded_run (length successRes) (length failRes) st2)
      as (title & body & -> & Htitle).
    by exists title, body.
  - intros Hone successFile clipboardUrl Hsucc Hformat Hcopy.
    unfold UploaderManager.presentResult. rewrite Hone. simpl.
    rewrite Hsucc, run_bind.
    pose proof (handleSingleUploaded_copies successFile (failRes !! 0) clipboardUrl
                  st2 Hformat Hcopy) as Hin.
    destruct (handleSingleUploaded _ _ st2) as [[[v|err] st3] log3];
      rewrite trace_of_run in *; simpl; by rewrite ?app_nil_r.
Qed.

Lemma M_try_returns {A : Type} (body : M A) (handler : Error → M A) :
  (∀ err st, ∃ v, result_of (handler err st) = Ok v) →
  ∀ st, ∃ v, result_of (M_try body handler st) = Ok v.
Proof.
  intros Hhandler st. unfold M_try.
  destruct (body st) as [[[v|err] st'] log]; [by eexists|].
  destruct (Hhandler err st') as [v Hv].
  destruct (handler err st') as [[r st''] log']. by exists v.
Qed.

(** [upload] returns, whatever happens in it. *)
Lemma upload_never_throws order files customUploaderProfileId directoryPath
    isFromFileManage st :
  ∃ v, result_of (upload order files customUploaderProfileId directoryPath
                    isFromFileManage st) = Ok v.
Proof.
  unfold UploaderManager.upload. apply M_try_returns. intros err st'. by eexists.
Qed.

(** C1, as amended. When the backend's [upload] throws for a file of
    the batch, the exception is not turned into a failure record: it
    rejects the whole batch and is caught by the single handler of
    [upload], which shows one notification with the message of an
    exception thrown for a file of the batch. The backend was called for
    every file, nothing is given to the history, nothing is written to
    the clipboard or sent to the UI, and [upload] itself returns without
    throwing. *)
Theorem upload_backend_exception order files customUploaderProfileId
    directoryPath isFromFileManage st uploaderProfile uploader :
  findProfile (wantedProfileId customUploaderProfileId) = Some uploaderProfile →
  getUploaderByName (UploaderProfile.uploaderName uploaderProfile) = Some uploader →
  order ≡ₚ seq 0 (length files) →
  let newOptions := UploaderProfile.uploaderOptions uploaderProfile in
  (∃ file, file ∈ files ∧
     ∀ fileName, ∃ err,
       Uploader.upload uploader newOptions file fileName directoryPath
         isFromFileManage = Throw err) →
  let run := upload order files customUploaderProfileId directoryPath
               isFromFileManage st in
  ∃ file fileName err,
    file ∈ files ∧
    Uploader.upload uploader newOptions file fileName directoryPath isFromFileManage
      = Throw err ∧
    result_of run = Ok JUndefined ∧
    notifications (trace_of run) = [("上传操作异常", message err)] ∧
    uploads_called (trace_of run) = files ∧
    history_adds (trace_of run) = [] ∧
    history (state_of run) = history st ∧
    clipboard_writes (trace_of run) = [] ∧
    messages (trace_of run) = [].
Proof.
  intros Hfind Hreg Horder newOptions (bad & Hbad & Hthrows) run.
  set (st0 := set_backendOptions (Uploader.name uploader) newOptions st).
  destruct (for_each_start uploader uploaderProfile directoryPath isFromFileManage
              files st0)
    as (started & st1 & log1 & Hfor & Hh & Hc & _ & Hall & Hup & Hha & Hcw & Hn & Hm).
  unfold st0 in Hall. rewrite optionsIn_set in Hall. fold st0 in Hfor.
  destruct (settle_throws started order) with (successRes := @nil UploadedFileInfo.t)
                                              (failRes := @nil UploadedFileInfo.t)
    as (s & err & Hs & Herr & Hsettle).
  { apply list_elem_of_lookup in Hbad as [i Hi].
    destruct (Forall2_lookup_l _ _ _ _ _ Hall Hi) as (s & Hsi & _ & fileName & Hs2).
    destruct (Hthrows fileName) as [err Herr].
    exists i, s, err. split; [|split; [done|congruence]].
    rewrite Horder. apply elem_of_seq. apply lookup_lt_Some in Hi. lia. }
  destruct (started_elem _ _ _ _ _ _ _ Hall Hs) as (file & Hfile & _ & fileName & Hs2).
  exists file, fileName, err. split; [done|]. split; [congruence|].
  subst run. rewrite (upload_resolved _ _ _ _ _ _ _ _ Hfind Hreg).
  fold newOptions st0. rewrite (runBatch_rejected _ _ _ _ _ _ _ _ _ _ _ Hfor Hsettle).
  rewrite !trace_of_run, !state_of_run, !result_of_run.
  head_apart.
  rewrite !notifications_app, !uploads_called_app, !history_adds_app,
    !clipboard_writes_app, !messages_app, Hn, Hup, Hha, Hcw, Hm.
  simpl. by rewrite app_nil_r.
Qed.

Lemma settle_nothing order successRes failRes :
  settle order [] successRes failRes = Ok (successRes, failRes).
Proof. induction order as [|i order IH]; [done|]. simpl. exact IH. Qed.

(** C7. On an empty batch that passes the resolution of profile and
    backend, [upload] gives the history the empty list and then reads
    [errorMessage] of the missing first failure: the [TypeError] is
    caught and shown, so that one notification follows the history
    append. *)
Theorem upload_empty_batch order customUploaderProfileId directoryPath
    isFromFileManage st uploaderProfile uploader :
  findProfile (wantedProfileId customUploaderProfileId) = Some uploaderProfile →
  getUploaderByName (UploaderProfile.uploaderName uploaderProfile) = Some uploader →
  let run := upload order [] customUploaderProfileId directoryPath
               isFromFileManage st in
  result_of run = Ok JUndefined ∧
  trace_of run
  = ChangeOptions (Uploader.name uploader)
      (UploaderProfile.uploaderOptions uploaderProfile) ::
    historyEvents [] (history st) ++ managedEvents isFromFileManage ++
    [NotificationShow "上传操作异常" (typeErrorMessage "errorMessage") false] ∧
  notifications (trace_of run) = [("上传操作异常", typeErrorMessage "errorMessage")].
Proof.
  intros Hfind Hreg run.
  assert (trace_of run
          = ChangeOptions (Uploader.name uploader)
              (UploaderProfile.uploaderOptions uploaderProfile) ::
            historyEvents [] (history st) ++ managedEvents isFromFileManage ++
            [NotificationShow "上传操作异常" (typeErrorMessage "errorMessage") false])
    as Htrace.
  { subst run. rewrite (upload_resolved _ _ _ _ _ _ _ _ Hfind Hreg).
    erewrite runBatch_settled; [|reflexivity|apply settle_nothing].
    rewrite !trace_of_run, !result_of_run. simpl. by rewrite <-!app_assoc. }
  split; [|split; [done|]].
  - subst run. by rewrite (upload_resolved _ _ _ _ _ _ _ _ Hfind Hreg).
  - rewrite Htrace.
    head_apart.
    rewrite !notifications_app, notifications_historyEvents.
    by destruct isFromFileManage.
Qed.

(** C4. When no profile matches, [upload] shows one notification,
    returns [false] and does nothing else: the state, and so the
    history, is unchanged and no backend is called. The body of the
    notification tells three cases apart: the profile does not exist,
    when an explicit id was given; no profile is configured, when none
    was given and there is no profile; the default is not set, when none
    was given and there are profiles. *)
Theorem upload_profile_missing order files customUploaderProfileId directoryPath
    isFromFileManage st :
  findProfile (wantedProfileId customUploaderProfileId) = None →
  upload order files customUploaderProfileId directoryPath isFromFileManage st
  = (Ok (JBool false), st,
     [NotificationShow "上传操作异常"
        (missingProfileMessage customUploaderProfileId) false]) ∧
  (customUploaderProfileId ≠ "" →
     missingProfileMessage customUploaderProfileId = "上传器配置不存在") ∧
  (customUploaderProfileId = "" → uploaderProfiles = [] →
     missingProfileMessage customUploaderProfileId = "请添加上传器配置") ∧
  (customUploaderProfileId = "" → uploaderProfiles ≠ [] →
     missingProfileMessage customUploaderProfileId = "请配置默认的上传器") ∧
  ("上传器配置不存在" ≠ "请添加上传器配置" ∧
   "上传器配置不存在" ≠ "请配置默认的上传器" ∧
   "请添加上传器配置" ≠ "请配置默认的上传器").
Proof.
  intros Hfind. split; [|split; [|split; [|split]]].
  - unfold UploaderManager.upload, M_try. by rewrite Hfind.
  - intros Hcustom. unfold UploaderManager.missingProfileMessage.
    apply String.eqb_neq in Hcustom. by rewrite Hcustom.
  - intros -> ->. done.
  - intros -> Hsome. unfold UploaderManager.missingProfileMessage.
    by destruct uploaderProfiles.
  - by repeat split.
Qed.

(** C8. On a successful single upload, when [urlType] is none of
    [URL], [HTML] and [Markdown], [handleSingleUploaded] returns the raw
    URL of the record and does nothing: no clipboard write, no
    notification, the state unchanged. *)
Theorem handleSingleUploaded_other_urlType successFile failFile st :
  Configuration.urlType configuration ≠ "URL" →
  Configuration.urlType configuration ≠ "HTML" →
  Configuration.urlType configuration ≠ "Markdown" →
  handleSingleUploaded (Some successFile) failFile st
  = (Ok (UploadedFileInfo.url successFile), st, []).
Proof.
  intros Hurl Hhtml Hmd. unfold UploaderManager.handleSingleUploaded, formatUrl.
  apply String.eqb_neq in Hurl, Hhtml, Hmd. by rewrite Hurl, Hhtml, Hmd.
Qed.

(** *** File management *)

Lemma getUploader_unresolved id st :
  unresolved id → getUploader id st = (Ok None, st, []).
Proof.
  unfold UploaderManager.getUploader.
  intros [Hfind|(uploaderProfile & Hfind & Hreg)]; rewrite Hfind; [done|].
  by rewrite Hreg.
Qed.

Lemma getUploader_resolved id st uploaderProfile uploader :
  findProfile id = Some uploaderProfile →
  getUploaderByName (UploaderProfile.uploaderName uploaderProfile) = Some uploader →
  getUploader id st
  = (Ok (Some uploader),
     set_backendOptions (Uploader.name uploader)
       (UploaderProfile.uploaderOptions uploaderProfile) st,
     [ChangeOptions (Uploader.name uploader)
        (UploaderProfile.uploaderOptions uploaderProfile)]).
Proof.
  intros Hfind Hreg. unfold UploaderManager.getUploader. by rewrite Hfind, Hreg.
Qed.

(** C10. For a profile id that matches no stored profile, or whose
    profile names a backend unknown to the registry, [getFileList]
    replies with the empty list and [deleteFile] and [createDirectory]
    reply [false], with no notification and without throwing; a backend
    that lacks the operation gives the same result and the same reply. *)
Theorem file_management_unresolved id directoryPath fileNames newDirectory st :
  unresolved id →
  (getFileList id directoryPath st
     = (Ok tt, st, [IpcSend "file-list-get-reply" (Reply (JArr []))]) ∧
   deleteFile id fileNames st
     = (Ok tt, st, [IpcSend "file-delete-reply" (Reply (JBool false))]) ∧
   createDirectory id newDirectory st
     = (Ok tt, st, [IpcSend "directory-create-reply" (Reply (JBool false))])) ∧
  (∀ id' uploaderProfile uploader,
     findProfile id' = Some uploaderProfile →
     getUploaderByName (UploaderProfile.uploaderName uploaderProfile) = Some uploader →
     (Uploader.getFileList uploader = None →
        result_of (getFileList id' directoryPath st)
          = result_of (getFileList id directoryPath st) ∧
        messages (trace_of (getFileList id' directoryPath st))
          = messages (trace_of (getFileList id directoryPath st))) ∧
     (Uploader.deleteFile uploader = None →
        result_of (deleteFile id' fileNames st)
          = result_of (deleteFile id fileNames st) ∧
        messages (trace_of (deleteFile id' fileNames st))
          = messages (trace_of (deleteFile id fileNames st))) ∧
     (Uploader.createDirectory uploader = None →
        result_of (createDirectory id' newDirectory st)
          = result_of (createDirectory id newDirectory st) ∧
        messages (trace_of (createDirectory id' newDirectory st))
          = messages (trace_of (createDirectory id newDirectory st)))).
Proof.
  intros Hun.
  assert (getFileList id directoryPath st
          = (Ok tt, st, [IpcSend "file-list-get-reply" (Reply (JArr []))])) as Hlist.
  { unfold UploaderManager.getFileList.
    by rewrite run_bind, (getUploader_unresolved _ _ Hun). }
  assert (deleteFile id fileNames st
          = (Ok tt, st, [IpcSend "file-delete-reply" (Reply (JBool false))])) as Hdel.
  { unfold UploaderManager.deleteFile.
    by rewrite run_bind, (getUploader_unresolved _ _ Hun). }
  assert (createDirectory id newDirectory st
          = (Ok tt, st, [IpcSend "directory-create-reply" (Reply (JBool false))]))
    as Hdir.
  { unfold UploaderManager.createDirectory.
    by rewrite run_bind, (getUploader_unresolved _ _ Hun). }
  split; [done|].
  intros id' uploaderProfile uploader Hfind Hreg.
  rewrite Hlist, Hdel, Hdir.
  split; [|split]; intros Hnone.
  - unfold UploaderManager.getFileList.
    by rewrite run_bind, (getUploader_resolved _ _ _ _ Hfind Hreg), Hnone.
  - unfold UploaderManager.deleteFile.
    by rewrite run_bind, (getUploader_resolved _ _ _ _ Hfind Hreg), Hnone.
  - unfold UploaderManager.createDirectory.
    by rewrite run_bind, (getUploader_resolved _ _ _ _ Hfind Hreg), Hnone.
Qed.

End ManagerFacts.

(** *** Concrete batches *)

(** The backend throws on [bad.png]: nothing of the batch reaches the
    history, not the failure and not the success of [a.png]. *)
Lemma upload_exception_drops_batch :
  let run := Fixtures.upload "URL" true [Fixtures.profile1] [0; 1]
               ["a.png"; "bad.png"] "" None false Fixtures.emptyState in
  Uploader.upload Fixtures.demo [] "bad.png" "id2.png" None false
    = Throw {| message := "ECONNRESET" |} ∧
  Uploader.upload Fixtures.demo [] "a.png" "id0.png" None false
    = Ok (Response.Success {| Response.url := Some "https://x/a.png";
                              Response.size := None |}) ∧
  uploads_called (trace_of run) = ["a.png"; "bad.png"] ∧
  history_adds (trace_of run) = [] ∧
  history (state_of run) = [] ∧
  notifications (trace_of run) = [("上传操作异常", "ECONNRESET")].
Proof. vm_compute. done. Qed.

Lemma upload_backend_exception_witness :
  let run := Fixtures.upload "URL" true [Fixtures.profile1] [1; 0]
               ["a.png"; "bad.png"] "" None false Fixtures.emptyState in
  ∃ file fileName err,
    file ∈ ["a.png"; "bad.png"] ∧
    Uploader.upload Fixtures.demo [] file fileName None false = Throw err ∧
    result_of run = Ok JUndefined ∧
    notifications (trace_of run) = [("上传操作异常", message err)] ∧
    uploads_called (trace_of run) = ["a.png"; "bad.png"] ∧
    history_adds (trace_of run) = [] ∧
    history (state_of run) = [] ∧
    clipboard_writes (trace_of run) = [] ∧
    messages (trace_of run) = [].
Proof.
  apply (upload_backend_exception (Fixtures.settings "URL" true) [Fixtures.profile1]
           Fixtures.registry Fixtures.history_add false Fixtures.uuidv4
           Fixtures.getTime Fixtures.extname Fixtures.mime_lookup
           Fixtures.typeErrorMessage [1; 0] ["a.png"; "bad.png"] "" None false
           Fixtures.emptyState Fixtures.profile1 Fixtures.demo).
  - reflexivity.
  - reflexivity.
  - apply perm_swap.
  - exists "bad.png". split; [by right; left|]. intros fileName. by eexists.
Defined.

Lemma upload_one_record_per_file_witness :
  let run := Fixtures.upload "URL" true [Fixtures.profile1] [1; 0]
               ["a.png"; "no.png"] "" None false Fixtures.emptyState in
  ∃ successRes failRes,
    Forall (UploaderManager.succeededOn Fixtures.demo [] None false) successRes ∧
    Forall (UploaderManager.failedOn Fixtures.demo [] None false) failRes ∧
    length successRes + length failRes = 2 ∧
    history_adds (trace_of run) = [failRes ++ successRes] ∧
    UploadedFileInfo.path <$> (failRes ++ successRes) ≡ₚ ["a.png"; "no.png"] ∧
    history (state_of run) = Fixtures.history_add (failRes ++ successRes) [].
Proof.
  apply (upload_one_record_per_file (Fixtures.settings "URL" true) [Fixtures.profile1]
           Fixtures.registry Fixtures.history_add false Fixtures.uuidv4
           Fixtures.getTime Fixtures.extname Fixtures.mime_lookup
           Fixtures.typeErrorMessage [1; 0] ["a.png"; "no.png"] "" None false
           Fixtures.emptyState Fixtures.profile1 Fixtures.demo).
  - reflexivity.
  - reflexivity.
  - apply perm_swap.
  - intros file fileName Hfile.
    apply elem_of_cons in Hfile as [->|Hfile]; [by eexists|].
    apply elem_of_cons in Hfile as [->|Hfile]; [by eexists|].
    by apply elem_of_nil in Hfile.
Defined.

(** In managed mode, a single successful upload with [autoCopy] writes the
    clipboard and notifies, and a batch of two is summarised. *)
Lemma upload_managed_not_silent :
  let single := Fixtures.upload "URL" true [Fixtures.profile1] [0]
                  ["a.png"] "" None true Fixtures.emptyState in
  let batch := Fixtures.upload "URL" true [Fixtures.profile1] [0; 1]
                 ["a.png"; "b.png"] "" None true Fixtures.emptyState in
  clipboard_writes (trace_of single) = ["https://x/a.png"] ∧
  clipboard (state_of single) = "https://x/a.png" ∧
  notifications (trace_of single) = [("上传成功", "链接已自动复制到粘贴板")] ∧
  notifications (trace_of batch) = [("批量上传成功", "总共2个文件")] ∧
  ("file-upload-reply", NoPayload) ∈ messages (trace_of single) ∧
  ("file-upload-reply", NoPayload) ∈ messages (trace_of batch).
Proof. vm_compute. repeat split; repeat constructor. Qed.

Lemma upload_managed_presents_witness :
  let run := Fixtures.upload "URL" true [Fixtures.profile1] [0]
               ["a.png"] "" None true Fixtures.emptyState in
  ∃ successRes failRes prefix st2,
    length successRes + length failRes = 1 ∧
    trace_of run
    = prefix ++ IpcSend "file-upload-reply" NoPayload ::
      trace_of (UploaderManager.presentResult (Fixtures.settings "URL" true)
                  Fixtures.typeErrorMessage ["a.png"] successRes failRes st2) ∧
    notifications prefix = [] ∧ clipboard_writes prefix = [].
Proof.
  destruct (upload_managed_presents (Fixtures.settings "URL" true) [Fixtures.profile1]
              Fixtures.registry Fixtures.history_add false Fixtures.uuidv4
              Fixtures.getTime Fixtures.extname Fixtures.mime_lookup
              Fixtures.typeErrorMessage [0] ["a.png"] "" None
              Fixtures.emptyState Fixtures.profile1 Fixtures.demo)
    as (successRes & failRes & prefix & st2 & _ & _ & Hlen & _ & Htrace & _ & Hn & Hcw & _).
  - reflexivity.
  - reflexivity.
  - reflexivity.
  - intros file fileName Hfile.
    apply elem_of_cons in Hfile as [->|Hfile]; [by eexists|].
    by apply elem_of_nil in Hfile.
  - discriminate.
  - exists successRes, failRes, prefix, st2. by repeat split.
Defined.

Lemma upload_empty_batch_witness :
  let run := Fixtures.upload "URL" true [Fixtures.profile1] []
               [] "" None false Fixtures.emptyState in
  result_of run = Ok JUndefined ∧
  trace_of run
  = [ChangeOptions "demo" []; HistoryAdd [];
     IpcSend "uploaded-files-get-reply" (UploadedFiles []);
     NotificationShow "上传操作异常" "Cannot read property 'errorMessage' of undefined"
       false] ∧
  notifications (trace_of run)
  = [("上传操作异常", "Cannot read property 'errorMessage' of undefined")].
Proof.
  apply (upload_empty_batch (Fixtures.settings "URL" true) [Fixtures.profile1]
           Fixtures.registry Fixtures.history_add false Fixtures.uuidv4
           Fixtures.getTime Fixtures.extname Fixtures.mime_lookup
           Fixtures.typeErrorMessage [] "" None false
           Fixtures.emptyState Fixtures.profile1 Fixtures.demo); reflexivity.
Defined.

Lemma upload_profile_missing_witness :
  Fixtures.upload "URL" true [Fixtures.profile1] [0] ["a.png"] "p9" None false
    Fixtures.emptyState
  = (Ok (JBool false), Fixtures.emptyState,
     [NotificationShow "上传操作异常" "上传器配置不存在" false]) ∧
  Fixtures.upload "URL" true [] [0] ["a.png"] "" None false Fixtures.emptyState
  = (Ok (JBool false), Fixtures.emptyState,
     [NotificationShow "上传操作异常" "请添加上传器配置" false]) ∧
  Fixtures.upload "URL" true [Fixtures.profile2] [0] ["a.png"] "" None false
    Fixtures.emptyState
  = (Ok (JBool false), Fixtures.emptyState,
     [NotificationShow "上传操作异常" "请配置默认的上传器" false]).
Proof.
  split; [|split].
  - eapply eq_trans;
      [apply (upload_profile_missing (Fixtures.settings "URL" true) [Fixtures.profile1]
                Fixtures.registry Fixtures.history_add false Fixtures.uuidv4
                Fixtures.getTime Fixtures.extname Fixtures.mime_lookup
                Fixtures.typeErrorMessage [0] ["a.png"] "p9" None false
                Fixtures.emptyState); reflexivity|reflexivity].
  - eapply eq_trans;
      [apply (upload_profile_missing (Fixtures.settings "URL" true) []
                Fixtures.registry Fixtures.history_add false Fixtures.uuidv4
                Fixtures.getTime Fixtures.extname Fixtures.mime_lookup
                Fixtures.typeErrorMessage [0] ["a.png"] "" None false
                Fixtures.emptyState); reflexivity|reflexivity].
  - eapply eq_trans;
      [apply (upload_profile_missing (Fixtures.settings "URL" true) [Fixtures.profile2]
                Fixtures.registry Fixtures.history_add false Fixtures.uuidv4
                Fixtures.getTime Fixtures.extname Fixtures.mime_lookup
                Fixtures.typeErrorMessage [0] ["a.png"] "" None false
                Fixtures.emptyState); reflexivity|reflexivity].
Defined.

Lemma handleSingleUploaded_other_urlType_witness :
  let successFile :=
    {| UploadedFileInfo.id := Some "id1"; UploadedFileInfo.name := Some "id0.png";
       UploadedFileInfo.url := Some "https://x/a.png";
       UploadedFileInfo.type := "image/png";
       UploadedFileInfo.uploaderProfileId := "p1"; UploadedFileInfo.path := "a.png";
       UploadedFileInfo.size := None; UploadedFileInfo.date := 1000;
       UploadedFileInfo.errorMessage := None |} in
  UploaderManager.handleSingleUploaded (Fixtures.settings "BBCode" true)
    Fixtures.typeErrorMessage (Some successFile) None Fixtures.emptyState
  = (Ok (Some "https://x/a.png"), Fixtures.emptyState, []).
Proof.
  intros successFile.
  apply (handleSingleUploaded_other_urlType (Fixtures.settings "BBCode" true)
           Fixtures.typeErrorMessage successFile None Fixtures.emptyState);
    discriminate.
Defined.

Lemma file_management_unresolved_witness :
  UploaderManager.getFileList [Fixtures.profile1; Fixtures.profile2] Fixtures.registry
    "p2" None Fixtures.emptyState
  = (Ok tt, Fixtures.emptyState, [IpcSend "file-list-get-reply" (Reply (JArr []))]) ∧
  UploaderManager.deleteFile [Fixtures.profile1; Fixtures.profile2] Fixtures.registry
    "p2" ["a.png"] Fixtures.emptyState
  = (Ok tt, Fixtures.emptyState, [IpcSend "file-delete-reply" (Reply (JBool false))]) ∧
  UploaderManager.createDirectory [Fixtures.profile1; Fixtures.profile2]
    Fixtures.registry "p2" "photos" Fixtures.emptyState
  = (Ok tt, Fixtures.emptyState,
     [IpcSend "directory-create-reply" (Reply (JBool false))]).
Proof.
  apply (file_management_unresolved [Fixtures.profile1; Fixtures.profile2]
           Fixtures.registry "p2" None ["a.png"] "photos" Fixtures.emptyState).
  right. exists Fixtures.profile2. by split.
Defined.

(** * Further properties *)

(** ** The upload orchestrator *)

Section ManagerMore.

Context (configuration : Configuration.t)
        (uploaderProfiles : list UploaderProfile.t)
        (getUploaderByName : string → option Uploader.t)
        (history_add : list UploadedFileInfo.t → list UploadedFileInfo.t →
                       list UploadedFileInfo.t)
        (winIsDestroyed : bool)
        (uuidv4 : nat → string)
        (getTime : nat → Z)
        (extname : string → string)
        (mime_lookup : string → option string)
        (typeErrorMessage : string → string).

Import UploaderManager.

Local Abbreviation handleSingleUploaded :=
  (UploaderManager.handleSingleUploaded configuration typeErrorMessage).
Local Abbreviation handleAddHistory :=
  (UploaderManager.handleAddHistory history_add winIsDestroyed).
Local Abbreviation start :=
  (UploaderManager.start uuidv4 getTime extname mime_lookup).
Local Abbreviation presentResult :=
  (UploaderManager.presentResult configuration typeErrorMessage).
Local Abbreviation runBatch :=
  (UploaderManager.runBatch configuration history_add winIsDestroyed
     uuidv4 getTime extname mime_lookup typeErrorMessage).
Local Abbreviation wantedProfileId := (UploaderManager.wantedProfileId configuration).
Local Abbreviation findProfile := (UploaderManager.findProfile uploaderProfiles).
Local Abbreviation missingProfileMessage :=
  (UploaderManager.missingProfileMessage uploaderProfiles).
Local Abbreviation upload :=
  (UploaderManager.upload configuration uploaderProfiles getUploaderByName
     history_add winIsDestroyed uuidv4 getTime extname mime_lookup typeErrorMessage).
Local Abbreviation getUploader :=
  (UploaderManager.getUploader uploaderProfiles getUploaderByName).
Local Abbreviation getFileList :=
  (UploaderManager.getFileList uploaderProfiles getUploaderByName).
Local Abbreviation deleteFile :=
  (UploaderManager.deleteFile uploaderProfiles getUploaderByName).
Local Abbreviation createDirectory :=
  (UploaderManager.createDirectory uploaderProfiles getUploaderByName).
Local Abbreviation historyEvents :=
  (UploaderManager.historyEvents history_add winIsDestroyed).
Local Abbreviation unresolved :=
  (UploaderManager.unresolved uploaderProfiles getUploaderByName).
Local Abbreviation launch :=
  (UploaderManager.launch configuration uploaderProfiles getUploaderByName
     uuidv4 getTime extname mime_lookup).
Local Abbreviation resume :=
  (UploaderManager.resume configuration history_add winIsDestroyed typeErrorMessage).
Local Abbreviation resolutionFailure :=
  (UploaderManager.resolutionFailure configuration uploaderProfiles getUploaderByName).
Local Abbreviation uploadByDifferentUploaderProfileIds :=
  (UploaderManager.uploadByDifferentUploaderProfileIds configuration uploaderProfiles
     getUploaderByName history_add winIsDestroyed uuidv4 getTime extname mime_lookup
     typeErrorMessage).
Local Abbreviation fileNameAt := (UploaderManager.fileNameAt uuidv4 extname).
Local Abbreviation baseInfoAt :=
  (UploaderManager.baseInfoAt uuidv4 getTime extname mime_lookup).
Local Abbreviation fileTypeOf := (UploaderManager.fileTypeOf mime_lookup).

Ltac head_apart :=
  change (ChangeOptions ?n ?o :: ?l) with ([ChangeOptions n o] ++ l).

(** *** A batch that reaches the aggregation step *)



(** *** The single-file presentation *)


(** With [autoCopy] and [autoRecover], the text the clipboard held before
    the upload is read first and a timer of five seconds is set; when it
    fires, the clipboard gets back that text, whatever it holds by then,
    and the restoration is notified, also when [showNotifaction] is off. *)
Theorem handleSingleUploaded_autoRecover successFile failFile clipboardUrl st :
  formatUrl (Configuration.urlType configuration) (UploadedFileInfo.url successFile)
    = Some clipboardUrl →
  Configuration.autoCopy configuration = true →
  Configuration.autoRecover configuration = true →
  let run := handleSingleUploaded (Some successFile) failFile st in
  clipboard (state_of run) = or_empty clipboardUrl ∧
  head (trace_of run) = Some ClipboardReadText ∧
  ∃ callback,
    timers (trace_of run) = [(5000%Z, callback)] ∧
    ∀ st',
      let fired := fire callback st' in
      result_of fired = Ok tt ∧
      clipboard (state_of fired) = clipboard st ∧
      history (state_of fired) = history st' ∧
      notifications (trace_of fired)
      = [("粘贴板已恢复", "已自动恢复上次粘贴板中的内容")].
Proof.
  intros Hformat Hcopy Hrecover. unfold UploaderManager.handleSingleUploaded.
  rewrite Hformat, Hcopy, Hrecover.
  destruct (Configuration.showNotifaction configuration);
    (split; [done|]); (split; [done|]); eexists; (split; [reflexivity|]);
    by intros st'.
Qed.

(** Without [autoCopy], a success whose URL format is known leaves the
    clipboard alone (the state is unchanged) and shows the formatted link
    in one notification, or nothing when [showNotifaction] is off. *)
Theorem handleSingleUploaded_no_autoCopy successFile failFile clipboardUrl st :
  formatUrl (Configuration.urlType configuration) (UploadedFileInfo.url successFile)
    = Some clipboardUrl →
  Configuration.autoCopy configuration = false →
  handleSingleUploaded (Some successFile) failFile st
  = (Ok None, st,
     if Configuration.showNotifaction configuration
     then [NotificationShow "上传成功" (or_empty clipboardUrl)
             (negb (Configuration.sound configuration))]
     else []).
Proof.
  intros Hformat Hcopy. unfold UploaderManager.handleSingleUploaded.
  rewrite Hformat, Hcopy.
  by destruct (Configuration.showNotifaction configuration).
Qed.

(** A single failure is always notified, whatever [showNotifaction] and
    [sound] say, with the message of the failure, or with the placeholder
    when the message is missing or empty; nothing else happens. *)
Theorem handleSingleUploaded_failure failFile st :
  handleSingleUploaded None (Some failFile) st
  = (Ok None, st,
     [NotificationShow "上传失败"
        (match UploadedFileInfo.errorMessage failFile with
         | Some "" | None => "错误未捕获"
         | Some m => m
         end) false]).
Proof.
  unfold UploaderManager.handleSingleUploaded.
  by destruct (UploadedFileInfo.errorMessage failFile) as [[|c m]|].
Qed.

(** *** Resolution *)

(** When the profile is found and the registry does not know its backend,
    [upload] shows one notification that names the backend, returns
    [false] and does nothing else: no backend is configured or called and
    the history is left alone. *)
Theorem upload_backend_missing order files customUploaderProfileId directoryPath
    isFromFileManage st uploaderProfile :
  findProfile (wantedProfileId customUploaderProfileId) = Some uploaderProfile →
  getUploaderByName (UploaderProfile.uploaderName uploaderProfile) = None →
  upload order files customUploaderProfileId directoryPath isFromFileManage st
  = (Ok (JBool false), st,
     [NotificationShow "上传操作异常"
        ("没有找到" +:+ UploaderProfile.uploaderName uploaderProfile +:+ "上传器")
        false]).
Proof.
  intros Hfind Hreg. unfold UploaderManager.upload, M_try. by rewrite Hfind, Hreg.
Qed.

(** *** File management on a backend that has the operation *)

(** The steps common to the three operations: the backend is resolved
    and configured, and the operation run with the options just stored. *)
Ltac run_operation :=
  match goal with
  | Hfind : UploaderManager.findProfile _ _ = Some _,
    Hreg : _ = Some ?uploader,
    Hop : _ ?uploader = Some ?operation,
    Hdata : ?operation _ _ = _ |- _ =>
      rewrite run_bind, (getUploader_resolved _ _ _ _ _ _ Hfind Hreg), Hop;
      rewrite run_bind; unfold currentOptions at 1;
      match goal with
      | |- context [default [] (backendOptions ?s !! Uploader.name uploader)] =>
          change (default [] (backendOptions s !! Uploader.name uploader))
            with (optionsIn s uploader)
      end;
      rewrite optionsIn_set, run_bind; unfold lift at 1; by rewrite Hdata
  end.

(** With a profile whose backend has the operation, the backend is given
    the options of the profile, the operation is run with them, and what
    it returns is sent, once, on the reply channel. *)
Theorem file_management_replies id directoryPath fileNames newDirectory st
    uploaderProfile uploader :
  findProfile id = Some uploaderProfile →
  getUploaderByName (UploaderProfile.uploaderName uploaderProfile) = Some uploader →
  let newOptions := UploaderProfile.uploaderOptions uploaderProfile in
  let st' := set_backendOptions (Uploader.name uploader) newOptions st in
  let configured := ChangeOptions (Uploader.name uploader) newOptions in
  (∀ operation data,
     Uploader.getFileList uploader = Some operation →
     operation newOptions directoryPath = Ok data →
     getFileList id directoryPath st
     = (Ok tt, st', [configured; IpcSend "file-list-get-reply" (Reply data)])) ∧
  (∀ operation res,
     Uploader.deleteFile uploader = Some operation →
     operation newOptions fileNames = Ok res →
     deleteFile id fileNames st
     = (Ok tt, st', [configured; IpcSend "file-delete-reply" (Reply res)])) ∧
  (∀ operation data,
     Uploader.createDirectory uploader = Some operation →
     operation newOptions newDirectory = Ok data →
     createDirectory id newDirectory st
     = (Ok tt, st', [configured; IpcSend "directory-create-reply" (Reply data)])).
Proof.
  intros Hfind Hreg. cbv zeta.
  split; [|split]; intros operation data Hop Hdata.
  - unfold UploaderManager.getFileList. run_operation.
  - unfold UploaderManager.deleteFile. run_operation.
  - unfold UploaderManager.createDirectory. run_operation.
Qed.

(** An exception of a file-management operation is not caught: it leaves
    the function, after the backend was configured, and no reply is sent
    and no notification shown. *)
Theorem file_management_throws id directoryPath fileNames newDirectory st
    uploaderProfile uploader :
  findProfile id = Some uploaderProfile →
  getUploaderByName (UploaderProfile.uploaderName uploaderProfile) = Some uploader →
  let newOptions := UploaderProfile.uploaderOptions uploaderProfile in
  let st' := set_backendOptions (Uploader.name uploader) newOptions st in
  let configured := ChangeOptions (Uploader.name uploader) newOptions in
  (∀ operation err,
     Uploader.getFileList uploader = Some operation →
     operation newOptions directoryPath = Throw err →
     getFileList id directoryPath st = (Throw err, st', [configured])) ∧
  (∀ operation err,
     Uploader.deleteFile uploader = Some operation →
     operation newOptions fileNames = Throw err →
     deleteFile id fileNames st = (Throw err, st', [configured])) ∧
  (∀ operation err,
     Uploader.createDirectory uploader = Some operation →
     operation newOptions newDirectory = Throw err →
     createDirectory id newDirectory st = (Throw err, st', [configured])).
Proof.
  intros Hfind Hreg. cbv zeta.
  split; [|split]; intros operation data Hop Hdata.
  - unfold UploaderManager.getFileList. run_operation.
  - unfold UploaderManager.deleteFile. run_operation.
  - unfold UploaderManager.createDirectory. run_operation.
Qed.

(** *** The records of a batch *)

(** What [files.map] leaves: for the file of index [i], its record before
    the upload and the answer of the backend, called with the name of the
    record; two identifiers and one clock reading are drawn per file. *)
Lemma for_each_start_exact uploader uploaderProfile directoryPath isFromFileManage
    files :
  ∀ st,
    for_each (start uploader uploaderProfile directoryPath isFromFileManage) files st
    = (Ok (imap (λ i file,
                   (baseInfoAt uploaderProfile (uuids st) (ticks st) i file,
                    Uploader.upload uploader (optionsIn st uploader) file
                      (fileNameAt (uuids st) i file) directoryPath isFromFileManage))
                files),
       {| history := history st; clipboard := clipboard st;
          backendOptions := backendOptions st;
          uuids := 2 * length files + uuids st;
          ticks := length files + ticks st |},
       imap (λ i file,
               UploaderUpload (Uploader.name uploader) file
                 (fileNameAt (uuids st) i file) directoryPath isFromFileManage)
            files).
Proof.
  induction files as [|file files IH]; intros st.
  - by destruct st.
  - simpl for_each. rewrite run_bind.
    change (start uploader uploaderProfile directoryPath isFromFileManage file st)
      with (Ok (baseInfoAt uploaderProfile (uuids st) (ticks st) 0 file,
                Uploader.upload uploader (optionsIn st uploader) file
                  (fileNameAt (uuids st) 0 file) directoryPath isFromFileManage),
            next_tick (next_uuid (next_uuid st)),
            [UploaderUpload (Uploader.name uploader) file
               (fileNameAt (uuids st) 0 file) directoryPath isFromFileManage]).
    cbv beta iota. rewrite run_bind, IH.
    cbn -[UploaderManager.baseInfoAt UploaderManager.fileNameAt Nat.mul Nat.add imap].
    rewrite app_nil_r, !imap_cons.
    assert (∀ i, 2 * i + S (S (uuids st)) = 2 * S i + uuids st) as Hu by (intros; lia).
    assert (∀ i, i + S (ticks st) = S i + ticks st) as Ht by (intros; lia).
    f_equal; [f_equal|].
    + f_equal. f_equal. apply imap_ext. intros i f _. simpl.
      unfold UploaderManager.baseInfoAt, UploaderManager.fileNameAt.
      by rewrite Hu, Ht.
    + f_equal; lia.
    + f_equal. apply imap_ext. intros i f _. simpl.
      unfold UploaderManager.fileNameAt. by rewrite Hu.
Qed.

(** The uploads that settle push their records in the order in which
    they settle: each of the two lists keeps that order, and no record is
    moved, dropped or pushed twice. *)
Lemma settle_in_order started order :
  ∀ successRes failRes successRes' failRes',
    settle order started successRes failRes = Ok (successRes', failRes') →
    successRes' = successRes ++ omap (λ i, started !! i ≫= successRecord) order ∧
    failRes' = failRes ++ omap (λ i, started !! i ≫= failRecord) order.
Proof.
  induction order as [|i order IH]; intros successRes failRes successRes' failRes'.
  - simpl. intros [= <- <-]. by rewrite !app_nil_r.
  - simpl. destruct (started !! i) as [[baseInfo [[data|desc]|err]]|]; simpl.
    + intros Hrest. destruct (IH _ _ _ _ Hrest) as [-> ->].
      by rewrite <-app_assoc.
    + intros Hrest. destruct (IH _ _ _ _ Hrest) as [-> ->].
      by rewrite <-app_assoc.
    + done.
    + apply IH.
Qed.

(** The fan-in is rejected exactly when an upload in the settle order
    threw, and then with the exception of the first one in that order. *)
Lemma settle_first_rejection started order successRes failRes err :
  settle order started successRes failRes = Throw err ↔
  ∃ before i after baseInfo,
    order = before ++ i :: after ∧
    started !! i = Some (baseInfo, Throw err) ∧
    ∀ j s, j ∈ before → started !! j = Some s → ∃ r, s.2 = Ok r.
Proof.
  revert successRes failRes.
  induction order as [|i order IH]; intros successRes failRes.
  - split; [done|]. intros (before & i & after & baseInfo & Heq & _).
    by destruct before.
  - simpl. destruct (started !! i) as [[baseInfo outcome]|] eqn:Hi.
    + destruct outcome as [[data|desc]|err'].
      * rewrite IH. split.
        -- intros (before & j & after & b & -> & Hj & Hbefore).
           exists (i :: before), j, after, b. split; [done|]. split; [done|].
           intros k s Hk Hs. apply elem_of_cons in Hk as [->|Hk]; [|by eauto].
           rewrite Hi in Hs. inversion Hs. by eexists.
        -- intros (before & j & after & b & Heq & Hj & Hbefore).
           destruct before as [|k before]; simpl in Heq; inversion Heq; subst.
           { by rewrite Hi in Hj. }
           exists before, j, after, b. split; [done|]. split; [done|].
           intros k' s Hk'. apply Hbefore. by right.
      * rewrite IH. split.
        -- intros (before & j & after & b & -> & Hj & Hbefore).
           exists (i :: before), j, after, b. split; [done|]. split; [done|].
           intros k s Hk Hs. apply elem_of_cons in Hk as [->|Hk]; [|by eauto].
           rewrite Hi in Hs. inversion Hs. by eexists.
        -- intros (before & j & after & b & Heq & Hj & Hbefore).
           destruct before as [|k before]; simpl in Heq; inversion Heq; subst.
           { by rewrite Hi in Hj. }
           exists before, j, after, b. split; [done|]. split; [done|].
           intros k' s Hk'. apply Hbefore. by right.
      * split.
        -- intros [= ->]. exists [], i, order, baseInfo. split; [done|].
           split; [done|]. intros j s Hj. by apply elem_of_nil in Hj.
        -- intros (before & j & after & b & Heq & Hj & Hbefore).
           destruct before as [|k before]; simpl in Heq; inversion Heq; subst.
           { rewrite Hi in Hj. by inversion Hj. }
           destruct (Hbefore k _ ltac:(by left) Hi) as [r Hr]. done.
    + rewrite IH. split.
      * intros (before & j & after & b & -> & Hj & Hbefore).
        exists (i :: before), j, after, b. split; [done|]. split; [done|].
        intros k s Hk Hs. apply elem_of_cons in Hk as [->|Hk]; [|by eauto].
        by rewrite Hi in Hs.
      * intros (before & j & after & b & Heq & Hj & Hbefore).
        destruct before as [|k before]; simpl in Heq; inversion Heq; subst.
        { by rewrite Hi in Hj. }
        exists before, j, after, b. split; [done|]. split; [done|].
        intros k' s Hk'. apply Hbefore. by right.
Qed.

(** The uploads [upload] starts on a resolved backend: the records are
    prepared, and the backend called, with the identifiers and clock
    readings drawn from the state the call began in, and with the options
    of the profile. *)
Lemma upload_started uploader uploaderProfile directoryPath isFromFileManage files st :
  let newOptions := UploaderProfile.uploaderOptions uploaderProfile in
  let st0 := set_backendOptions (Uploader.name uploader) newOptions st in
  for_each (start uploader uploaderProfile directoryPath isFromFileManage) files st0
  = (Ok (imap (λ i file,
                 (baseInfoAt uploaderProfile (uuids st) (ticks st) i file,
                  Uploader.upload uploader newOptions file
                    (fileNameAt (uuids st) i file) directoryPath isFromFileManage))
              files),
     {| history := history st; clipboard := clipboard st;
        backendOptions := backendOptions st0;
        uuids := 2 * length files + uuids st;
        ticks := length files + ticks st |},
     imap (λ i file,
             UploaderUpload (Uploader.name uploader) file
               (fileNameAt (uuids st) i file) directoryPath isFromFileManage)
          files).
Proof.
  intros newOptions st0. rewrite for_each_start_exact.
  f_equal. f_equal. f_equal. apply imap_ext. intros i file _. simpl.
  unfold st0. by rewrite optionsIn_set.
Qed.

Lemma history_adds_uploads uploaderName directoryPath isFromFileManage
    (fileName : nat → string → string) files :
  history_adds (imap (λ i file, UploaderUpload uploaderName file (fileName i file)
                                  directoryPath isFromFileManage) files) = [] ∧
  notifications (imap (λ i file, UploaderUpload uploaderName file (fileName i file)
                                   directoryPath isFromFileManage) files) = [] ∧
  clipboard_writes (imap (λ i file, UploaderUpload uploaderName file (fileName i file)
                                      directoryPath isFromFileManage) files) = [] ∧
  messages (imap (λ i file, UploaderUpload uploaderName file (fileName i file)
                              directoryPath isFromFileManage) files) = [] ∧
  uploads_called (imap (λ i file, UploaderUpload uploaderName file (fileName i file)
                                    directoryPath isFromFileManage) files) = files.
Proof.
  revert fileName. induction files as [|file files IH]; intros fileName; [done|].
  rewrite imap_cons. unfold compose.
  pose proof (IH (λ i, fileName (S i))) as (Hh & Hn & Hc & Hm & Hu).
  cbv beta in Hh, Hn, Hc, Hm, Hu.
  unfold history_adds, notifications, clipboard_writes, messages, uploads_called in *.
  cbn [omap list_omap]. rewrite Hh, Hn, Hc, Hm, Hu. done.
Qed.

(** The run of [upload] on a resolved backend, in closed form, when the
    uploads that settle all return. *)
Lemma upload_run_closed order files customUploaderProfileId directoryPath
    isFromFileManage st uploaderProfile uploader successRes failRes :
  findProfile (wantedProfileId customUploaderProfileId) = Some uploaderProfile →
  getUploaderByName (UploaderProfile.uploaderName uploaderProfile) = Some uploader →
  let newOptions := UploaderProfile.uploaderOptions uploaderProfile in
  let started :=
    imap (λ i file,
            (baseInfoAt uploaderProfile (uuids st) (ticks st) i file,
             Uploader.upload uploader newOptions file
               (fileNameAt (uuids st) i file) directoryPath isFromFileManage))
         files in
  settle order started [] [] = Ok (successRes, failRes) →
  let uploadedData :=
    omap (λ i, started !! i ≫= failRecord) order ++
    omap (λ i, started !! i ≫= successRecord) order in
  ∃ st2,
    history st2 = history_add uploadedData (history st) ∧
    clipboard st2 = clipboard st ∧
    let presented := presentResult files successRes failRes st2 in
    upload order files customUploaderProfileId directoryPath isFromFileManage st
    = (Ok JUndefined, state_of presented,
       [ChangeOptions (Uploader.name uploader) newOptions] ++
       imap (λ i file,
               UploaderUpload (Uploader.name uploader) file
                 (fileNameAt (uuids st) i file) directoryPath isFromFileManage)
            files ++
       historyEvents uploadedData (history st) ++
       managedEvents isFromFileManage ++
       trace_of presented ++ caught (result_of presented)).
Proof.
  intros Hfind Hreg newOptions started Hsettle uploadedData.
  pose proof (upload_started uploader uploaderProfile directoryPath isFromFileManage
                files st) as Hfor.
  cbv zeta in Hfor. fold newOptions started in Hfor.
  destruct (settle_in_order _ _ _ _ _ _ Hsettle) as [Hs Hf]. simpl in Hs, Hf.
  assert (failRes ++ successRes = uploadedData) as Hdata by (by rewrite Hs, Hf).
  eexists. split; [|split]; [| |cbv zeta].
  3:{ rewrite (upload_resolved _ _ _ _ _ _ _ _ _ _ _ _ _ _ _ _ _ _ Hfind Hreg).
      fold newOptions.
      rewrite (runBatch_settled _ _ _ _ _ _ _ _ _ _ _ _ _ _ _ _ _ _ _ _ Hfor Hsettle).
      rewrite Hdata. rewrite !trace_of_run, !state_of_run, !result_of_run.
      cbn [history]. rewrite <-!app_assoc. reflexivity. }
  - done.
  - done.
Qed.

(** The uploads of a batch that all settle, none throwing: the records
    pushed are those of all the started uploads, one per file. *)
Lemma settle_Ok_all started order :
  ∀ successRes failRes res,
    settle order started successRes failRes = Ok res →
    ∀ i s, i ∈ order → started !! i = Some s → ∃ r, s.2 = Ok r.
Proof.
  induction order as [|j order IH]; intros successRes failRes res Hsettle i s Hi Hs.
  { by apply elem_of_nil in Hi. }
  simpl in Hsettle.
  apply elem_of_cons in Hi as [->|Hi].
  - rewrite Hs in Hsettle. destruct s as [baseInfo [[data|desc]|err]]; simpl in *;
      [by eexists|by eexists|done].
  - destruct (started !! j) as [[baseInfo [[data|desc]|err]]|]; simpl in Hsettle;
      [by eapply IH..|done|by eapply IH].
Qed.

Lemma omap_lookup_bind {A B : Type} (l : list A) (f : A → option B) (order : list nat) :
  omap (λ i, l !! i ≫= f) order = omap f (omap (λ i, l !! i) order).
Proof.
  induction order as [|i order IH]; [done|].
  cbn [omap list_omap]. destruct (l !! i) as [a|]; simpl; [|done].
  cbn [omap list_omap]. by rewrite IH.
Qed.

Lemma records_length (started : list (UploadedFileInfo.t * Result Response.t)) :
  Forall (λ s, ∃ r, s.2 = Ok r) started →
  length (omap successRecord started) + length (omap failRecord started)
  = length started.
Proof.
  induction 1 as [|[baseInfo outcome] started [r Hr] _ IH]; [done|].
  simpl in Hr. subst outcome. cbn [omap list_omap].
  unfold successRecord at 1, failRecord at 1.
  destruct r as [data|desc]; simpl; lia.
Qed.

Lemma settled_records (started : list (UploadedFileInfo.t * Result Response.t))
    order successRes failRes :
  order ≡ₚ seq 0 (length started) →
  settle order started [] [] = Ok (successRes, failRes) →
  successRes ≡ₚ omap successRecord started ∧
  failRes ≡ₚ omap failRecord started ∧
  length successRes + length failRes = length started.
Proof.
  intros Horder Hsettle.
  destruct (settle_in_order _ _ _ _ _ _ Hsettle) as [Hs Hf]. simpl in Hs, Hf.
  assert (successRes ≡ₚ omap successRecord started) as Hsp.
  { by rewrite Hs, omap_lookup_bind, (omap_lookup_Permutation _ _ Horder). }
  assert (failRes ≡ₚ omap failRecord started) as Hfp.
  { by rewrite Hf, omap_lookup_bind, (omap_lookup_Permutation _ _ Horder). }
  split; [done|]. split; [done|].
  rewrite Hsp, Hfp. apply records_length.
  apply Forall_forall. intros s Hin. apply list_elem_of_lookup in Hin as [i Hi].
  apply (settle_Ok_all _ _ _ _ _ Hsettle i s); [|done].
  rewrite Horder. apply elem_of_seq. apply lookup_lt_Some in Hi. lia.
Qed.

(** A success record carries the URL and the size the backend returned. *)
Lemma success_fields (started : list (UploadedFileInfo.t * Result Response.t))
    (order : list nat) :
  (λ r, (UploadedFileInfo.url r, UploadedFileInfo.size r))
    <$> omap (λ i, started !! i ≫= successRecord) order
  = omap (λ i, started !! i ≫= successData) order.
Proof.
  induction order as [|i order IH]; [done|].
  cbn [omap list_omap]. destruct (started !! i) as [[baseInfo outcome]|]; [|done].
  destruct outcome as [[data|desc]|err]; [|done..].
  cbn. by f_equal.
Qed.

(** A batch whose uploads all return settles, whatever the order. *)
Lemma uploads_settle order files directoryPath isFromFileManage st uploaderProfile
    uploader :
  (∀ i file, files !! i = Some file →
     ∃ r, Uploader.upload uploader (UploaderProfile.uploaderOptions uploaderProfile)
            file (fileNameAt (uuids st) i file) directoryPath isFromFileManage
          = Ok r) →
  let newOptions := UploaderProfile.uploaderOptions uploaderProfile in
  let started :=
    imap (λ i file,
            (baseInfoAt uploaderProfile (uuids st) (ticks st) i file,
             Uploader.upload uploader newOptions file
               (fileNameAt (uuids st) i file) directoryPath isFromFileManage))
         files in
  ∃ successRes failRes, settle order started [] [] = Ok (successRes, failRes).
Proof.
  intros Hreturn newOptions started.
  destruct (settle_returns started order) with (successRes := @nil UploadedFileInfo.t)
    (failRes := @nil UploadedFileInfo.t) as (successRes & failRes & Hsettle & _).
  { intros i s _ Hi. unfold started in Hi. rewrite list_lookup_imap in Hi.
    destruct (files !! i) as [file|] eqn:Hfile; [|done]. simpl in Hi.
    inversion Hi; subst s. simpl. by apply Hreturn. }
  by exists successRes, failRes.
Qed.

(** *** The batch summary *)


(** What the history is given. On a resolved backend, when the uploads
    of the batch have all settled, none throwing, [upload] gives the
    history one list of one record per file: the records of the uploads
    that failed, in the order in which they settled, then those of the
    uploads that succeeded, in that order. A failure record is the
    record prepared for its file (identifier, name, type, profile, path
    and date) with the description of the failure; a success record
    carries the URL and the size the backend returned. The backend was
    called once per file, in the order of the batch, with the name
    generated for the file. *)
Theorem upload_history_records order files customUploaderProfileId directoryPath
    isFromFileManage st uploaderProfile uploader :
  findProfile (wantedProfileId customUploaderProfileId) = Some uploaderProfile →
  getUploaderByName (UploaderProfile.uploaderName uploaderProfile) = Some uploader →
  order ≡ₚ seq 0 (length files) →
  (∀ i file, files !! i = Some file →
     ∃ r, Uploader.upload uploader (UploaderProfile.uploaderOptions uploaderProfile)
            file (fileNameAt (uuids st) i file) directoryPath isFromFileManage
          = Ok r) →
  let newOptions := UploaderProfile.uploaderOptions uploaderProfile in
  let started :=
    imap (λ i file,
            (baseInfoAt uploaderProfile (uuids st) (ticks st) i file,
             Uploader.upload uploader newOptions file
               (fileNameAt (uuids st) i file) directoryPath isFromFileManage))
         files in
  let failRes := omap (λ i, started !! i ≫= failRecord) order in
  let run := upload order files customUploaderProfileId directoryPath
               isFromFileManage st in
  (∃ successRes,
     history_adds (trace_of run) = [failRes ++ successRes] ∧
     history (state_of run) = history_add (failRes ++ successRes) (history st) ∧
     (λ r, (UploadedFileInfo.url r, UploadedFileInfo.size r)) <$> successRes
       = omap (λ i, started !! i ≫= successData) order ∧
     length successRes + length failRes = length files) ∧
  uploads_called (trace_of run) = files ∧
  ∀ i file, files !! i = Some file →
    UploaderUpload (Uploader.name uploader) file (fileNameAt (uuids st) i file)
      directoryPath isFromFileManage ∈ trace_of run.
Proof.
  intros Hfind Hreg Horder Hreturn newOptions started failRes' run.
  destruct (uploads_settle order files directoryPath isFromFileManage st
              uploaderProfile uploader Hreturn) as (successRes & failRes & Hsettle).
  fold newOptions started in Hsettle.
  destruct (settled_records started order successRes failRes) as (_ & _ & Hlen);
    [unfold started; by rewrite length_imap|done|].
  unfold started in Hlen. rewrite length_imap in Hlen. fold started in Hlen.
  destruct (upload_run_closed order files customUploaderProfileId directoryPath
              isFromFileManage st uploaderProfile uploader successRes failRes
              Hfind Hreg Hsettle) as (st2 & Hh & _ & Hrun).
  cbv zeta in Hrun. fold newOptions started in Hrun, Hh.
  destruct (settle_in_order _ _ _ _ _ _ Hsettle) as [Hs Hf]. simpl in Hs, Hf.
  fold failRes' in Hf. subst failRes.
  rewrite <-Hs in Hrun, Hh. fold failRes' in Hrun, Hh.
  subst run. rewrite Hrun. clear Hrun.
  rewrite !trace_of_run, !state_of_run.
  pose proof (presentResult_quiet configuration typeErrorMessage files
                successRes failRes' st2) as (Hpa & _ & Hpu & Hph).
  destruct (history_adds_uploads (Uploader.name uploader) directoryPath
              isFromFileManage (fileNameAt (uuids st)) files)
    as (Hha & _ & _ & _ & Hup).
  split; [|split].
  - exists successRes. split; [|split; [|split]].
    + rewrite !history_adds_app, history_adds_historyEvents,
        history_adds_managedEvents, history_adds_caught, Hha, Hpa.
      done.
    + by rewrite Hph.
    + rewrite Hs. apply success_fields.
    + done.
  - rewrite !uploads_called_app, Hup, Hpu.
    assert (∀ d s, uploads_called (historyEvents d s) = []) as ->
      by (intros; unfold UploaderManager.historyEvents; by destruct winIsDestroyed).
    assert (uploads_called (managedEvents isFromFileManage) = []) as ->
      by (by destruct isFromFileManage).
    assert (∀ A (r : Result A), uploads_called (caught r) = []) as ->
      by (by intros A []).
    simpl. by rewrite !app_nil_r.
  - intros i file Hi. right. apply elem_of_app. left.
    apply list_elem_of_lookup. exists i. by rewrite list_lookup_imap, Hi.
Qed.

(** What the UI is sent by a call that reaches the aggregation step:
    while the window lives, the whole history as the store returned it
    after the append (not only the new records), and then, in managed
    mode, [file-upload-reply]; nothing else. When the window is
    destroyed the history is still given its records, and a call that is
    not in managed mode sends nothing. *)
Theorem upload_messages order files customUploaderProfileId directoryPath
    isFromFileManage st uploaderProfile uploader successRes failRes :
  findProfile (wantedProfileId customUploaderProfileId) = Some uploaderProfile →
  getUploaderByName (UploaderProfile.uploaderName uploaderProfile) = Some uploader →
  let newOptions := UploaderProfile.uploaderOptions uploaderProfile in
  let started :=
    imap (λ i file,
            (baseInfoAt uploaderProfile (uuids st) (ticks st) i file,
             Uploader.upload uploader newOptions file
               (fileNameAt (uuids st) i file) directoryPath isFromFileManage))
         files in
  settle order started [] [] = Ok (successRes, failRes) →
  let run := upload order files customUploaderProfileId directoryPath
               isFromFileManage st in
  history (state_of run) = history_add (failRes ++ successRes) (history st) ∧
  (winIsDestroyed = false →
     messages (trace_of run)
     = ("uploaded-files-get-reply", UploadedFiles (history (state_of run))) ::
       (if isFromFileManage then [("file-upload-reply", NoPayload)] else [])) ∧
  (winIsDestroyed = true → isFromFileManage = false → messages (trace_of run) = []).
Proof.
  intros Hfind Hreg newOptions started Hsettle run.
  destruct (upload_run_closed order files customUploaderProfileId directoryPath
              isFromFileManage st uploaderProfile uploader successRes failRes
              Hfind Hreg Hsettle) as (st2 & Hh & _ & Hrun).
  cbv zeta in Hrun. fold newOptions started in Hrun, Hh.
  destruct (settle_in_order _ _ _ _ _ _ Hsettle) as [Hs Hf]. simpl in Hs, Hf.
  rewrite <-Hs, <-Hf in Hrun, Hh.
  subst run. rewrite Hrun. clear Hrun. rewrite !trace_of_run, !state_of_run.
  pose proof (presentResult_quiet configuration typeErrorMessage files
                successRes failRes st2) as (_ & Hpm & _ & Hph).
  destruct (history_adds_uploads (Uploader.name uploader) directoryPath
              isFromFileManage (fileNameAt (uuids st)) files)
    as (_ & _ & _ & Hm & _).
  assert (∀ A (r : Result A), messages (caught r) = []) as Hcaught by (by intros A []).
  rewrite Hph, Hh. split; [done|].
  rewrite !messages_app, Hm, Hpm, Hcaught. unfold UploaderManager.historyEvents.
  split.
  - intros ->. by destruct isFromFileManage.
  - by intros -> ->.
Qed.

(** When the first upload to be rejected, in the order in which the
    uploads settle, is that of the file of index [i], the notification of
    [upload] carries the message of its exception; the backend was called
    for every file, and neither the history nor the clipboard has
    changed. *)
Theorem upload_first_rejection order files customUploaderProfileId directoryPath
    isFromFileManage st uploaderProfile uploader before i after file err :
  findProfile (wantedProfileId customUploaderProfileId) = Some uploaderProfile →
  getUploaderByName (UploaderProfile.uploaderName uploaderProfile) = Some uploader →
  let newOptions := UploaderProfile.uploaderOptions uploaderProfile in
  order = before ++ i :: after →
  files !! i = Some file →
  Uploader.upload uploader newOptions file (fileNameAt (uuids st) i file)
    directoryPath isFromFileManage = Throw err →
  (∀ j file', j ∈ before → files !! j = Some file' →
     ∃ r, Uploader.upload uploader newOptions file' (fileNameAt (uuids st) j file')
            directoryPath isFromFileManage = Ok r) →
  let run := upload order files customUploaderProfileId directoryPath
               isFromFileManage st in
  trace_of run
  = [ChangeOptions (Uploader.name uploader) newOptions] ++
    imap (λ i file,
            UploaderUpload (Uploader.name uploader) file
              (fileNameAt (uuids st) i file) directoryPath isFromFileManage)
         files ++
    [NotificationShow "上传操作异常" (message err) false] ∧
  history (state_of run) = history st ∧
  clipboard (state_of run) = clipboard st.
Proof.
  intros Hfind Hreg newOptions Horder Hfile Hthrow Hbefore run.
  pose proof (upload_started uploader uploaderProfile directoryPath isFromFileManage
                files st) as Hfor.
  cbv zeta in Hfor. fold newOptions in Hfor.
  match type of Hfor with
  | _ = (Ok ?l, _, _) => set (started := l) in *
  end.
  assert (settle order started [] [] = Throw err) as Hsettle.
  { apply settle_first_rejection.
    exists before, i, after, (baseInfoAt uploaderProfile (uuids st) (ticks st) i file).
    split; [done|]. split.
    - unfold started. by rewrite list_lookup_imap, Hfile, <-Hthrow.
    - intros j s Hj Hs. unfold started in Hs. rewrite list_lookup_imap in Hs.
      destruct (files !! j) as [file'|] eqn:Hj'; [|done].
      simpl in Hs. inversion Hs; subst s. simpl. by apply Hbefore. }
  subst run.
  rewrite (upload_resolved _ _ _ _ _ _ _ _ _ _ _ _ _ _ _ _ _ _ Hfind Hreg).
  fold newOptions.
  rewrite (runBatch_rejected _ _ _ _ _ _ _ _ _ _ _ _ _ _ _ _ _ _ _ Hfor Hsettle).
  rewrite !trace_of_run, !state_of_run, !result_of_run. by repeat split.
Qed.

(** The identifier a record gets: that of the file of index [i]. *)
Lemma record_id_at uploaderProfile u0 t0 i file (outcome : Result Response.t) r :
  successRecord (baseInfoAt uploaderProfile u0 t0 i file, outcome) = Some r ∨
  failRecord (baseInfoAt uploaderProfile u0 t0 i file, outcome) = Some r →
  UploadedFileInfo.id r = Some (uuidv4 (S (2 * i + u0))) ∧
  UploadedFileInfo.name r = Some (fileNameAt u0 i file) ∧
  UploadedFileInfo.uploaderProfileId r = UploaderProfile.id uploaderProfile ∧
  UploadedFileInfo.path r = file ∧
  UploadedFileInfo.type r = fileTypeOf file ∧
  UploadedFileInfo.date r = getTime (i + t0).
Proof.
  unfold successRecord, failRecord. simpl.
  intros [Hr|Hr]; destruct outcome as [[data|desc]|err]; try done;
    by inversion Hr.
Qed.

Lemma omap_record_ids (started : list (UploadedFileInfo.t * Result Response.t))
    (record : UploadedFileInfo.t * Result Response.t → option UploadedFileInfo.t)
    (idOf : nat → option string) (order : list nat) :
  (∀ i s r, started !! i = Some s → record s = Some r →
     UploadedFileInfo.id r = idOf i) →
  UploadedFileInfo.id <$> omap (λ i, started !! i ≫= record) order
  = idOf <$> filter (λ i, is_Some (started !! i ≫= record)) order.
Proof.
  intros Hid. induction order as [|i order IH]; [done|].
  rewrite filter_cons. cbn [omap list_omap].
  destruct (started !! i ≫= record) as [r|] eqn:Hr.
  - rewrite decide_True by (by eexists). rewrite !fmap_cons, IH. f_equal.
    destruct (started !! i) as [s|] eqn:Hi; [|done]. by apply (Hid i s r).
  - rewrite decide_False by (by intros [? ?]). done.
Qed.

(** The failure records of one call whose uploads have all settled, none
    throwing. They come first in the list the history is given; each one
    carries the id of the profile [upload] resolved, the path of a file
    of the batch, the type found for that path, an identifier and a name,
    and neither a URL nor a size; and their identifiers are distinct when
    [uuidv4] never gives the same value twice. *)
Theorem upload_failure_records order files customUploaderProfileId directoryPath
    isFromFileManage st uploaderProfile uploader :
  findProfile (wantedProfileId customUploaderProfileId) = Some uploaderProfile →
  getUploaderByName (UploaderProfile.uploaderName uploaderProfile) = Some uploader →
  order ≡ₚ seq 0 (length files) →
  (∀ i file, files !! i = Some file →
     ∃ r, Uploader.upload uploader (UploaderProfile.uploaderOptions uploaderProfile)
            file (fileNameAt (uuids st) i file) directoryPath isFromFileManage
          = Ok r) →
  let newOptions := UploaderProfile.uploaderOptions uploaderProfile in
  let started :=
    imap (λ i file,
            (baseInfoAt uploaderProfile (uuids st) (ticks st) i file,
             Uploader.upload uploader newOptions file
               (fileNameAt (uuids st) i file) directoryPath isFromFileManage))
         files in
  let failRes := omap (λ i, started !! i ≫= failRecord) order in
  let run := upload order files customUploaderProfileId directoryPath
               isFromFileManage st in
  (∃ successRes, history_adds (trace_of run) = [failRes ++ successRes]) ∧
  failRes ≡ₚ omap failRecord started ∧
  Forall (λ r, UploadedFileInfo.uploaderProfileId r = UploaderProfile.id uploaderProfile ∧
               UploadedFileInfo.path r ∈ files ∧
               UploadedFileInfo.type r = fileTypeOf (UploadedFileInfo.path r) ∧
               is_Some (UploadedFileInfo.id r) ∧ is_Some (UploadedFileInfo.name r) ∧
               UploadedFileInfo.url r = None ∧ UploadedFileInfo.size r = None)
         failRes ∧
  ((∀ m n, uuidv4 m = uuidv4 n → m = n) → NoDup (UploadedFileInfo.id <$> failRes)).
Proof.
  intros Hfind Hreg Horder Hreturn newOptions started failRes' run.
  destruct (uploads_settle order files directoryPath isFromFileManage st
              uploaderProfile uploader Hreturn) as (successRes & failRes & Hsettle).
  fold newOptions started in Hsettle.
  destruct (settled_records started order successRes failRes) as (_ & Hfp & _);
    [unfold started; by rewrite length_imap|done|].
  destruct (upload_run_closed order files customUploaderProfileId directoryPath
              isFromFileManage st uploaderProfile uploader successRes failRes
              Hfind Hreg Hsettle) as (st2 & Hh & _ & Hrun).
  cbv zeta in Hrun. fold newOptions started in Hrun, Hh.
  destruct (settle_in_order _ _ _ _ _ _ Hsettle) as [Hs Hf]. simpl in Hs, Hf.
  fold failRes' in Hf. subst failRes.
  assert (∀ i s r, started !! i = Some s → failRecord s = Some r →
            ∃ file, files !! i = Some file ∧
              UploadedFileInfo.id r = Some (uuidv4 (S (2 * i + uuids st))) ∧
              UploadedFileInfo.name r = Some (fileNameAt (uuids st) i file) ∧
              UploadedFileInfo.uploaderProfileId r = UploaderProfile.id uploaderProfile ∧
              UploadedFileInfo.path r = file ∧
              UploadedFileInfo.type r = fileTypeOf file) as Hrec.
  { intros i s r Hi Hr. unfold started in Hi. rewrite list_lookup_imap in Hi.
    destruct (files !! i) as [file|]; [|done]. simpl in Hi. inversion Hi; subst s.
    exists file. split; [done|].
    destruct (record_id_at _ _ _ _ _ _ _ (or_intror Hr)) as (? & ? & ? & ? & ? & _).
    done. }
  split; [|split; [|split]].
  - exists successRes.
    subst run. rewrite Hrun, !trace_of_run.
    pose proof (presentResult_quiet configuration typeErrorMessage files
                  successRes failRes' st2) as (Hpa & _).
    destruct (history_adds_uploads (Uploader.name uploader) directoryPath
                isFromFileManage (fileNameAt (uuids st)) files) as (Hha & _).
    rewrite !history_adds_app, history_adds_historyEvents,
      history_adds_managedEvents, history_adds_caught, Hha, Hpa.
    by rewrite Hs.
  - done.
  - apply Forall_forall. intros r Hr.
    apply list_elem_of_omap in Hr as (i & _ & Hr).
    destruct (started !! i) as [s|] eqn:Hi; [|done]. simpl in Hr.
    destruct (Hrec i s r Hi Hr) as (file & Hfile & -> & -> & -> & Hp & ->).
    rewrite Hp. split; [done|]. split; [by eapply list_elem_of_lookup_2|].
    split; [done|]. split; [by eauto|]. split; [by eauto|].
    unfold started in Hi. rewrite list_lookup_imap, Hfile in Hi.
    simpl in Hi. inversion Hi; subst s.
    unfold failRecord in Hr. simpl in Hr.
    destruct (Uploader.upload _ _ _ _ _ _) as [[data|desc]|err]; try done.
    by inversion Hr.
  - intros Hinj. unfold failRes'.
    rewrite (omap_record_ids started failRecord
               (λ i, Some (uuidv4 (S (2 * i + uuids st))))).
    2:{ intros i s r Hi Hr. by destruct (Hrec i s r Hi Hr) as (file & _ & -> & _). }
    apply NoDup_fmap_2_strong.
    { intros m n _ _ [= Heq]. apply Hinj in Heq. lia. }
    apply NoDup_filter. rewrite Horder. apply NoDup_seq.
Qed.

(** *** Re-upload: the grouping *)

Lemma Set_spread_snoc xs x : Set_spread (xs ++ [x]) = Set_add (Set_spread xs) x.
Proof. unfold Set_spread. by rewrite foldl_app. Qed.

Lemma elem_of_Set_add seen x y : y ∈ Set_add seen x ↔ y ∈ seen ∨ y = x.
Proof.
  unfold Set_add. case_bool_decide as Hx.
  - split; [by left|]. by intros [?| ->].
  - rewrite elem_of_app, list_elem_of_singleton. done.
Qed.

Lemma NoDup_Set_add seen x : NoDup seen → NoDup (Set_add seen x).
Proof.
  intros Hseen. unfold Set_add. case_bool_decide as Hx; [done|].
  apply NoDup_app. split; [done|]. split; [|apply NoDup_singleton].
  intros y Hy Hin. apply list_elem_of_singleton in Hin. by subst.
Qed.

Lemma elem_of_Set_spread xs y : y ∈ Set_spread xs ↔ y ∈ xs.
Proof.
  induction xs as [|x xs IH] using rev_ind.
  - done.
  - rewrite Set_spread_snoc, elem_of_Set_add, IH, elem_of_app,
      list_elem_of_singleton. done.
Qed.

Lemma NoDup_Set_spread xs : NoDup (Set_spread xs).
Proof.
  induction xs as [|x xs IH] using rev_ind.
  - apply NoDup_nil_2.
  - rewrite Set_spread_snoc. by apply NoDup_Set_add.
Qed.

Lemma newData_ids data :
  (newData data).*1 = Set_spread (ReuploadItem.id <$> data).
Proof.
  unfold newData. generalize (Set_spread (ReuploadItem.id <$> data)) as ids.
  induction ids as [|id ids IH]; [done|]. rewrite !fmap_cons. simpl. by rewrite IH.
Qed.

Lemma concat_filter_cons {A B : Type} `{EqDecision B} (key : A → B) (x : A)
    (rest : list A) (keys : list B) :
  NoDup keys →
  concat ((λ k, filter (λ y, key y = k) (x :: rest)) <$> keys)
  ≡ₚ (if decide (key x ∈ keys) then [x] else []) ++
     concat ((λ k, filter (λ y, key y = k) rest) <$> keys).
Proof.
  induction 1 as [|k keys Hk Hnodup IH]; [done|].
  rewrite !fmap_cons. simpl. rewrite IH, filter_cons.
  destruct (decide (key x = k)) as [Heq|Hne];
    destruct (decide (key x ∈ keys)) as [Hin|Hnin];
    destruct (decide (key x ∈ k :: keys)) as [Hin'|Hnin']; simpl.
  - by rewrite Heq in Hin.
  - by rewrite Heq in Hin.
  - done.
  - destruct Hnin'. rewrite Heq. by left.
  - by rewrite Permutation_middle.
  - destruct Hnin'. by right.
  - apply elem_of_cons in Hin' as [?|?]; done.
  - done.
Qed.

Lemma concat_filter_all {A B : Type} `{EqDecision B} (key : A → B) (l : list A)
    (keys : list B) :
  NoDup keys → (∀ x, x ∈ l → key x ∈ keys) →
  concat ((λ k, filter (λ y, key y = k) l) <$> keys) ≡ₚ l.
Proof.
  intros Hnodup. induction l as [|x l IH]; intros Hall.
  - induction keys as [|k keys IHk]; [done|].
    rewrite fmap_cons. simpl. apply IHk. by apply NoDup_cons in Hnodup as [_ ?].
    intros x Hx. by apply elem_of_nil in Hx.
  - rewrite concat_filter_cons by done.
    rewrite decide_True by (apply Hall; by left).
    simpl. f_equiv. apply IH. intros y Hy. apply Hall. by right.
Qed.

Lemma newData_concat data :
  concat (newData data).*2 ≡ₚ ReuploadItem.path <$> data.
Proof.
  unfold newData. rewrite <-list_fmap_compose.
  transitivity (ReuploadItem.path <$>
                  concat ((λ id, filter (λ item, ReuploadItem.id item = id) data)
                            <$> Set_spread (ReuploadItem.id <$> data))).
  - induction (Set_spread _) as [|id ids IH]; [done|].
    rewrite !fmap_cons. simpl. by rewrite IH, fmap_app.
  - f_equiv. apply concat_filter_all; [apply NoDup_Set_spread|].
    intros item Hitem. apply elem_of_Set_spread, list_elem_of_fmap. by exists item.
Qed.

(** The re-upload groups its items by profile id: one entry per id that
    occurs, none twice; the entry of an id holds the paths of the items
    with this id, in their order, and is not empty; and together the
    entries hold every path exactly as often as the items do. *)
Theorem newData_partition data :
  NoDup (newData data).*1 ∧
  (∀ id, id ∈ (newData data).*1 ↔ id ∈ ReuploadItem.id <$> data) ∧
  (∀ id filesPath,
     (id, filesPath) ∈ newData data →
     filesPath = ReuploadItem.path <$> filter (λ item, ReuploadItem.id item = id) data ∧
     filesPath ≠ []) ∧
  concat (newData data).*2 ≡ₚ ReuploadItem.path <$> data.
Proof.
  split; [|split; [|split]].
  - rewrite newData_ids. apply NoDup_Set_spread.
  - intros id. rewrite newData_ids. apply elem_of_Set_spread.
  - intros id filesPath Hin. unfold newData in Hin.
    apply list_elem_of_fmap in Hin as (id' & [= -> ->] & Hid).
    split; [done|]. apply (proj1 (elem_of_Set_spread _ _)) in Hid.
    apply list_elem_of_fmap in Hid as (item & -> & Hitem).
    intros Hnil. apply fmap_nil_inv in Hnil.
    assert (item ∈ filter (λ item0, ReuploadItem.id item0 = ReuploadItem.id item) data)
      as Hin by (by apply list_elem_of_filter).
    rewrite Hnil in Hin. by apply elem_of_nil in Hin.
  - apply newData_concat.
Qed.

(** The grouping follows the items in their order: a further item with an
    id seen before adds its path at the end of the entry of this id and
    moves no entry; with a new id it opens a new entry, at the end. *)
Theorem newData_snoc data item :
  newData (data ++ [item])
  = if decide (ReuploadItem.id item ∈ ReuploadItem.id <$> data)
    then (λ entry, if decide (entry.1 = ReuploadItem.id item)
                   then (entry.1, entry.2 ++ [ReuploadItem.path item])
                   else entry) <$> newData data
    else newData data ++ [(ReuploadItem.id item, [ReuploadItem.path item])].
Proof.
  unfold newData. rewrite fmap_app. simpl. rewrite Set_spread_snoc.
  unfold Set_add. case_bool_decide as Hseen.
  - rewrite decide_True by (by apply elem_of_Set_spread).
    rewrite <-list_fmap_compose. apply list_fmap_ext. intros _ id _. simpl.
    rewrite filter_app, fmap_app, filter_cons, filter_nil.
    destruct (decide (id = ReuploadItem.id item)) as [->|Hne].
    + by rewrite decide_True.
    + rewrite decide_False by done. by rewrite app_nil_r.
  - rewrite decide_False by (by rewrite <-elem_of_Set_spread).
    rewrite fmap_app. simpl. f_equal.
    + apply Forall_fmap_ext_1. apply Forall_forall. intros id Hid.
      rewrite filter_app, fmap_app, filter_cons, filter_nil.
      rewrite decide_False; [by rewrite app_nil_r|].
      intros Heq. by subst.
    + rewrite filter_app, filter_cons, filter_nil, decide_True by done.
      assert (filter (λ other, ReuploadItem.id other = ReuploadItem.id item) data = [])
        as ->; [|done].
      clear -Hseen. rewrite elem_of_Set_spread in Hseen.
      induction data as [|other data IH]; [done|].
      rewrite filter_cons. rewrite fmap_cons in Hseen.
      rewrite decide_False by (intros Heq; apply Hseen; rewrite Heq; by left).
      apply IH. intros Hin. apply Hseen. by right.
Qed.

(** *** Re-upload: the calls of [upload] *)

(** The laws of [M] that the two-step reading of [upload] rests on. *)
Lemma bind_assoc {A B C : Type} (m : M A) (f : A → M B) (g : B → M C) st :
  ((m ≫= f) ≫= g) st = (m ≫= (λ a, f a ≫= g)) st.
Proof.
  rewrite !run_bind. destruct (m st) as [[[a|err] st1] log1]; [|done].
  rewrite !run_bind. destruct (f a st1) as [[[b|err] st2] log2]; [|done].
  destruct (g b st2) as [[r st3] log3]. by rewrite app_assoc.
Qed.

Lemma bind_ext {A B : Type} (m : M A) (f g : A → M B) st :
  (∀ a st', f a st' = g a st') → (m ≫= f) st = (m ≫= g) st.
Proof.
  intros Hfg. rewrite !run_bind. destruct (m st) as [[[a|err] st1] log1]; [|done].
  by rewrite Hfg.
Qed.

Lemma ret_bind {A B : Type} (a : A) (f : A → M B) st : (mret a ≫= f) st = f a st.
Proof. rewrite run_bind. simpl. by destruct (f a st) as [[r st1] log1]. Qed.

Lemma M_try_ext {A : Type} (body body' : M A) (handler : Error → M A) st :
  (∀ st', body st' = body' st') → M_try body handler st = M_try body' handler st.
Proof. intros Hbody. unfold M_try. by rewrite Hbody. Qed.

Lemma M_try_bind {A B : Type} (m : M A) (f : A → M B) (handler : Error → M B) st :
  (∃ a, result_of (m st) = Ok a) →
  M_try (m ≫= f) handler st = (m ≫= (λ a, M_try (f a) handler)) st.
Proof.
  intros [a Ha]. unfold M_try. rewrite !run_bind.
  destruct (m st) as [[[a'|err] st1] log1]; [|done].
  destruct (f a' st1) as [[[b|err] st2] log2]; [done|].
  destruct (handler err st2) as [[r st3] log3]. by rewrite app_assoc.
Qed.

(** [upload] is its first step followed by its second. *)
Lemma upload_launch_resume order files customUploaderProfileId directoryPath
    isFromFileManage st :
  upload order files customUploaderProfileId directoryPath isFromFileManage st
  = (launch files customUploaderProfileId directoryPath isFromFileManage
       ≫= resume order) st.
Proof.
  unfold UploaderManager.upload, UploaderManager.launch.
  destruct (findProfile _) as [uploaderProfile|]; [|done].
  destruct (getUploaderByName _) as [uploader|]; [|done].
  rewrite M_try_bind by (by eexists). rewrite bind_assoc.
  apply bind_ext. intros _ st1.
  rewrite bind_assoc. unfold UploaderManager.runBatch.
  erewrite M_try_ext by (intros; apply bind_assoc).
  rewrite M_try_bind by (rewrite for_each_start_exact; by eexists).
  apply bind_ext. intros started st2. rewrite ret_bind.
  unfold UploaderManager.resume. apply M_try_ext. intros st3.
  rewrite bind_assoc. apply bind_ext. intros res st4.
  rewrite bind_assoc. apply bind_ext. intros _ st5.
  rewrite bind_assoc. done.
Qed.

Lemma launch_resolved files customUploaderProfileId directoryPath isFromFileManage st
    uploaderProfile uploader :
  findProfile (wantedProfileId customUploaderProfileId) = Some uploaderProfile →
  getUploaderByName (UploaderProfile.uploaderName uploaderProfile) = Some uploader →
  let newOptions := UploaderProfile.uploaderOptions uploaderProfile in
  ∃ started st1 log1,
    launch files customUploaderProfileId directoryPath isFromFileManage st
    = (Ok (Awaiting files isFromFileManage started), st1,
       ChangeOptions (Uploader.name uploader) newOptions :: log1) ∧
    history st1 = history st ∧ clipboard st1 = clipboard st ∧
    Forall2 (startedFor uploader newOptions directoryPath isFromFileManage)
            files started ∧
    uploads_called log1 = files ∧ history_adds log1 = [] ∧
    clipboard_writes log1 = [] ∧ notifications log1 = [] ∧ messages log1 = [].
Proof.
  intros Hfind Hreg newOptions.
  set (st0 := set_backendOptions (Uploader.name uploader) newOptions st).
  destruct (for_each_start uuidv4 getTime extname mime_lookup uploader uploaderProfile
              directoryPath isFromFileManage files st0)
    as (started & st1 & log1 & Hfor & Hh & Hc & _ & Hall & Hup & Hha & Hcw & Hn & Hm).
  unfold st0 in Hall. rewrite optionsIn_set in Hall.
  exists started, st1, log1. split; [|by repeat split].
  unfold UploaderManager.launch. rewrite Hfind, Hreg.
  rewrite run_bind. unfold changeOptions at 1. fold newOptions st0.
  rewrite run_bind, Hfor. simpl. by rewrite app_nil_r.
Qed.

Lemma resume_settled order files isFromFileManage started st successRes failRes :
  settle order started [] [] = Ok (successRes, failRes) →
  let run := presentResult files successRes failRes
               (set_history (history_add (failRes ++ successRes) (history st)) st) in
  resume order (Awaiting files isFromFileManage started) st
  = (Ok JUndefined, state_of run,
     historyEvents (failRes ++ successRes) (history st) ++
     managedEvents isFromFileManage ++ trace_of run ++ caught (result_of run)).
Proof.
  intros Hsettle. cbv zeta. unfold UploaderManager.resume, M_try.
  rewrite run_bind. unfold lift at 1. rewrite Hsettle. cbn [fst snd].
  unfold UploaderManager.historyEvents, managedEvents.
  destruct (presentResult files successRes failRes _) as [[r st3] log3] eqn:Hp.
  unfold UploaderManager.handleAddHistory, when. rewrite !run_bind.
  destruct winIsDestroyed, isFromFileManage;
    cbn -[UploaderManager.presentResult set_history]; rewrite ?run_bind;
    cbn -[UploaderManager.presentResult set_history]; rewrite ?run_bind, Hp;
    destruct r as [[]|err]; simpl; by rewrite ?app_nil_r.
Qed.

Lemma resume_run order pending st :
  let run := resume order pending st in
  (∃ v, result_of run = Ok v) ∧
  history_adds (trace_of run) = option_list (settled order pending) ∧
  uploads_called (trace_of run) = [].
Proof.
  destruct pending as [v|files isFromFileManage started]; cbv zeta.
  { split; [by eexists|done]. }
  unfold settled.
  destruct (settle order started [] []) as [[successRes failRes]|err] eqn:Hsettle.
  - rewrite (resume_settled _ _ _ _ _ _ _ Hsettle).
    match goal with
    | |- context [presentResult files successRes failRes ?s] =>
        pose proof (presentResult_quiet configuration typeErrorMessage files
                      successRes failRes s) as (Hpa & _ & Hpu & _)
    end.
    rewrite !trace_of_run, !result_of_run.
    split; [by eexists|].
    rewrite !history_adds_app, !uploads_called_app, Hpa, Hpu,
      history_adds_historyEvents, history_adds_managedEvents, history_adds_caught.
    assert (∀ d s, uploads_called (historyEvents d s) = []) as ->
      by (intros; unfold UploaderManager.historyEvents; by destruct winIsDestroyed).
    assert (uploads_called (managedEvents isFromFileManage) = []) as ->
      by (by destruct isFromFileManage).
    assert (∀ A (r : Result A), uploads_called (caught r) = []) as ->
      by (by intros A []).
    done.
  - unfold UploaderManager.resume, M_try. rewrite run_bind. unfold lift at 1.
    rewrite Hsettle. simpl. split; [by eexists|done].
Qed.

Lemma launch_all (entries : list (string * list string)) :
  (∀ entry, entry ∈ entries →
     ∃ uploaderProfile uploader,
       findProfile (wantedProfileId entry.1) = Some uploaderProfile ∧
       getUploaderByName (UploaderProfile.uploaderName uploaderProfile)
         = Some uploader ∧
       ∀ file fileName, file ∈ entry.2 →
         ∃ r, Uploader.upload uploader (UploaderProfile.uploaderOptions uploaderProfile)
                file fileName None false = Ok r) →
  ∀ st, ∃ pendings st1 log1,
    for_each (λ item, launch item.2 item.1 None false) entries st
      = (Ok pendings, st1, log1) ∧
    history st1 = history st ∧ clipboard st1 = clipboard st ∧
    Forall2 launchedFor entries pendings ∧
    uploads_called log1 = concat entries.*2 ∧
    history_adds log1 = [] ∧ clipboard_writes log1 = [] ∧ notifications log1 = [].
Proof.
  induction entries as [|entry entries IH]; intros Hall st.
  { exists [], st, []. by repeat split. }
  destruct (Hall entry ltac:(by left)) as (uploaderProfile & uploader & Hfind & Hreg & Hret).
  destruct (launch_resolved entry.2 entry.1 None false st uploaderProfile uploader
              Hfind Hreg)
    as (started & st1 & log1 & Hlaunch & Hh & Hc & Hstarted & Hup & Hha & Hcw & Hn & _).
  destruct (IH (λ e He, Hall e ltac:(by right)) st1)
    as (pendings & st2 & log2 & Hrest & Hh2 & Hc2 & Hall2 & Hup2 & Hha2 & Hcw2 & Hn2).
  eexists (Awaiting entry.2 false started :: pendings), st2, _.
  split.
  { simpl for_each. rewrite run_bind, Hlaunch. rewrite run_bind, Hrest. reflexivity. }
  split; [congruence|]. split; [congruence|]. split.
  { constructor; [|done]. exists started. split; [done|]. intros order Horder.
    assert (∀ i s, i ∈ order → started !! i = Some s → ∃ r, s.2 = Ok r) as Hok.
    { intros i s _ Hi.
      destruct (started_elem _ _ _ _ _ _ _ Hstarted
                  (list_elem_of_lookup_2 _ _ _ Hi))
        as (file & Hfile & _ & fileName & ->).
      by apply Hret. }
    destruct (settle_returns started order Hok [] [])
      as (successRes & failRes & Hsettle & Hperm & _).
    simpl in Hsettle. unfold settled. rewrite Hsettle. eexists. split; [done|].
    simpl. rewrite Hperm, omap_lookup_Permutation
      by (by rewrite <-(Forall2_length _ _ _ Hstarted)).
    by rewrite (started_paths _ _ _ _ _ _ Hstarted). }
  rewrite app_nil_r. head_apart.
  rewrite !uploads_called_app, !history_adds_app, !clipboard_writes_app,
    !notifications_app, Hup, Hha, Hcw, Hn, Hup2, Hha2, Hcw2, Hn2.
  by rewrite fmap_cons.
Qed.

Lemma resume_all (settleOrders : nat → list nat) (pendings : list Pending) resumeOrder :
  ∀ st, ∃ vs st' log,
    for_each (λ i, match pendings !! i with
                   | Some pending => resume (settleOrders i) pending
                   | None => mret JUndefined
                   end) resumeOrder st
      = (Ok vs, st', log) ∧
    history_adds log
      = omap (λ i, pendings !! i ≫= settled (settleOrders i)) resumeOrder ∧
    uploads_called log = [].
Proof.
  induction resumeOrder as [|i resumeOrder IH]; intros st.
  { exists [], st, []. by repeat split. }
  simpl for_each. rewrite run_bind.
  assert (∃ v st1 log1,
            match pendings !! i with
            | Some pending => resume (settleOrders i) pending
            | None => mret JUndefined
            end st = (Ok v, st1, log1) ∧
            history_adds log1 = option_list (pendings !! i ≫= settled (settleOrders i)) ∧
            uploads_called log1 = []) as (v & st1 & log1 & -> & Hha & Hup).
  { destruct (pendings !! i) as [pending|]; [|by eexists _, _, _].
    pose proof (resume_run (settleOrders i) pending st) as ([v Hv] & Hha & Hup).
    destruct (resume _ pending st) as [[r st1] log1].
    rewrite result_of_run in Hv. rewrite trace_of_run in Hha, Hup. subst r.
    by exists v, st1, log1. }
  destruct (IH st1) as (vs & st2 & log2 & Hrest & Hha2 & Hup2).
  rewrite run_bind, Hrest. eexists _, _, _. split; [reflexivity|].
  rewrite app_nil_r, history_adds_app, uploads_called_app, Hha, Hha2, Hup, Hup2.
  split; [|done]. cbn [omap list_omap].
  by destruct (pendings !! i ≫= settled (settleOrders i)).
Qed.

Lemma concat_Permutation {A : Type} (ls ks : list (list A)) :
  ls ≡ₚ ks → concat ls ≡ₚ concat ks.
Proof.
  induction 1 as [|l ls ks _ IH|l k ls|ls ks ms _ IH1 _ IH2]; simpl.
  - done.
  - by rewrite IH.
  - rewrite !app_assoc. f_equiv. apply Permutation_app_comm.
  - by rewrite IH1.
Qed.

Lemma settled_all (settleOrders : nat → list nat) (entries : list (string * list string))
    (pendings before : list Pending) :
  Forall2 launchedFor entries pendings →
  (∀ i entry, entries !! i = Some entry →
     settleOrders (length before + i) ≡ₚ seq 0 (length entry.2)) →
  Forall2 (λ entry records, UploadedFileInfo.path <$> records ≡ₚ entry.2) entries
    (omap (λ j, (before ++ pendings) !! j ≫= settled (settleOrders j))
          (seq (length before) (length pendings))).
Proof.
  intros Hall. revert before.
  induction Hall as [|entry pending entries pendings Hentry _ IH]; intros before Horders.
  { constructor. }
  cbn [length seq omap list_omap]. rewrite list_lookup_middle by done.
  destruct Hentry as (started & -> & Hsettled).
  destruct (Hsettled (settleOrders (length before))) as (records & Hrecords & Hperm).
  { specialize (Horders 0 entry eq_refl). by rewrite Nat.add_0_r in Horders. }
  cbn [mbind option_bind]. rewrite Hrecords. constructor; [done|].
  specialize (IH (before ++ [Awaiting entry.2 false started])).
  rewrite <-app_assoc, length_app in IH. simpl in IH.
  rewrite Nat.add_1_r in IH. apply IH.
  intros i e Hi. specialize (Horders (S i) e Hi).
  by rewrite <-Nat.add_succ_comm in Horders.
Qed.

Lemma concat_records (entries : list (string * list string))
    (adds : list (list UploadedFileInfo.t)) :
  Forall2 (λ entry records, UploadedFileInfo.path <$> records ≡ₚ entry.2) entries adds →
  UploadedFileInfo.path <$> concat adds ≡ₚ concat entries.*2.
Proof.
  induction 1 as [|entry records entries adds Hperm _ IH]; [done|].
  rewrite fmap_cons. simpl. by rewrite fmap_app, Hperm, IH.
Qed.

(** A re-upload whose items all find their profile and backend, with
    backends that do not throw: every file is given to the backend once,
    entry after entry; the history is given one list per entry, and these
    lists hold one record per item. *)
Theorem reupload_records settleOrders resumeOrder data st :
  (∀ item, item ∈ data →
     ∃ uploaderProfile uploader,
       findProfile (wantedProfileId (ReuploadItem.id item)) = Some uploaderProfile ∧
       getUploaderByName (UploaderProfile.uploaderName uploaderProfile)
         = Some uploader ∧
       ∀ file fileName, file ∈ ReuploadItem.path <$> data →
         ∃ r, Uploader.upload uploader (UploaderProfile.uploaderOptions uploaderProfile)
                file fileName None false = Ok r) →
  resumeOrder ≡ₚ seq 0 (length (newData data)) →
  (∀ i entry, newData data !! i = Some entry →
     settleOrders i ≡ₚ seq 0 (length entry.2)) →
  let run := uploadByDifferentUploaderProfileIds settleOrders resumeOrder data st in
  result_of run = Ok tt ∧
  uploads_called (trace_of run) = concat (newData data).*2 ∧
  length (history_adds (trace_of run)) = length (newData data) ∧
  UploadedFileInfo.path <$> concat (history_adds (trace_of run))
    ≡ₚ ReuploadItem.path <$> data.
Proof.
  intros Hall Horder Horders run.
  destruct (launch_all (newData data)) with (st := st)
    as (pendings & st1 & log1 & Hlaunch & _ & _ & Hpend & Hup & Hha & Hcw & Hn).
  { intros [id filesPath] Hentry.
    assert (id ∈ (newData data).*1) as Hid.
    { apply list_elem_of_fmap. by exists (id, filesPath). }
    rewrite newData_ids in Hid. apply (proj1 (elem_of_Set_spread _ _)) in Hid.
    apply list_elem_of_fmap in Hid as (item & -> & Hitem).
    destruct (Hall item Hitem) as (uploaderProfile & uploader & Hfind & Hreg & Hret).
    exists uploaderProfile, uploader. split; [done|]. split; [done|].
    intros file fileName Hfile. apply Hret. simpl in Hfile.
    unfold newData in Hentry.
    apply list_elem_of_fmap in Hentry as (id' & [= _ ->] & _).
    apply list_elem_of_fmap in Hfile as (other & -> & Hother).
    apply list_elem_of_filter in Hother as [_ Hother].
    apply list_elem_of_fmap. by exists other. }
  destruct (resume_all settleOrders pendings resumeOrder st1)
    as (vs & st2 & log2 & Hresume & Hha2 & Hup2).
  assert (run = (Ok tt, st2, log1 ++ log2)) as Hrun.
  { subst run. unfold UploaderManager.uploadByDifferentUploaderProfileIds.
    rewrite run_bind, Hlaunch. rewrite run_bind, Hresume. simpl.
    by rewrite app_nil_r. }
  pose proof (settled_all settleOrders (newData data) pendings [] Hpend Horders)
    as Hsettled.
  simpl in Hsettled.
  assert (history_adds (trace_of run)
          ≡ₚ omap (λ j, pendings !! j ≫= settled (settleOrders j))
                  (seq 0 (length pendings))) as Hadds.
  { rewrite Hrun, trace_of_run, history_adds_app, Hha, Hha2. simpl.
    by rewrite Horder, (Forall2_length _ _ _ Hpend). }
  rewrite Hrun at 1 2. rewrite result_of_run, trace_of_run.
  split; [done|]. split; [by rewrite uploads_called_app, Hup, Hup2, app_nil_r|].
  split.
  - by rewrite Hadds, <-(Forall2_length _ _ _ Hsettled).
  - rewrite (concat_Permutation _ _ Hadds), (concat_records _ _ Hsettled).
    apply newData_concat.
Qed.

(** What a call of [upload] does before it first waits: when its
    profile or its backend is not found, it shows the notification of
    that and has returned; otherwise it calls the backend for its files.
    It leaves the history, the clipboard and the UI alone. *)
Lemma launch_run files customUploaderProfileId directoryPath isFromFileManage st :
  ∃ pending st1 log1,
    launch files customUploaderProfileId directoryPath isFromFileManage st
    = (Ok pending, st1, log1) ∧
    history st1 = history st ∧ clipboard st1 = clipboard st ∧
    history_adds log1 = [] ∧ clipboard_writes log1 = [] ∧ messages log1 = [] ∧
    notifications log1 = option_list (resolutionFailure customUploaderProfileId) ∧
    uploads_called log1
    = match resolutionFailure customUploaderProfileId with
      | Some _ => []
      | None => files
      end ∧
    (is_Some (resolutionFailure customUploaderProfileId) →
     pending = Returned (JBool false)).
Proof.
  unfold UploaderManager.resolutionFailure.
  destruct (findProfile (wantedProfileId customUploaderProfileId))
    as [uploaderProfile|] eqn:Hfind.
  - destruct (getUploaderByName (UploaderProfile.uploaderName uploaderProfile))
      as [uploader|] eqn:Hreg.
    + destruct (launch_resolved files customUploaderProfileId directoryPath
                  isFromFileManage st uploaderProfile uploader Hfind Hreg)
        as (started & st1 & log1 & -> & Hh & Hc & _ & Hup & Hha & Hcw & Hn & Hm).
      eexists _, _, _. split; [done|]. split; [done|]. split; [done|]. head_apart.
      rewrite history_adds_app, clipboard_writes_app, messages_app, notifications_app,
        uploads_called_app, Hha, Hcw, Hm, Hn, Hup.
      by repeat split.
    + unfold UploaderManager.launch. rewrite Hfind, Hreg. by eexists _, _, _.
  - unfold UploaderManager.launch. rewrite Hfind. by eexists _, _, _.
Qed.

Lemma launch_each (entries : list (string * list string)) :
  ∀ st, ∃ pendings st1 log1,
    for_each (λ item, launch item.2 item.1 None false) entries st
      = (Ok pendings, st1, log1) ∧
    history st1 = history st ∧ clipboard st1 = clipboard st ∧
    history_adds log1 = [] ∧ clipboard_writes log1 = [] ∧ messages log1 = [] ∧
    notifications log1 = omap (λ entry, resolutionFailure entry.1) entries ∧
    uploads_called log1
    = concat ((λ entry, match resolutionFailure entry.1 with
                        | Some _ => []
                        | None => entry.2
                        end) <$> entries) ∧
    (Forall (λ entry, is_Some (resolutionFailure entry.1)) entries →
     Forall (λ pending, pending = Returned (JBool false)) pendings).
Proof.
  induction entries as [|entry entries IH]; intros st.
  { exists [], st, []. by repeat split. }
  destruct (launch_run entry.2 entry.1 None false st)
    as (pending & st1 & log1 & Hlaunch & Hh & Hc & Hha & Hcw & Hm & Hn & Hup & Hret).
  destruct (IH st1)
    as (pendings & st2 & log2 & Hrest & Hh2 & Hc2 & Hha2 & Hcw2 & Hm2 & Hn2 & Hup2 &
        Hret2).
  eexists _, _, _. split.
  { simpl for_each. rewrite run_bind, Hlaunch. rewrite run_bind, Hrest. reflexivity. }
  rewrite app_nil_r, history_adds_app, clipboard_writes_app, messages_app,
    notifications_app, uploads_called_app, Hha, Hcw, Hm, Hn, Hup, Hha2, Hcw2, Hm2,
    Hn2, Hup2.
  split; [congruence|]. split; [congruence|]. split; [done|]. split; [done|].
  split; [done|]. split; [|split; [done|]].
  - cbn [omap list_omap]. by destruct (resolutionFailure entry.1).
  - intros Hall. apply Forall_cons in Hall as [Hentry Hall].
    apply Forall_cons. split; [by apply Hret|by apply Hret2].
Qed.

(** Calls that have returned are not resumed. *)
Lemma resume_returned (settleOrders : nat → list nat) (pendings : list Pending)
    resumeOrder st :
  Forall (λ pending, pending = Returned (JBool false)) pendings →
  trace_of (for_each (λ i, match pendings !! i with
                           | Some pending => resume (settleOrders i) pending
                           | None => mret JUndefined
                           end) resumeOrder st) = [].
Proof.
  intros Hall. induction resumeOrder as [|i resumeOrder IH]; [done|].
  simpl for_each. rewrite run_bind.
  assert (match pendings !! i with
          | Some pending => resume (settleOrders i) pending
          | None => mret JUndefined
          end st
          = (Ok (default JUndefined (pendings !! i ≫= λ _, Some (JBool false))), st, []))
    as ->.
  { destruct (pendings !! i) as [pending|] eqn:Hi; [|done].
    by rewrite (proj1 (Forall_lookup _ _) Hall i pending Hi). }
  rewrite run_bind.
  destruct (for_each _ resumeOrder st) as [[[vs|err] st'] log]; simpl in *;
    unfold trace_of in *; simpl in *; by rewrite ?IH.
Qed.

(** A re-upload starts every call of [upload] it makes before any of
    them is resumed. Its trace is that of the starts followed by that of
    the resumptions. The first part holds, entry after entry, the
    notification of an entry whose profile or backend is not found or
    the backend calls for the files of an entry that resolves, and no
    history append, clipboard write or message to the UI; the second
    part holds no backend call, and nothing at all when no entry
    resolves. *)
Theorem reupload_starts_first settleOrders resumeOrder data st :
  let run := uploadByDifferentUploaderProfileIds settleOrders resumeOrder data st in
  ∃ launched resumed,
    trace_of run = launched ++ resumed ∧
    notifications launched = omap (λ entry, resolutionFailure entry.1) (newData data) ∧
    uploads_called launched
    = concat ((λ entry, match resolutionFailure entry.1 with
                        | Some _ => []
                        | None => entry.2
                        end) <$> newData data) ∧
    history_adds launched = [] ∧ clipboard_writes launched = [] ∧
    messages launched = [] ∧
    uploads_called resumed = [] ∧
    (Forall (λ entry, is_Some (resolutionFailure entry.1)) (newData data) →
     resumed = []).
Proof.
  intros run.
  destruct (launch_each (newData data) st)
    as (pendings & st1 & log1 & Hlaunch & _ & _ & Hha & Hcw & Hm & Hn & Hup & Hret).
  destruct (resume_all settleOrders pendings resumeOrder st1)
    as (vs & st2 & log2 & Hresume & _ & Hup2).
  assert (run = (Ok tt, st2, log1 ++ log2)) as ->.
  { subst run. unfold UploaderManager.uploadByDifferentUploaderProfileIds.
    rewrite run_bind, Hlaunch. rewrite run_bind, Hresume. simpl.
    by rewrite app_nil_r. }
  exists log1, log2. repeat split; try done.
  intros Hall.
  pose proof (resume_returned settleOrders pendings resumeOrder st1 (Hret Hall)) as Hnil.
  by rewrite Hresume in Hnil.
Qed.

End ManagerMore.

(** ** The templated HTTP uploader *)

Section CustomUploaderMore.

Context (builtin : JS → string → JS)
        (boundary : string)
        (getLength : CustomUploader.FormData → Result Z)
        (JSON_parse : string → Result JS)
        (options : UploaderOptions).

Import CustomUploader.

Local Abbreviation getConfig := (CustomUploader.getConfig options).
Local Abbreviation buildForm := (CustomUploader.buildForm options).
Local Abbreviation buildRequest :=
  (CustomUploader.buildRequest boundary getLength JSON_parse options).

Lemma getConfig_snoc (opts : UploaderOptions) (o : UploaderOption.t) :
  CustomUploader.getConfig (opts ++ [o])
  = <[UploaderOption.name o := UploaderOption.value o]> (CustomUploader.getConfig opts).
Proof. unfold CustomUploader.getConfig. by rewrite foldl_app. Qed.

(** [getConfig] reads an option as the value of the last entry of that
    name in the option list, and as nothing when there is none. *)
Theorem getConfig_last_wins (name : string) :
  getConfig !! name
  = UploaderOption.value
    <$> last (filter (λ o, UploaderOption.name o = name) options).
Proof.
  induction options as [|o opts IH] using rev_ind; [done|].
  rewrite getConfig_snoc, filter_app, filter_cons, filter_nil.
  destruct (decide (UploaderOption.name o = name)) as [<-|Hne].
  - by rewrite lookup_insert_eq, last_snoc.
  - by rewrite lookup_insert_ne, app_nil_r.
Qed.

(** When the length of the form cannot be computed (the file cannot be
    read), or when the query template is there and does not parse, the
    upload is the failure with that exception's message, whatever the
    server would answer: no request is sent. *)
Theorem custom_upload_fails_unsent (filePath fileName : string) (err : Error) :
  getLength (buildForm filePath) = Throw err ∨
  (∃ length template,
     getLength (buildForm filePath) = Ok length ∧
     getConfig !! "requestParams" = Some template ∧ template ≠ "" ∧
     JSON_parse template = Throw err) →
  ∀ axios,
    CustomUploader.upload builtin boundary getLength JSON_parse axios options filePath fileName
    = Fail (message err).
Proof.
  intros Hfail axios. apply upload_not_built.
  unfold CustomUploader.buildRequest.
  destruct Hfail as [->|(length & template & -> & -> & Hne & Hparse)]; [done|].
  simpl. apply String.eqb_neq in Hne. rewrite Hne. simpl. by rewrite Hparse.
Qed.

(** The request goes to the configured URL with the configured method.
    Its query parameters are the parsed query template; without a
    template, or with an empty one, they are the empty object and nothing
    is parsed, so that the request is the same whatever the parser. *)
Theorem custom_request_params (filePath : string) (req : AxiosRequestConfig) :
  buildRequest filePath = Ok req →
  url req = getConfig !! "url" ∧
  method req = getConfig !! "method" ∧
  (∀ template, getConfig !! "requestParams" = Some template → template ≠ "" →
     JSON_parse template = Ok (params req)) ∧
  (getConfig !! "requestParams" = None ∨ getConfig !! "requestParams" = Some "" →
     params req = JObj [] ∧
     ∀ JSON_parse',
       CustomUploader.buildRequest boundary getLength JSON_parse' options filePath
       = Ok req).
Proof.
  unfold CustomUploader.buildRequest. intros Hreq.
  destruct (getLength (buildForm filePath)) as [length|err]; [|done].
  simpl in Hreq. simpl.
  destruct (getConfig !! "requestParams") as [template|] eqn:Hparams; simpl in *.
  - destruct (String.eqb template "") eqn:Hempty; simpl in *.
    + apply String.eqb_eq in Hempty as ->. inversion Hreq; subst req. simpl.
      split; [done|]. split; [done|]. split; [by intros ? [= <-] ?|]. by intros _.
    + destruct (JSON_parse template) as [parsed|err] eqn:Hparse; [|done].
      simpl in Hreq. inversion Hreq; subst req. simpl.
      split; [done|]. split; [done|]. split.
      * by intros ? [= <-] _.
      * intros [?|[= ->]]; done.
  - inversion Hreq; subst req. simpl.
    split; [done|]. split; [done|]. split; [done|]. by intros _.
Qed.

End CustomUploaderMore.

(** ** The templated HTTP uploader behind the orchestrator *)

Section CustomBackendFacts.

Context (builtin : JS → string → JS)
        (boundary : string)
        (getLength : CustomUploader.FormData → Result Z)
        (JSON_parse : string → Result JS)
        (axios : CustomUploader.AxiosRequestConfig → Result JS)
        (asUrl : JS → option string).

Context (configuration : Configuration.t)
        (uploaderProfiles : list UploaderProfile.t)
        (getUploaderByName : string → option Uploader.t)
        (history_add : list UploadedFileInfo.t → list UploadedFileInfo.t →
                       list UploadedFileInfo.t)
        (winIsDestroyed : bool)
        (uuidv4 : nat → string)
        (getTime : nat → Z)
        (extname : string → string)
        (mime_lookup : string → option string)
        (typeErrorMessage : string → string).

Local Abbreviation custom :=
  (CustomBackend.uploader builtin boundary getLength JSON_parse axios asUrl).
Local Abbreviation customUpload :=
  (CustomUploader.upload builtin boundary getLength JSON_parse axios).
Local Abbreviation upload :=
  (UploaderManager.upload configuration uploaderProfiles getUploaderByName
     history_add winIsDestroyed uuidv4 getTime extname mime_lookup typeErrorMessage).


End CustomBackendFacts.

(** ** The further properties on concrete instances *)



Lemma handleSingleUploaded_autoRecover_witness :
  let run := UploaderManager.handleSingleUploaded MoreFixtures.recovering
               Fixtures.typeErrorMessage
               (Some (MoreFixtures.record (Some "https://x/a.png") None)) None
               Fixtures.emptyState in
  clipboard (state_of run) = "![https://x/a.png](https://x/a.png)" ∧
  head (trace_of run) = Some ClipboardReadText ∧
  ∃ callback,
    UploaderManager.timers (trace_of run) = [(5000%Z, callback)] ∧
    ∀ st',
      let fired := UploaderManager.fire callback st' in
      result_of fired = Ok tt ∧
      clipboard (state_of fired) = "old" ∧
      history (state_of fired) = history st' ∧
      notifications (trace_of fired)
      = [("粘贴板已恢复", "已自动恢复上次粘贴板中的内容")].
Proof.
  apply (handleSingleUploaded_autoRecover MoreFixtures.recovering
           Fixtures.typeErrorMessage
           (MoreFixtures.record (Some "https://x/a.png") None) None
           (Some "![https://x/a.png](https://x/a.png)") Fixtures.emptyState).
  - reflexivity.
  - reflexivity.
  - reflexivity.
Defined.

Lemma handleSingleUploaded_no_autoCopy_witness :
  UploaderManager.handleSingleUploaded (Fixtures.settings "HTML" false)
    Fixtures.typeErrorMessage
    (Some (MoreFixtures.record (Some "https://x/a.png") None)) None
    Fixtures.emptyState
  = (Ok None, Fixtures.emptyState,
     [NotificationShow "上传成功"
        ("<img src=" +:+ dquote +:+ "https://x/a.png" +:+ dquote +:+ " />") false]).
Proof.
  apply (handleSingleUploaded_no_autoCopy (Fixtures.settings "HTML" false)
           Fixtures.typeErrorMessage
           (MoreFixtures.record (Some "https://x/a.png") None) None
           (Some ("<img src=" +:+ dquote +:+ "https://x/a.png" +:+ dquote +:+ " />"))
           Fixtures.emptyState).
  - reflexivity.
  - reflexivity.
Defined.

Lemma upload_backend_missing_witness :
  MoreFixtures.upload (Fixtures.settings "URL" true) [0] ["a.png"] "p2" None false
    Fixtures.emptyState
  = (Ok (JBool false), Fixtures.emptyState,
     [NotificationShow "上传操作异常" "没有找到gone上传器" false]).
Proof.
  apply (upload_backend_missing (Fixtures.settings "URL" true) MoreFixtures.profiles
           MoreFixtures.registry Fixtures.history_add false Fixtures.uuidv4
           Fixtures.getTime Fixtures.extname Fixtures.mime_lookup
           Fixtures.typeErrorMessage [0] ["a.png"] "p2" None false
           Fixtures.emptyState Fixtures.profile2).
  - reflexivity.
  - reflexivity.
Defined.

Lemma file_management_replies_witness :
  let options := UploaderProfile.uploaderOptions MoreFixtures.profile3 in
  let st' := set_backendOptions "store" options Fixtures.emptyState in
  UploaderManager.getFileList MoreFixtures.profiles MoreFixtures.registry "p3"
    (Some "dir") Fixtures.emptyState
  = (Ok tt, st',
     [ChangeOptions "store" options;
      IpcSend "file-list-get-reply" (Reply (JArr [JStr "a.png"]))]) ∧
  UploaderManager.deleteFile MoreFixtures.profiles MoreFixtures.registry "p3"
    ["a.png"] Fixtures.emptyState
  = (Ok tt, st',
     [ChangeOptions "store" options; IpcSend "file-delete-reply" (Reply (JBool true))]) ∧
  UploaderManager.createDirectory MoreFixtures.profiles MoreFixtures.registry "p3"
    "new" Fixtures.emptyState
  = (Ok tt, st',
     [ChangeOptions "store" options;
      IpcSend "directory-create-reply" (Reply (JBool true))]).
Proof.
  destruct (file_management_replies MoreFixtures.profiles MoreFixtures.registry "p3"
              (Some "dir") ["a.png"] "new" Fixtures.emptyState MoreFixtures.profile3
              MoreFixtures.store eq_refl eq_refl) as (Hlist & Hdelete & Hcreate).
  split; [|split].
  - exact (Hlist _ _ eq_refl eq_refl).
  - exact (Hdelete _ _ eq_refl eq_refl).
  - exact (Hcreate _ _ eq_refl eq_refl).
Defined.

Lemma file_management_throws_witness :
  let st' := set_backendOptions "broken" [] Fixtures.emptyState in
  let err := {| message := "EACCES" |} in
  UploaderManager.getFileList MoreFixtures.profiles MoreFixtures.registry "p4"
    (Some "dir") Fixtures.emptyState
  = (Throw err, st', [ChangeOptions "broken" []]) ∧
  UploaderManager.deleteFile MoreFixtures.profiles MoreFixtures.registry "p4"
    ["a.png"] Fixtures.emptyState
  = (Throw err, st', [ChangeOptions "broken" []]) ∧
  UploaderManager.createDirectory MoreFixtures.profiles MoreFixtures.registry "p4"
    "new" Fixtures.emptyState
  = (Throw err, st', [ChangeOptions "broken" []]).
Proof.
  destruct (file_management_throws MoreFixtures.profiles MoreFixtures.registry "p4"
              (Some "dir") ["a.png"] "new" Fixtures.emptyState MoreFixtures.profile4
              MoreFixtures.broken eq_refl eq_refl) as (Hlist & Hdelete & Hcreate).
  split; [|split].
  - exact (Hlist _ _ eq_refl eq_refl).
  - exact (Hdelete _ _ eq_refl eq_refl).
  - exact (Hcreate _ _ eq_refl eq_refl).
Defined.

Lemma upload_history_records_witness :
  let run := Fixtures.upload "URL" true [Fixtures.profile1] [1; 0]
               ["a.png"; "no.png"] "" None false Fixtures.emptyState in
  let info i file :=
    UploaderManager.baseInfoAt Fixtures.uuidv4 Fixtures.getTime Fixtures.extname
      Fixtures.mime_lookup Fixtures.profile1 0 0 i file in
  let failRes := [UploaderManager.withError (info 1 "no.png") (Some "refused")] in
  (∃ successRes,
     history_adds (trace_of run) = [failRes ++ successRes] ∧
     history (state_of run) = Fixtures.history_add (failRes ++ successRes) [] ∧
     (λ r, (UploadedFileInfo.url r, UploadedFileInfo.size r)) <$> successRes
       = [(Some "https://x/a.png", None)] ∧
     length successRes + 1 = 2) ∧
  uploads_called (trace_of run) = ["a.png"; "no.png"] ∧
  ∀ i file, ["a.png"; "no.png"] !! i = Some file →
    UploaderUpload "demo" file
      (UploaderManager.fileNameAt Fixtures.uuidv4 Fixtures.extname 0 i file) None false
    ∈ trace_of run.
Proof.
  intros run info failRes.
  assert (∀ (i : nat) (file : string), ["a.png"; "no.png"] !! i = Some file →
            ∃ r, Uploader.upload Fixtures.demo [] file
                   (UploaderManager.fileNameAt Fixtures.uuidv4 Fixtures.extname 0 i file)
                   None false = Ok r) as Hreturn.
  { intros [|[|i]] file Hfile; simpl in Hfile; simplify_eq; by eexists. }
  exact (upload_history_records (Fixtures.settings "URL" true) [Fixtures.profile1]
              Fixtures.registry Fixtures.history_add false Fixtures.uuidv4
              Fixtures.getTime Fixtures.extname Fixtures.mime_lookup
              Fixtures.typeErrorMessage [1; 0] ["a.png"; "no.png"] "" None false
              Fixtures.emptyState Fixtures.profile1 Fixtures.demo
           eq_refl eq_refl (perm_swap 0 1 []) Hreturn).
Defined.

Lemma upload_messages_witness :
  let run := Fixtures.upload "URL" true [Fixtures.profile1] [1; 0]
               ["a.png"; "no.png"] "" None true Fixtures.emptyState in
  let info i file :=
    UploaderManager.baseInfoAt Fixtures.uuidv4 Fixtures.getTime Fixtures.extname
      Fixtures.mime_lookup Fixtures.profile1 0 0 i file in
  let failRes := [UploaderManager.withError (info 1 "no.png") (Some "refused")] in
  let successRes :=
    [UploaderManager.withData (info 0 "a.png")
       {| Response.url := Some "https://x/a.png"; Response.size := None |}] in
  history (state_of run) = failRes ++ successRes ∧
  (false = false →
     messages (trace_of run)
     = [("uploaded-files-get-reply", UploadedFiles (history (state_of run)));
        ("file-upload-reply", NoPayload)]) ∧
  (false = true → true = false → messages (trace_of run) = []).
Proof.
  intros run info failRes successRes.
  apply (upload_messages (Fixtures.settings "URL" true) [Fixtures.profile1]
           Fixtures.registry Fixtures.history_add false Fixtures.uuidv4
           Fixtures.getTime Fixtures.extname Fixtures.mime_lookup
           Fixtures.typeErrorMessage [1; 0] ["a.png"; "no.png"] "" None true
           Fixtures.emptyState Fixtures.profile1 Fixtures.demo successRes failRes).
  - reflexivity.
  - reflexivity.
  - reflexivity.
Defined.

Lemma upload_first_rejection_witness :
  let run := Fixtures.upload "URL" true [Fixtures.profile1] [1; 0]
               ["a.png"; "bad.png"] "" None false Fixtures.emptyState in
  trace_of run
  = [ChangeOptions "demo" [];
     UploaderUpload "demo" "a.png" "id0.png" None false;
     UploaderUpload "demo" "bad.png" "id2.png" None false;
     NotificationShow "上传操作异常" "ECONNRESET" false] ∧
  history (state_of run) = [] ∧
  clipboard (state_of run) = "old".
Proof.
  apply (upload_first_rejection (Fixtures.settings "URL" true) [Fixtures.profile1]
           Fixtures.registry Fixtures.history_add false Fixtures.uuidv4
           Fixtures.getTime Fixtures.extname Fixtures.mime_lookup
           Fixtures.typeErrorMessage [1; 0] ["a.png"; "bad.png"] "" None false
           Fixtures.emptyState Fixtures.profile1 Fixtures.demo [] 1 [0] "bad.png"
           {| message := "ECONNRESET" |}).
  - reflexivity.
  - reflexivity.
  - reflexivity.
  - reflexivity.
  - reflexivity.
  - intros j file' Hj. by apply elem_of_nil in Hj.
Defined.

Lemma upload_failure_records_witness :
  let files := ["a.png"; "no.png"] in
  let run := Fixtures.upload "URL" true [Fixtures.profile1] [1; 0] files "" None false
               Fixtures.emptyState in
  let info i file :=
    UploaderManager.baseInfoAt Fixtures.uuidv4 Fixtures.getTime Fixtures.extname
      Fixtures.mime_lookup Fixtures.profile1 0 0 i file in
  let failRes := [UploaderManager.withError (info 1 "no.png") (Some "refused")] in
  (∃ successRes, history_adds (trace_of run) = [failRes ++ successRes]) ∧
  Forall (λ r, UploadedFileInfo.uploaderProfileId r = "p1" ∧
               UploadedFileInfo.path r ∈ files ∧
               UploadedFileInfo.type r
               = UploaderManager.fileTypeOf Fixtures.mime_lookup (UploadedFileInfo.path r) ∧
               is_Some (UploadedFileInfo.id r) ∧ is_Some (UploadedFileInfo.name r) ∧
               UploadedFileInfo.url r = None ∧ UploadedFileInfo.size r = None)
         failRes ∧
  NoDup (UploadedFileInfo.id <$> failRes).
Proof.
  intros files run info failRes.
  assert (∀ (i : nat) (file : string), ["a.png"; "no.png"] !! i = Some file →
            ∃ r, Uploader.upload Fixtures.demo [] file
                   (UploaderManager.fileNameAt Fixtures.uuidv4 Fixtures.extname 0 i file)
                   None false = Ok r) as Hreturn.
  { intros [|[|i]] file Hfile; simpl in Hfile; simplify_eq; by eexists. }
  destruct (upload_failure_records (Fixtures.settings "URL" true) [Fixtures.profile1]
              Fixtures.registry Fixtures.history_add false Fixtures.uuidv4
              Fixtures.getTime Fixtures.extname Fixtures.mime_lookup
              Fixtures.typeErrorMessage [1; 0] ["a.png"; "no.png"] "" None false
              Fixtures.emptyState Fixtures.profile1 Fixtures.demo
              eq_refl eq_refl (perm_swap 0 1 []) Hreturn)
    as (Hadds & _ & Hfields & Hids).
  split; [exact Hadds|]. split; [exact Hfields|].
  apply Hids.
  intros m n Heq. injection Heq as Heq. by apply (inj pretty).
Defined.

Lemma reupload_records_witness :
  let run := MoreFixtures.reupload MoreFixtures.settleOrders [1; 0] MoreFixtures.items
               Fixtures.emptyState in
  result_of run = Ok tt ∧
  uploads_called (trace_of run) = ["a.png"; "no.png"; "b.png"] ∧
  length (history_adds (trace_of run)) = 2 ∧
  UploadedFileInfo.path <$> concat (history_adds (trace_of run))
    ≡ₚ ["a.png"; "b.png"; "no.png"].
Proof.
  apply (reupload_records (Fixtures.settings "URL" false) MoreFixtures.profiles
           MoreFixtures.registry Fixtures.history_add false Fixtures.uuidv4
           Fixtures.getTime Fixtures.extname Fixtures.mime_lookup
           Fixtures.typeErrorMessage MoreFixtures.settleOrders [1; 0]
           MoreFixtures.items Fixtures.emptyState).
  - assert (Hfiles : ∀ file : string,
              file ∈ ReuploadItem.path <$> MoreFixtures.items →
              file = "a.png" ∨ file = "b.png" ∨ file = "no.png").
    { intros file Hfile. cbn in Hfile.
      repeat (apply elem_of_cons in Hfile as [->|Hfile]; [tauto|]).
      by apply elem_of_nil in Hfile. }
    assert (Hdemo : ∀ file fileName : string,
              file ∈ ReuploadItem.path <$> MoreFixtures.items →
              ∃ r, Uploader.upload Fixtures.demo [] file fileName None false = Ok r).
    { intros file fileName Hfile.
      destruct (Hfiles file Hfile) as [->|[->| ->]]; by eexists. }
    intros item Hitem.
    apply elem_of_cons in Hitem as [->|Hitem].
    { by exists Fixtures.profile1, Fixtures.demo. }
    apply elem_of_cons in Hitem as [->|Hitem].
    { exists MoreFixtures.profile3, MoreFixtures.store.
      split; [reflexivity|split; [reflexivity|]]. by eexists. }
    apply elem_of_cons in Hitem as [->|Hitem].
    { by exists Fixtures.profile1, Fixtures.demo. }
    by apply elem_of_nil in Hitem.
  - apply perm_swap.
  - intros [|[|i]] entry Hentry; vm_compute in Hentry; simplify_eq.
    + apply perm_swap.
    + reflexivity.
Defined.

Lemma custom_upload_fails_unsent_witness :
  let res := JObj [("data", JObj [("url", JStr "https://x/a.png")])] in
  CustomUploader.upload Fixtures.builtin "B" Fixtures.getLength Fixtures.JSON_parse
    (Fixtures.answers res) MoreFixtures.badParams "a.png" "n.png"
  = CustomUploader.Fail "Unexpected token".
Proof.
  intros res.
  apply (custom_upload_fails_unsent Fixtures.builtin "B" Fixtures.getLength Fixtures.JSON_parse
           MoreFixtures.badParams "a.png" "n.png" {| message := "Unexpected token" |}).
  right. exists 2048%Z, "{bad". by repeat split.
Defined.

Lemma custom_request_params_witness :
  ∃ req,
    CustomUploader.buildRequest "B" Fixtures.getLength Fixtures.JSON_parse
      (Fixtures.customOptions "multipart/form-data") "a.png" = Ok req ∧
    CustomUploader.url req = Some "https://host/api" ∧
    CustomUploader.method req = Some "POST" ∧
    CustomUploader.params req = JObj [] ∧
    ∀ JSON_parse',
      CustomUploader.buildRequest "B" Fixtures.getLength JSON_parse'
        (Fixtures.customOptions "multipart/form-data") "a.png" = Ok req.
Proof.
  destruct (CustomUploader.buildRequest "B" Fixtures.getLength Fixtures.JSON_parse
              (Fixtures.customOptions "multipart/form-data") "a.png")
    as [req|err] eqn:Hreq; [|discriminate Hreq].
  exists req.
  destruct (custom_request_params "B" Fixtures.getLength Fixtures.JSON_parse
              (Fixtures.customOptions "multipart/form-data") "a.png" req Hreq)
    as (Hurl & Hmethod & _ & Hnone).
  destruct (Hnone (or_introl eq_refl)) as [Hparams Hparser].
  repeat split; assumption.
Defined.

